(** * reqgen: the recursive call-graph analysis engine

    A shallow embedding of the flow analyzer of the repository
    (class [CodeFlowAnalyzer], the in-memory cache [InMemoryMethodCache],
    the durable cache [PersistentAnalysisCache] and the language detector),
    followed by the properties of the specification that were checked
    against it.

    Conventions of the embedding.
    - A JavaScript string is a [string] of bytes (the UTF-8 encoding of the
      text).  [toLowerCase], [trim] and the character classes of the regular
      expressions are the ASCII ones; they agree with JavaScript on ASCII
      text, and bytes above 127 are left alone.
    - [Date.now()] reads a clock owned by the world: the n-th read of a run
      returns [clock w n].
    - A [MethodAnalysis] is a JavaScript object that is shared between the
      caches, the linear flow and the callers and is mutated in place; it
      lives in a store and is passed around by reference.
    - The oracle (the language model), the workspace search, the clock and
      the two hash functions are the world: a record of functions.
    - The chat response stream and the console only receive text and are
      left out. *)

From Stdlib Require Import String Ascii List Bool Arith ZArith Lia.
Import ListNotations.

Local Open Scope list_scope.
Local Open Scope nat_scope.
Local Open Scope string_scope.

(* ================================================================== *)
(** * JavaScript strings *)
(* ================================================================== *)

Module Js.

Definition chr (n : nat) : string := String (ascii_of_nat n) EmptyString.

(** The line feed ['\n']. *)
Definition nl : string := chr 10.

(** U+274C (cross mark), as its three UTF-8 bytes. *)
Definition cross_mark : string := chr 226 ++ chr 157 ++ chr 140.

(** U+21A9 U+FE0F (leftwards arrow with hook, emoji presentation). *)
Definition return_arrow : string :=
  chr 226 ++ chr 134 ++ chr 169 ++ chr 239 ++ chr 184 ++ chr 143.

Definition lowerChar (a : ascii) : ascii :=
  let n := nat_of_ascii a in
  if ((65 <=? n) && (n <=? 90))%nat then ascii_of_nat (n + 32) else a.

(** [s.toLowerCase()] *)
Fixpoint toLowerCase (s : string) : string :=
  match s with
  | EmptyString => EmptyString
  | String a s' => String (lowerChar a) (toLowerCase s')
  end.

(** [s.startsWith(p)] *)
Fixpoint startsWith (p s : string) : bool :=
  match p, s with
  | EmptyString, _ => true
  | String a p', String b s' => Ascii.eqb a b && startsWith p' s'
  | String _ _, EmptyString => false
  end.

(** [s.includes(sub)] *)
Fixpoint includes (sub s : string) : bool :=
  startsWith sub s ||
  match s with
  | EmptyString => false
  | String _ s' => includes sub s'
  end.

(** The suffix of [s] from offset [n] on. *)
Fixpoint drop (n : nat) (s : string) : string :=
  match n, s with
  | O, _ => s
  | S n', String _ s' => drop n' s'
  | S _, EmptyString => EmptyString
  end.

(** The first [n] characters of [s]. *)
Fixpoint take (n : nat) (s : string) : string :=
  match n, s with
  | O, _ => EmptyString
  | S n', String a s' => String a (take n' s')
  | S _, EmptyString => EmptyString
  end.

(** [s.substring(b, e)] for [b <= e]. *)
Definition substring (b e : nat) (s : string) : string :=
  take (e - b) (drop b s).

(** The offset, counted from [i], of the first occurrence of [sub] in [s]. *)
Fixpoint indexFrom (sub s : string) (i : nat) : option nat :=
  if startsWith sub s then Some i
  else match s with
       | EmptyString => None
       | String _ s' => indexFrom sub s' (S i)
       end.

(** [s.indexOf(sub, from)]; [None] stands for [-1]. *)
Definition indexOf (sub : string) (from : nat) (s : string) : option nat :=
  if (String.length s <? from)%nat then indexFrom sub EmptyString (String.length s)
  else indexFrom sub (drop from s) from.

Definition isSpace (a : ascii) : bool :=
  let n := nat_of_ascii a in
  ((n =? 32) || ((9 <=? n) && (n <=? 13)))%nat.

Fixpoint trimStart (s : string) : string :=
  match s with
  | String a s' => if isSpace a then trimStart s' else s
  | EmptyString => EmptyString
  end.

Fixpoint trimEnd (s : string) : string :=
  match s with
  | EmptyString => EmptyString
  | String a s' =>
      match trimEnd s' with
      | EmptyString => if isSpace a then EmptyString else String a EmptyString
      | t => String a t
      end
  end.

(** [s.trim()] *)
Definition trim (s : string) : string := trimEnd (trimStart s).

(** [s.replace(/c/g, '')] for a single character [c]. *)
Fixpoint removeChar (c : ascii) (s : string) : string :=
  match s with
  | EmptyString => EmptyString
  | String a s' =>
      if Ascii.eqb a c then removeChar c s' else String a (removeChar c s')
  end.

(** [a || b] on strings: the first one that is not empty. *)
Definition orElse (a b : string) : string :=
  match a with EmptyString => b | _ => a end.

(** [xs.some(p)] *)
Definition some {A : Type} (p : A -> bool) (xs : list A) : bool := existsb p xs.

(** The decimal digits of a number, as template literals print it. *)
Definition digit (n : nat) : string := chr (48 + n).

Fixpoint natToStringAux (fuel n : nat) (acc : string) : string :=
  match fuel with
  | O => acc
  | S fuel' =>
      let acc' := digit (n mod 10) ++ acc in
      if (n <? 10)%nat then acc' else natToStringAux fuel' (n / 10) acc'
  end.

Definition natToString (n : nat) : string := natToStringAux (S n) n EmptyString.

End Js.

(* ================================================================== *)
(** * Regular expressions

    The fragment of JavaScript regular expressions the analyzer uses:
    literals, single characters of a class, greedy and lazy repetition of a
    class, capture groups, [^], [$] and the lookahead [(?=lit|$)].  Matching
    is by backtracking in the priority order of ECMAScript. *)
(* ================================================================== *)

Module Regex.

Definition cclass := ascii -> bool.

Definition between (lo hi : nat) (a : ascii) : bool :=
  ((lo <=? nat_of_ascii a) && (nat_of_ascii a <=? hi))%nat.

(** [.] without the [s] flag: anything but a line terminator. *)
Definition dot : cclass := fun a =>
  negb ((nat_of_ascii a =? 10) || (nat_of_ascii a =? 13))%nat.
(** [.] with the [s] flag. *)
Definition dotAll : cclass := fun _ => true.
(** [\d] *)
Definition digit : cclass := between 48 57.
(** [\s] *)
Definition space : cclass := Js.isSpace.
(** [[A-Za-z_]] *)
Definition idStart : cclass := fun a =>
  between 65 90 a || between 97 122 a || (nat_of_ascii a =? 95)%nat.
(** [[A-Za-z0-9_]] *)
Definition idChar : cclass := fun a => idStart a || digit a.
(** [[^c]] *)
Definition notChar (c : string) : cclass := fun a =>
  match c with
  | String b _ => negb (Ascii.eqb a b)
  | EmptyString => true
  end.

Inductive node : Type :=
| Lit (s : string)                          (* the characters of s        *)
| One (c : cclass)                          (* one character of the class *)
| Rep (c : cclass) (min : nat) (greedy : bool)  (* c* c+ c*? c+?          *)
| GOpen (g : nat)                           (* ( of group g               *)
| GClose (g : nat)                          (* ) of group g               *)
| Bos                                       (* ^                          *)
| Eos                                       (* $                          *)
| Ahead (s : string).                       (* (?=s|$)                    *)

Definition regex := list node.

(** The captures of a match: for each group its start and end offsets. *)
Definition captures := list (nat * (nat * nat)).

Definition openGroup (g i : nat) (caps : captures) : captures :=
  (g, (i, i)) :: caps.

Fixpoint closeGroup (g i : nat) (caps : captures) : captures :=
  match caps with
  | [] => []
  | (g', (b, e)) :: rest =>
      if (g' =? g)%nat then (g', (b, i)) :: rest
      else (g', (b, e)) :: closeGroup g i rest
  end.

Fixpoint groupSpan (g : nat) (caps : captures) : option (nat * nat) :=
  match caps with
  | [] => None
  | (g', be) :: rest => if (g' =? g)%nat then Some be else groupSpan g rest
  end.

(** [rmatch r s i caps]: match [r] against [s], the input from offset [i]
    on; the result is the offset where the match ends. *)
Fixpoint rmatch (r : regex) (s : string) (i : nat) (caps : captures)
  {struct r} : option (nat * captures) :=
  match r with
  | [] => Some (i, caps)
  | Lit l :: r' =>
      if Js.startsWith l s
      then rmatch r' (Js.drop (String.length l) s) (i + String.length l) caps
      else None
  | One c :: r' =>
      match s with
      | String a s' => if c a then rmatch r' s' (S i) caps else None
      | EmptyString => None
      end
  | Rep c min greedy :: r' =>
      (fix rep (s : string) (i n : nat) {struct s} : option (nat * captures) :=
         match s with
         | String a s' =>
             if c a then
               if greedy then
                 match rep s' (S i) (S n) with
                 | Some m => Some m
                 | None => if (min <=? n)%nat then rmatch r' s i caps else None
                 end
               else
                 match (if (min <=? n)%nat then rmatch r' s i caps else None) with
                 | Some m => Some m
                 | None => rep s' (S i) (S n)
                 end
             else if (min <=? n)%nat then rmatch r' s i caps else None
         | EmptyString => if (min <=? n)%nat then rmatch r' s i caps else None
         end) s i 0
  | GOpen g :: r' => rmatch r' s i (openGroup g i caps)
  | GClose g :: r' => rmatch r' s i (closeGroup g i caps)
  | Bos :: r' => if (i =? 0)%nat then rmatch r' s i caps else None
  | Eos :: r' =>
      match s with
      | EmptyString => rmatch r' s i caps
      | String _ _ => None
      end
  | Ahead l :: r' =>
      if Js.startsWith l s || (String.length s =? 0)%nat
      then rmatch r' s i caps else None
  end.

(** One match: where it starts, where it ends, its captures. *)
Record found : Type := mkFound {
  index : nat;
  lastIndex : nat;
  caps : captures
}.

(** The leftmost match at or after offset [i]. *)
Fixpoint search (r : regex) (s : string) (i : nat) : option found :=
  match rmatch r s i [] with
  | Some (e, cs) => Some (mkFound i e cs)
  | None =>
      match s with
      | String _ s' => search r s' (S i)
      | EmptyString => None
      end
  end.

(** The successive results of [r.exec(input)] for a [g] regex, until it
    returns [null].  Every pattern of the analyzer matches at least one
    character, so each round advances and [fuel] (the length of the input)
    is never used up. *)
Fixpoint execLoop (fuel : nat) (r : regex) (s : string) (i : nat)
  : list found :=
  match fuel with
  | O => []
  | S fuel' =>
      match search r s i with
      | None => []
      | Some m =>
          m :: execLoop fuel' r (Js.drop (lastIndex m - i) s) (lastIndex m)
      end
  end.

Definition execAll (r : regex) (input : string) : list found :=
  execLoop (S (String.length input)) r input 0.

(** [input.match(r)] for a regex without the [g] flag. *)
Definition matchFirst (r : regex) (input : string) : option found :=
  search r input 0.

(** [r.test(input)] *)
Definition test (r : regex) (input : string) : bool :=
  match search r input 0 with Some _ => true | None => false end.

(** The text of group [g] of a match. *)
Definition group (input : string) (m : found) (g : nat) : string :=
  match groupSpan g (caps m) with
  | Some (b, e) => Js.substring b e input
  | None => EmptyString
  end.

End Regex.

(* ================================================================== *)
(** * [Map<string, V>] and [Set<string>]

    A JavaScript [Map] iterates in insertion order, and the caches depend on
    that order when they evict: an association list, where [set] on a key
    that is present keeps its place. *)
(* ================================================================== *)

Module JsMap.

Section Ops.
Context {V : Type}.

Definition t := list (string * V).

Definition empty : t := [].

Fixpoint get (k : string) (m : t) : option V :=
  match m with
  | [] => None
  | (k', v) :: m' => if String.eqb k' k then Some v else get k m'
  end.

Definition has (k : string) (m : t) : bool :=
  match get k m with Some _ => true | None => false end.

Fixpoint set (k : string) (v : V) (m : t) : t :=
  match m with
  | [] => [(k, v)]
  | (k', v') :: m' =>
      if String.eqb k' k then (k, v) :: m' else (k', v') :: set k v m'
  end.

Fixpoint delete (k : string) (m : t) : t :=
  match m with
  | [] => []
  | (k', v) :: m' =>
      if String.eqb k' k then m' else (k', v) :: delete k m'
  end.

Definition size (m : t) : nat := List.length m.

End Ops.

Arguments t : clear implicits.

End JsMap.

Module JsSet.

Definition t := list string.

Definition empty : t := [].

Definition has (k : string) (s : t) : bool :=
  existsb (String.eqb k) s.

Definition add (k : string) (s : t) : t :=
  if has k s then s else (s ++ [k])%list.

Definition size (s : t) : nat := List.length s.

End JsSet.

(* ================================================================== *)
(** * The data model (types.ts) *)
(* ================================================================== *)

Module AnalysisStatus.
Inductive t : Type := complete | partial | error | external.

Definition eqb (a b : t) : bool :=
  match a, b with
  | complete, complete | partial, partial | error, error
  | external, external => true
  | _, _ => false
  end.
End AnalysisStatus.

Module StepInDecision.
Inductive t : Type := stepInto | objectLookup | external | notFound.

Definition eqb (a b : t) : bool :=
  match a, b with
  | stepInto, stepInto | objectLookup, objectLookup
  | external, external | notFound, notFound => true
  | _, _ => false
  end.
End StepInDecision.

Module LinearStepType.
Inductive t : Type :=
| methodStart | execution | methodCall | methodReturn | conditional
| methodEnd.
End LinearStepType.

Module AnalysisConfig.
Record t : Type := mk {
  maxCallStackDepth : nat;
  maxTotalMethods : nat;
  maxAnalysisTimeMs : Z;
  stepIntoStrategy : string;
  enableCaching : bool;
  cacheExpiryMs : Z
}.

(** [Partial<AnalysisConfig>] *)
Record partial : Type := mkPartial {
  maxCallStackDepth' : option nat;
  maxTotalMethods' : option nat;
  maxAnalysisTimeMs' : option Z;
  stepIntoStrategy' : option string;
  enableCaching' : option bool;
  cacheExpiryMs' : option Z
}.

Definition none : partial := mkPartial None None None None None None.

Definition pick {A : Type} (o : option A) (d : A) : A :=
  match o with Some a => a | None => d end.

(** [{ ...base, ...config }] *)
Definition spread (base : t) (config : partial) : t :=
  mk (pick (maxCallStackDepth' config) (maxCallStackDepth base))
     (pick (maxTotalMethods' config) (maxTotalMethods base))
     (pick (maxAnalysisTimeMs' config) (maxAnalysisTimeMs base))
     (pick (stepIntoStrategy' config) (stepIntoStrategy base))
     (pick (enableCaching' config) (enableCaching base))
     (pick (cacheExpiryMs' config) (cacheExpiryMs base)).

(** A full configuration seen as a partial one. *)
Definition full (c : t) : partial :=
  mkPartial (Some (maxCallStackDepth c)) (Some (maxTotalMethods c))
            (Some (maxAnalysisTimeMs c)) (Some (stepIntoStrategy c))
            (Some (enableCaching c)) (Some (cacheExpiryMs c)).
End AnalysisConfig.

(** [ANALYSIS_CONFIG] of prompts.ts. *)
Definition ANALYSIS_CONFIG : AnalysisConfig.t :=
  AnalysisConfig.mk 5 15 60000 "conservative" true 300000.

(** The optional field [conditionalExecution] of a call is always
    [undefined] in the analyzer and is left out. *)
Module MethodCall.
Record t : Type := mk {
  className : string;
  methodName : string;
  parameters : string;
  stepInDecision : StepInDecision.t;
  reasoning : string;
  expectedBehavior : string;
  executionOrder : nat
}.

Definition withExpectedBehavior (b : string) (c : t) : t :=
  mk (className c) (methodName c) (parameters c) (stepInDecision c)
     (reasoning c) b (executionOrder c).
End MethodCall.

(** [blockType] is declared as [ExecutionBlockType], but the parser stores
    the lower-cased text of the oracle under a cast: at run time it is any
    string. *)
Module ExecutionBlock.
Record t : Type := mk {
  blockId : string;
  blockType : string;
  description : string;
  executionFlow : string;
  methodCalls : list MethodCall.t;
  nextBlocks : list string
}.

Definition withMethodCalls (cs : list MethodCall.t) (b : t) : t :=
  mk (blockId b) (blockType b) (description b) (executionFlow b) cs
     (nextBlocks b).
End ExecutionBlock.

Module MethodCallSummary.
Record t : Type := mk {
  stepInto : list MethodCall.t;
  objectLookup : list MethodCall.t;
  external : list MethodCall.t;
  notFound : list MethodCall.t
}.

Definition empty : t := mk [] [] [] [].
End MethodCallSummary.

Module MethodAnalysis.
Record t : Type := mk {
  className : string;
  methodName : string;
  language : string;
  analysisStatus : AnalysisStatus.t;
  executionBlocks : list ExecutionBlock.t;
  methodCallSummary : MethodCallSummary.t;
  analysisTimestamp : Z;
  contentHash : string;
  errorMessage : option string;
  inheritedFrom : option string
}.

Definition withExecutionBlocks (bs : list ExecutionBlock.t) (a : t) : t :=
  mk (className a) (methodName a) (language a) (analysisStatus a) bs
     (methodCallSummary a) (analysisTimestamp a) (contentHash a)
     (errorMessage a) (inheritedFrom a).

Definition withCacheStamp (hash : string) (time : Z) (a : t) : t :=
  mk (className a) (methodName a) (language a) (analysisStatus a)
     (executionBlocks a) (methodCallSummary a) time hash
     (errorMessage a) (inheritedFrom a).

Definition withAttribution (cls original : string) (a : t) : t :=
  mk cls (methodName a) (language a) (analysisStatus a)
     (executionBlocks a) (methodCallSummary a) (analysisTimestamp a)
     (contentHash a) (errorMessage a) (Some original).
End MethodAnalysis.

(** A reference to a [MethodAnalysis] object in the store. *)
Definition ref := nat.

Module CallStackEntry.
Record t : Type := mk {
  className : string;
  methodName : string;
  insertionPoint : option string;
  depth : nat;
  isConditional : bool          (* executionContext.isConditional *)
}.
End CallStackEntry.

Module CacheEntry.
Record t : Type := mk {
  key : string;
  analysis : ref;
  timestamp : Z;
  accessCount : nat;
  contentHash : string
}.

Definition touch (e : t) : t :=
  mk (key e) (analysis e) (timestamp e) (S (accessCount e)) (contentHash e).
End CacheEntry.

(** [hitRate] is the quotient [hitCount / (hitCount + missCount)], a float
    recomputed from the two counters after each lookup; only the counters
    are kept.  [averageAnalysisTime] is never written. *)
Module CacheStats.
Record t : Type := mk {
  totalEntries : nat;
  missCount : nat;
  hitCount : nat;
  evictionCount : nat
}.

Definition zero : t := mk 0 0 0 0.
End CacheStats.

Module CacheConfig.
Record t : Type := mk {
  maxEntries : nat;
  expiryMs : Z;
  enableContentHashing : bool;
  enableStats : bool
}.
End CacheConfig.

Module PersistentCacheEntry.
Record t : Type := mk {
  analysis : ref;
  contentHash : string;         (* metadata.contentHash *)
  modelName : string;           (* metadata.modelName   *)
  timestamp : Z;                (* metadata.timestamp   *)
  filePath : string;            (* metadata.filePath    *)
  version : string              (* metadata.version     *)
}.
End PersistentCacheEntry.

Module AnalysisSession.
Record t : Type := mk {
  sessionId : string;
  startTime : Z;
  config : AnalysisConfig.t;
  callStack : list CallStackEntry.t;
  analyzedMethods : JsSet.t;
  totalMethodsAnalyzed : nat;
  isComplete : bool;
  rootMethod : string * string    (* className, methodName *)
}.
End AnalysisSession.

(** The optional field [conditionalInfo] of a step is never set by the
    analyzer and is left out. *)
Module LinearExecutionStep.
Record t : Type := mk {
  stepNumber : nat;
  depth : nat;
  sourceMethod : string;
  description : string;
  stepType : LinearStepType.t;
  originalBlockId : option string
}.
End LinearExecutionStep.

Module LinearExecutionFlow.
Record t : Type := mk {
  steps : list LinearExecutionStep.t;
  methodReferences : JsMap.t ref;
  totalSteps : nat;
  rootMethod : string
}.
End LinearExecutionFlow.

Module FileInfo.
Record t : Type := mk {
  className : string;
  filePath : string;
  content : string;
  language : string;
  contentHash : string;
  lastModified : Z
}.
End FileInfo.

(** [vscode.LanguageModelChat], as far as the analyzer reads it. *)
Module LanguageModelChat.
Record t : Type := mk {
  name : string;
  id : string;
  family : string;
  vendor : string
}.
End LanguageModelChat.

(* ================================================================== *)
(** * languageDetector.ts *)
(* ================================================================== *)

(** [s.split('.').pop()]: the text after the last dot, or all of [s]. *)
Fixpoint afterLastDot (s : string) : string :=
  match s with
  | EmptyString => EmptyString
  | String a s' =>
      if Js.includes "." s' then afterLastDot s'
      else if Ascii.eqb a "."%char then s'
      else s
  end.

Definition detectLanguage (filePath : string) : string :=
  let ext := afterLastDot (Js.toLowerCase filePath) in
  if String.eqb ext "java" then "java"
  else if String.eqb ext "ts" || String.eqb ext "tsx" then "typescript"
  else if String.eqb ext "js" || String.eqb ext "jsx" then "javascript"
  else if String.eqb ext "py" then "python"
  else if String.eqb ext "cs" then "csharp"
  else if String.eqb ext "cpp" || String.eqb ext "cc" || String.eqb ext "cxx"
       then "cpp"
  else if String.eqb ext "c" then "c"
  else if String.eqb ext "go" then "go"
  else if String.eqb ext "rs" then "rust"
  else if String.eqb ext "kt" then "kotlin"
  else if String.eqb ext "scala" then "scala"
  else "java".

(* ================================================================== *)
(** * CodeFlowAnalyzer: the oracle response parser *)
(* ================================================================== *)

Import Regex.

(** [ParsedMethodAnalysis] *)
Module ParsedMethodAnalysis.
Record t : Type := mk {
  executionBlocks : list ExecutionBlock.t;
  methodCalls : list MethodCall.t;
  analysisStatus : AnalysisStatus.t;
  errorMessage : option string
}.
End ParsedMethodAnalysis.

(** The pattern  /^([A-Za-z_][A-Za-z0-9_]{0,})\s*\.\s*([A-Za-z_][A-Za-z0-9_]{0,})\s*\(([^)]{0,})\)\s*$/  (a star before a closing parenthesis is written {0,}) *)
Definition classMethodPattern : regex :=
  [ Bos; GOpen 1; One idStart; Rep idChar 0 true; GClose 1;
    Rep space 0 true; Lit "."; Rep space 0 true;
    GOpen 2; One idStart; Rep idChar 0 true; GClose 2;
    Rep space 0 true; Lit "(";
    GOpen 3; Rep (notChar ")") 0 true; GClose 3; Lit ")";
    Rep space 0 true; Eos ].

(** The pattern  /^([A-Za-z_][A-Za-z0-9_]{0,})\s*\(([^)]{0,})\)\s*$/  (a star before a closing parenthesis is written {0,}) *)
Definition standalonePattern : regex :=
  [ Bos; GOpen 1; One idStart; Rep idChar 0 true; GClose 1;
    Rep space 0 true; Lit "(";
    GOpen 2; Rep (notChar ")") 0 true; GClose 2; Lit ")";
    Rep space 0 true; Eos ].

(** The result is [(className, methodName, parameters)]; [None] is [null]. *)
Definition parseMethodCall (fullCall : string)
  : option (string * string * string) :=
  let cleanCall := Js.trim (Js.removeChar "`"%char fullCall) in
  match matchFirst classMethodPattern cleanCall with
  | Some m =>
      Some (Js.trim (group cleanCall m 1),
            Js.trim (group cleanCall m 2),
            Js.trim (group cleanCall m 3))
  | None =>
      match matchFirst standalonePattern cleanCall with
      | Some m =>
          Some ("Unknown",
                Js.trim (group cleanCall m 1),
                Js.trim (group cleanCall m 2))
      | None => None
      end
  end.

(** The mapping of a classification phrase to a [StepInDecision], the body
    of the [if] chain of [extractMethodCallsFromBlock]. *)
Definition classify (classification : string) : StepInDecision.t :=
  let classificationLower := Js.trim (Js.toLowerCase classification) in
  if Js.includes "step into" classificationLower then StepInDecision.stepInto
  else if Js.includes "object lookup" classificationLower
       then StepInDecision.objectLookup
  else if Js.includes "external" classificationLower
       then StepInDecision.external
  else if Js.includes "yes" classificationLower then StepInDecision.stepInto
  else StepInDecision.external.

(** The pattern  /- \*\*Call\*\*: `(.+?)`\n.*?- \*\*Classification\*\*: (.+?) \((.+?)\)/gs  *)
Definition callPattern : regex :=
  [ Lit "- **Call**: `"; GOpen 1; Rep dotAll 1 false; GClose 1;
    Lit "`"; Lit Js.nl; Rep dotAll 0 false;
    Lit "- **Classification**: "; GOpen 2; Rep dotAll 1 false; GClose 2;
    Lit " ("; GOpen 3; Rep dotAll 1 false; GClose 3; Lit ")" ].

(** The loop of [extractMethodCallsFromBlock] over the matches of
    [callPattern]; [callIndex] counts the calls kept so far. *)
Fixpoint collectCalls (blockText : string) (ms : list found)
  (callIndex : nat) : list MethodCall.t :=
  match ms with
  | [] => []
  | m :: ms' =>
      let fullCall := group blockText m 1 in
      let classification := group blockText m 2 in
      let reasoning := group blockText m 3 in
      match parseMethodCall fullCall with
      | Some (cls, meth, params) =>
          MethodCall.mk cls meth params (classify classification)
            (Js.trim reasoning) "To be analyzed" callIndex
          :: collectCalls blockText ms' (S callIndex)
      | None => collectCalls blockText ms' callIndex
      end
  end.

Definition extractMethodCallsFromBlock (blockText : string)
  (blockIndex : nat) : list MethodCall.t :=
  collectCalls blockText (execAll callPattern blockText) 0.

Definition extractBlockText (responseText : string) (startIndex : nat)
  : string :=
  let endIndex :=
    match Js.indexOf "#### Block" (startIndex + 1) responseText with
    | Some nextBlockIndex => nextBlockIndex
    | None => String.length responseText
    end in
  Js.substring startIndex endIndex responseText.

(** The pattern  /\*\*Execution Flow\*\*:\n(.*?)(?=\n\*\*|$)/s  *)
Definition executionFlowPattern : regex :=
  [ Lit "**Execution Flow**:"; Lit Js.nl;
    GOpen 1; Rep dotAll 0 false; GClose 1; Ahead (Js.nl ++ "**") ].

Definition extractExecutionFlow (blockText : string) : string :=
  match matchFirst executionFlowPattern blockText with
  | Some m => Js.trim (group blockText m 1)
  | None => "No execution flow documented"
  end.

(** The pattern  /#### Block \d+: (.+?)\n\*\*Type\*\*: (.+?)\n/g  *)
Definition blockPattern : regex :=
  [ Lit "#### Block "; Rep digit 1 true; Lit ": ";
    GOpen 1; Rep dot 1 false; GClose 1; Lit Js.nl; Lit "**Type**: ";
    GOpen 2; Rep dot 1 false; GClose 2; Lit Js.nl ].

Definition methodNotFoundIndicators : list string :=
  [ "not found"; "does not exist"; "cannot be found"; "method not found";
    Js.cross_mark; "Method Detection Result:" ++ Js.nl ++ Js.cross_mark;
    "Similar Methods Found:" ].

(** The [while] loop of [parseLLMResponse] over the matches of
    [blockPattern]. *)
Fixpoint collectBlocks (responseText : string) (ms : list found)
  (blockIndex : nat) : list ExecutionBlock.t :=
  match ms with
  | [] => []
  | m :: ms' =>
      let description := group responseText m 1 in
      let type := group responseText m 2 in
      let blockText := extractBlockText responseText (index m) in
      let blockMethodCalls := extractMethodCallsFromBlock blockText blockIndex in
      ExecutionBlock.mk
        ("block-" ++ Js.natToString blockIndex)
        (Js.toLowerCase type)
        (Js.trim description)
        (extractExecutionFlow blockText)
        blockMethodCalls
        ["block-" ++ Js.natToString (blockIndex + 1)]
      :: collectBlocks responseText ms' (S blockIndex)
  end.

(** The constant [isMethodNotFound] of [parseLLMResponse]. *)
Definition isMethodNotFound (responseText : string) : bool :=
  Js.some (fun indicator =>
             Js.includes (Js.toLowerCase indicator)
                         (Js.toLowerCase responseText))
          methodNotFoundIndicators.

Definition parseLLMResponse (responseText className methodName language : string)
  : ParsedMethodAnalysis.t :=
  if isMethodNotFound responseText then
    ParsedMethodAnalysis.mk [] [] AnalysisStatus.error
      (Some ("Method " ++ methodName ++ " not found in class " ++ className))
  else
    let executionBlocks :=
      collectBlocks responseText (execAll blockPattern responseText) 0 in
    let methodCalls :=
      flat_map ExecutionBlock.methodCalls executionBlocks in
    ParsedMethodAnalysis.mk executionBlocks methodCalls AnalysisStatus.complete None.

Definition notFoundIndicators : list string :=
  [ "Method not found"; "not found in class"; Js.cross_mark ++ " **Method";
    "Method Detection Result:" ++ Js.nl ++ Js.cross_mark;
    "does not exist"; "could not be found" ].

Definition isMethodNotFoundResponse (responseText : string) : bool :=
  Js.some (fun indicator =>
             Js.includes (Js.toLowerCase indicator)
                         (Js.toLowerCase responseText))
          notFoundIndicators.

(** The [forEach] of [buildMethodCallSummary]: [call] is pushed on the
    bucket its [stepInDecision] names. *)
Definition pushCall (s : MethodCallSummary.t) (call : MethodCall.t)
  : MethodCallSummary.t :=
  match MethodCall.stepInDecision call with
  | StepInDecision.stepInto =>
      MethodCallSummary.mk (MethodCallSummary.stepInto s ++ [call])%list
        (MethodCallSummary.objectLookup s) (MethodCallSummary.external s)
        (MethodCallSummary.notFound s)
  | StepInDecision.objectLookup =>
      MethodCallSummary.mk (MethodCallSummary.stepInto s)
        (MethodCallSummary.objectLookup s ++ [call])%list
        (MethodCallSummary.external s) (MethodCallSummary.notFound s)
  | StepInDecision.external =>
      MethodCallSummary.mk (MethodCallSummary.stepInto s)
        (MethodCallSummary.objectLookup s)
        (MethodCallSummary.external s ++ [call])%list
        (MethodCallSummary.notFound s)
  | StepInDecision.notFound =>
      MethodCallSummary.mk (MethodCallSummary.stepInto s)
        (MethodCallSummary.objectLookup s) (MethodCallSummary.external s)
        (MethodCallSummary.notFound s ++ [call])%list
  end.

Definition buildMethodCallSummary (methodCalls : list MethodCall.t)
  : MethodCallSummary.t :=
  fold_left pushCall methodCalls MethodCallSummary.empty.

(** The pattern  /^[A-Za-z_][A-Za-z0-9_]*$/  *)
Definition identifierPattern : regex :=
  [ Bos; One idStart; Rep idChar 0 true; Eos ].

Definition isValidIdentifier (identifier : string) : bool :=
  test identifierPattern identifier && (String.length identifier <? 100)%nat.

(** A class the oracle suggests to look at instead. *)
Module Suggestion.
Record t : Type := mk {
  className : string;
  reason : string
}.
End Suggestion.

(** The pattern  /\*\*Extends\*\*:\s*`([^`]+)`\s*-\s*([^\n]+)/g  *)
Definition parentClassPattern : regex :=
  [ Lit "**Extends**:"; Rep space 0 true; Lit "`";
    GOpen 1; Rep (notChar "`") 1 true; GClose 1; Lit "`";
    Rep space 0 true; Lit "-"; Rep space 0 true;
    GOpen 2; Rep (notChar Js.nl) 1 true; GClose 2 ].

(** The pattern  /`([A-Za-z_][A-Za-z0-9_]{0,})`\s*-\s*([^\n]+)/g
    (a star before a closing parenthesis is written {0,}) *)
Definition alternativePattern : regex :=
  [ Lit "`"; GOpen 1; One idStart; Rep idChar 0 true; GClose 1; Lit "`";
    Rep space 0 true; Lit "-"; Rep space 0 true;
    GOpen 2; Rep (notChar Js.nl) 1 true; GClose 2 ].

(** The pattern  /#### Alternative Classes to Check:(.*?)(?=####|$)/s  *)
Definition alternativeSectionPattern : regex :=
  [ Lit "#### Alternative Classes to Check:";
    GOpen 1; Rep dotAll 0 false; GClose 1; Ahead "####" ].

(** The pattern  /\*\*Implements\*\*:\s*`([^`]+)`\s*-\s*([^\n]+)/g  *)
Definition implementsPattern : regex :=
  [ Lit "**Implements**:"; Rep space 0 true; Lit "`";
    GOpen 1; Rep (notChar "`") 1 true; GClose 1; Lit "`";
    Rep space 0 true; Lit "-"; Rep space 0 true;
    GOpen 2; Rep (notChar Js.nl) 1 true; GClose 2 ].

(** One of the three [while] loops of [extractLLMSuggestions]: the matches
    [ms] of a pattern in [text] are appended to [suggestions], each reason
    behind [label]; with [dedup] a class already suggested is skipped. *)
Fixpoint pushSuggestions (dedup : bool) (label text : string)
  (ms : list found) (suggestions : list Suggestion.t)
  : list Suggestion.t :=
  match ms with
  | [] => suggestions
  | m :: ms' =>
      let className := Js.trim (group text m 1) in
      let reason := group text m 2 in
      let known :=
        Js.some (fun s => String.eqb (Suggestion.className s) className)
                suggestions in
      if dedup && known then pushSuggestions dedup label text ms' suggestions
      else
        pushSuggestions dedup label text ms'
          (suggestions ++ [Suggestion.mk className (label ++ Js.trim reason)])%list
  end.

Definition extractLLMSuggestions (llmResponse : string)
  : list Suggestion.t :=
  let suggestions :=
    pushSuggestions false "Parent class: " llmResponse
      (execAll parentClassPattern llmResponse) [] in
  let suggestions :=
    match matchFirst alternativeSectionPattern llmResponse with
    | Some alternativeSection =>
        let sectionText := group llmResponse alternativeSection 1 in
        pushSuggestions true "Alternative class: " sectionText
          (execAll alternativePattern sectionText) suggestions
    | None => suggestions
    end in
  pushSuggestions true "Interface: " llmResponse
    (execAll implementsPattern llmResponse) suggestions.

(** [xs.join(sep)] *)
Fixpoint join (sep : string) (xs : list string) : string :=
  match xs with
  | [] => EmptyString
  | [x] => x
  | x :: xs' => x ++ sep ++ join sep xs'
  end.

Definition extractExpectedBehavior (analysis : MethodAnalysis.t) : string :=
  match MethodAnalysis.executionBlocks analysis with
  | [] => "Method behavior could not be determined"
  | blocks =>
      match find (fun block =>
                    String.eqb (ExecutionBlock.blockType block) "return")
                 blocks with
      | Some returnBlock => ExecutionBlock.description returnBlock
      | None =>
          let mainBlocks := firstn 3 blocks in
          let summary := join "; " (map ExecutionBlock.description mainBlocks) in
          if (100 <? String.length summary)%nat
          then Js.substring 0 97 summary ++ "..."
          else summary
      end
  end.

(* ================================================================== *)
(** * The world and the state of a run *)
(* ================================================================== *)

(** What a [throw] carries: an [Error] with its message, or another value. *)
Inductive exn : Type :=
| JsError (message : string)
| Thrown.

(** [error instanceof Error ? error.message : 'Unknown error'] *)
Definition messageOf (e : exn) : string :=
  match e with
  | JsError message => message
  | Thrown => "Unknown error"
  end.

(** The outcome of a call that may throw. *)
Inductive res (A : Type) : Type :=
| Ok (a : A)
| Raise (e : exn).
Arguments Ok {A} a.
Arguments Raise {A} e.

(** What the oracle is asked: the arguments of [buildMethodAnalysisPrompt],
    from which the prompt is made. *)
Module OracleRequest.
Record t : Type := mk {
  className : string;
  methodName : string;
  content : string;
  language : string
}.
End OracleRequest.

(** How [model.sendRequest] raced against the timer ends: the whole text of
    the reply (its fragments concatenated), a rejection of the request or of
    the stream, or the timer first. *)
Inductive OracleReply : Type :=
| Streams (text : string)
| Rejects (e : exn)
| TimesOut.

Record World : Type := mkWorld {
  (** [Date.now()], by the number of reads before *)
  clock : nat -> Z;
  (** [crypto.createHash('md5').update(s).digest('hex')] *)
  md5 : string -> string;
  (** [crypto.createHash('sha256').update(s).digest('hex')] *)
  sha256 : string -> string;
  (** workspaceSearch.ts: the paths found for a class name *)
  findClassOrSymbol : string -> res (list string);
  (** workspaceSearch.ts: the text of the file at a path *)
  readFileContent : string -> res string;
  (** [vscode.lm.selectChatModels({ vendor: 'copilot' })] *)
  selectChatModels : res (list LanguageModelChat.t);
  (** [vscode.window.showQuickPick]: the model of the item picked *)
  showQuickPick : list LanguageModelChat.t -> res (option LanguageModelChat.t);
  (** the oracle: given the requests sent before, the model, the request
      and the timeout in milliseconds *)
  sendRequest : list OracleRequest.t -> LanguageModelChat.t ->
                OracleRequest.t -> Z -> OracleReply
}.

(** The fields of the analyzer ([this]) with those of its two caches, the
    object store, and the trace of the run (clock reads, oracle requests). *)
Record State : Type := mkState {
  cache : JsMap.t CacheEntry.t;            (* InMemoryMethodCache.cache   *)
  stats : CacheStats.t;                    (* InMemoryMethodCache.stats   *)
  cacheConfig : CacheConfig.t;             (* InMemoryMethodCache.config  *)
  persistentCache : option (JsMap.t PersistentCacheEntry.t);
                                           (* PersistentAnalysisCache.entries,
                                              [None] when there is no
                                              durable cache *)
  selectedModel : option LanguageModelChat.t;
  linearFlow : option LinearExecutionFlow.t;
  heap : list MethodAnalysis.t;
  ticks : nat;
  oracleLog : list OracleRequest.t
}.

Definition set_cache (v : JsMap.t CacheEntry.t) (st : State) : State :=
  mkState v (stats st) (cacheConfig st) (persistentCache st)
          (selectedModel st) (linearFlow st) (heap st) (ticks st)
          (oracleLog st).

Definition set_stats (v : CacheStats.t) (st : State) : State :=
  mkState (cache st) v (cacheConfig st) (persistentCache st)
          (selectedModel st) (linearFlow st) (heap st) (ticks st)
          (oracleLog st).

Definition set_persistentCache (v : option (JsMap.t PersistentCacheEntry.t))
  (st : State) : State :=
  mkState (cache st) (stats st) (cacheConfig st) v
          (selectedModel st) (linearFlow st) (heap st) (ticks st)
          (oracleLog st).

Definition set_selectedModel (v : option LanguageModelChat.t) (st : State)
  : State :=
  mkState (cache st) (stats st) (cacheConfig st) (persistentCache st)
          v (linearFlow st) (heap st) (ticks st) (oracleLog st).

Definition set_linearFlow (v : option LinearExecutionFlow.t) (st : State)
  : State :=
  mkState (cache st) (stats st) (cacheConfig st) (persistentCache st)
          (selectedModel st) v (heap st) (ticks st) (oracleLog st).

Definition set_heap (v : list MethodAnalysis.t) (st : State) : State :=
  mkState (cache st) (stats st) (cacheConfig st) (persistentCache st)
          (selectedModel st) (linearFlow st) v (ticks st) (oracleLog st).

Definition set_ticks (v : nat) (st : State) : State :=
  mkState (cache st) (stats st) (cacheConfig st) (persistentCache st)
          (selectedModel st) (linearFlow st) (heap st) v (oracleLog st).

Definition set_oracleLog (v : list OracleRequest.t) (st : State) : State :=
  mkState (cache st) (stats st) (cacheConfig st) (persistentCache st)
          (selectedModel st) (linearFlow st) (heap st) (ticks st) v.

(** ** The object store *)

(** What a reference that was never allocated reads as. *)
Definition undefinedAnalysis : MethodAnalysis.t :=
  MethodAnalysis.mk EmptyString EmptyString EmptyString AnalysisStatus.error [] MethodCallSummary.empty 0 EmptyString None None.

Definition deref (r : ref) (st : State) : MethodAnalysis.t :=
  nth r (heap st) undefinedAnalysis.

(** A new object. *)
Definition alloc (a : MethodAnalysis.t) (st : State) : ref * State :=
  (List.length (heap st), set_heap (heap st ++ [a])%list st).

Fixpoint updateNth {A : Type} (n : nat) (f : A -> A) (l : list A)
  {struct l} : list A :=
  match l, n with
  | [], _ => []
  | x :: l', O => f x :: l'
  | x :: l', S n' => x :: updateNth n' f l'
  end.

(** An assignment to fields of the object behind [r]. *)
Definition mutate (r : ref) (f : MethodAnalysis.t -> MethodAnalysis.t)
  (st : State) : State :=
  set_heap (updateNth r f (heap st)) st.

(** [Date.now()] *)
Definition Date_now (w : World) (st : State) : Z * State :=
  (clock w (ticks st), set_ticks (S (ticks st)) st).

(* ================================================================== *)
(** * cache.ts: InMemoryMethodCache *)
(* ================================================================== *)

(** [generateContentHash] *)
Definition generateContentHash (w : World) (content : string) : string :=
  md5 w content.

(** The configuration [createMethodAnalysisCache] gives the cache. *)
Definition defaultCacheConfig : CacheConfig.t :=
  CacheConfig.mk 100 300000 true true.

Module InMemoryMethodCache.

Definition getCacheKey (className methodName : string) : string :=
  className ++ "#" ++ methodName.

(** The scan of [evictOldest] for the oldest entry: [oldestKey] with
    [oldestTime], which is [None] while it is [Infinity]. *)
Fixpoint findOldest (entries : JsMap.t CacheEntry.t) (oldestKey : string)
  (oldestTime : option Z) : string :=
  match entries with
  | [] => oldestKey
  | (key, entry) :: rest =>
      let older :=
        match oldestTime with
        | None => true
        | Some t => (CacheEntry.timestamp entry <? t)%Z
        end in
      if older then findOldest rest key (Some (CacheEntry.timestamp entry))
      else findOldest rest oldestKey oldestTime
  end.

Definition evictOldest (st : State) : State :=
  if (JsMap.size (cache st) <? CacheConfig.maxEntries (cacheConfig st))%nat
  then st
  else
    let oldestKey := findOldest (cache st) EmptyString None in
    match oldestKey with
    | EmptyString => st
    | _ =>
        let st := set_cache (JsMap.delete oldestKey (cache st)) st in
        set_stats (CacheStats.mk (CacheStats.totalEntries (stats st))
                                 (CacheStats.missCount (stats st))
                                 (CacheStats.hitCount (stats st))
                                 (S (CacheStats.evictionCount (stats st)))) st
    end.

Definition countMiss (st : State) : State :=
  set_stats (CacheStats.mk (CacheStats.totalEntries (stats st))
                           (S (CacheStats.missCount (stats st)))
                           (CacheStats.hitCount (stats st))
                           (CacheStats.evictionCount (stats st))) st.

Definition countHit (st : State) : State :=
  set_stats (CacheStats.mk (CacheStats.totalEntries (stats st))
                           (CacheStats.missCount (stats st))
                           (S (CacheStats.hitCount (stats st)))
                           (CacheStats.evictionCount (stats st))) st.

Definition setTotalEntries (st : State) : State :=
  set_stats (CacheStats.mk (JsMap.size (cache st))
                           (CacheStats.missCount (stats st))
                           (CacheStats.hitCount (stats st))
                           (CacheStats.evictionCount (stats st))) st.

(** [get]: [None] is [null]. *)
Definition get (w : World) (className methodName : string) (st : State)
  : option CacheEntry.t * State :=
  let key := getCacheKey className methodName in
  match JsMap.get key (cache st) with
  | None => (None, countMiss st)
  | Some entry =>
      let (now, st) := Date_now w st in
      if (CacheConfig.expiryMs (cacheConfig st) <? now - CacheEntry.timestamp entry)%Z
      then (None, countMiss (set_cache (JsMap.delete key (cache st)) st))
      else
        let entry := CacheEntry.touch entry in
        (Some entry, countHit (set_cache (JsMap.set key entry (cache st)) st))
  end.

Definition set (w : World) (className methodName : string) (analysis : ref)
  (st : State) : State :=
  let key := getCacheKey className methodName in
  let st := evictOldest st in
  let (now, st) := Date_now w st in
  let entry :=
    CacheEntry.mk key analysis now 0
                  (MethodAnalysis.contentHash (deref analysis st)) in
  setTotalEntries (set_cache (JsMap.set key entry (cache st)) st).

End InMemoryMethodCache.

(* ================================================================== *)
(** * persistentCache.ts: PersistentAnalysisCache

    The methods act on the [entries] of the durable cache.  [saveCache]
    writes the same entries to the cache file and swallows every failure;
    the file is not part of the state. *)
(* ================================================================== *)

Module PersistentAnalysisCache.

Definition CACHE_VERSION : string := "1.0.0".
Definition MAX_CACHE_AGE_MS : Z := 30 * 24 * 60 * 60 * 1000.
Definition MAX_CACHE_ENTRIES : nat := 1000.

Definition entries := JsMap.t PersistentCacheEntry.t.

Definition getCacheKey (className methodName : string) : string :=
  className ++ "#" ++ methodName.

Definition calculateContentHash (w : World) (content : string) : string :=
  sha256 w content.

(** [get] on the entries [es]; the clock is read only when the age is
    checked. *)
Definition get (w : World) (className methodName fileContent modelName : string)
  (es : entries) (st : State) : option ref * entries * State :=
  let key := getCacheKey className methodName in
  match JsMap.get key es with
  | None => (None, es, st)
  | Some entry =>
      let contentHash := calculateContentHash w fileContent in
      if negb (String.eqb (PersistentCacheEntry.contentHash entry) contentHash)
      then (None, JsMap.delete key es, st)
      else if negb (String.eqb (PersistentCacheEntry.modelName entry) modelName)
      then (None, JsMap.delete key es, st)
      else
        let (now, st) := Date_now w st in
        let age := (now - PersistentCacheEntry.timestamp entry)%Z in
        if (MAX_CACHE_AGE_MS <? age)%Z
        then (None, JsMap.delete key es, st)
        else (Some (PersistentCacheEntry.analysis entry), es, st)
  end.

(** [Array.prototype.sort] with the comparator
    [(a, b) => a.timestamp - b.timestamp]: a stable sort. *)
Fixpoint insertByTimestamp (x : string * PersistentCacheEntry.t)
  (l : entries) : entries :=
  match l with
  | [] => [x]
  | y :: l' =>
      if (PersistentCacheEntry.timestamp (snd x)
          <=? PersistentCacheEntry.timestamp (snd y))%Z
      then x :: y :: l'
      else y :: insertByTimestamp x l'
  end.

Definition sortByTimestamp (l : entries) : entries :=
  fold_right insertByTimestamp [] l.

Definition deleteKeys (keys : list string) (es : entries) : entries :=
  fold_left (fun m k => JsMap.delete k m) keys es.

Definition cleanupCache (w : World) (es : entries) (st : State)
  : entries * State :=
  let (now, st) := Date_now w st in
  let es :=
    filter (fun kv =>
              negb (MAX_CACHE_AGE_MS
                    <? now - PersistentCacheEntry.timestamp (snd kv))%Z)
           es in
  if (MAX_CACHE_ENTRIES <? JsMap.size es)%nat
  then
    let sortedEntries := sortByTimestamp es in
    let excessCount := JsMap.size es - MAX_CACHE_ENTRIES in
    (deleteKeys (map fst (firstn excessCount sortedEntries)) es, st)
  else (es, st).

Definition set (w : World)
  (className methodName : string) (analysis : ref)
  (fileContent filePath modelName : string)
  (es : entries) (st : State) : entries * State :=
  let key := getCacheKey className methodName in
  let contentHash := calculateContentHash w fileContent in
  let (now, st) := Date_now w st in
  let entry :=
    PersistentCacheEntry.mk analysis contentHash modelName now filePath
                            CACHE_VERSION in
  cleanupCache w (JsMap.set key entry es) st.

End PersistentAnalysisCache.

(* ================================================================== *)
(** * Computations that may throw

    [M A] is a computation on the state that returns an [A] or throws.
    The recursion between [performMethodAnalysis] and
    [followLLMSuggestions] has no bound in the source, so it runs on fuel:
    [None] means that the fuel given was not enough. *)
(* ================================================================== *)

Definition M (A : Type) : Type := State -> option (res A * State).

Definition ret {A : Type} (a : A) : M A := fun st => Some (Ok a, st).

Definition throw {A : Type} (e : exn) : M A := fun st => Some (Raise e, st).

Definition bind {A B : Type} (m : M A) (k : A -> M B) : M B := fun st =>
  match m st with
  | None => None
  | Some (Ok a, st') => k a st'
  | Some (Raise e, st') => Some (Raise e, st')
  end.

(** [try { m } catch (e) { h e }] *)
Definition tryCatch {A : Type} (m : M A) (h : exn -> M A) : M A := fun st =>
  match m st with
  | None => None
  | Some (Ok a, st') => Some (Ok a, st')
  | Some (Raise e, st') => h e st'
  end.

Definition lift {A : Type} (f : State -> A * State) : M A := fun st =>
  let (a, st') := f st in Some (Ok a, st').

Definition modify (f : State -> State) : M unit := fun st =>
  Some (Ok tt, f st).

Definition gets {A : Type} (f : State -> A) : M A := fun st =>
  Some (Ok (f st), st).

Definition ofRes {A : Type} (r : res A) : M A :=
  match r with
  | Ok a => ret a
  | Raise e => throw e
  end.

Definition outOfFuel {A : Type} : M A := fun _ => None.

Declare Scope monad_scope.
Delimit Scope monad_scope with monad.
Notation "x <- m ;; k" := (bind m (fun x => k))
  (at level 61, m at next level, right associativity) : monad_scope.
Notation "m ;; k" := (bind m (fun _ => k))
  (at level 61, right associativity) : monad_scope.
Local Open Scope monad_scope.

(* ================================================================== *)
(** * analyzer.ts: CodeFlowAnalyzer *)
(* ================================================================== *)

Section Analyzer.

Variable w : World.

(** [FlowAnalysisError] extends [Error]; only its message is read. *)
Definition getFileInfo (className : string) : M FileInfo.t :=
  files <- ofRes (findClassOrSymbol w className) ;;
  match files with
  | [] => throw (JsError ("Class " ++ className ++ " not found in workspace"))
  | fileUri :: _ =>
      content <- ofRes (readFileContent w fileUri) ;;
      let language := detectLanguage fileUri in
      now <- lift (Date_now w) ;;
      ret (FileInfo.mk className fileUri content language
                       (generateContentHash w content) now)
  end.

Definition getModelDisplayName (model : LanguageModelChat.t) : string :=
  Js.orElse (LanguageModelChat.name model)
    (Js.orElse (LanguageModelChat.id model)
       (Js.orElse (LanguageModelChat.family model) "GitHub Copilot Model")).

Definition selectLanguageModel : M LanguageModelChat.t :=
  selected <- gets selectedModel ;;
  match selected with
  | Some model => ret model
  | None =>
      models <- ofRes (selectChatModels w) ;;
      match models with
      | [] => throw (JsError "No GitHub Copilot models available")
      | [model] =>
          modify (set_selectedModel (Some model)) ;;
          ret model
      | first :: _ =>
          selectedItem <- ofRes (showQuickPick w models) ;;
          let model :=
            match selectedItem with Some m => m | None => first end in
          modify (set_selectedModel (Some model)) ;;
          ret model
      end
  end.

(** The request to the model raced against the timer, and the reply
    collected from its fragments. *)
Definition askOracle (model : LanguageModelChat.t)
  (request : OracleRequest.t) (timeoutMs : Z) : M string :=
  log <- gets oracleLog ;;
  modify (set_oracleLog (log ++ [request])%list) ;;
  match sendRequest w log model request timeoutMs with
  | Streams text => ret text
  | Rejects e => throw e
  | TimesOut => throw (JsError "Analysis timeout")
  end.

(** [followLLMSuggestions], given [performMethodAnalysis] for its
    recursive calls.  The result [None] is [null]. *)
Section FollowLLMSuggestions.

Variable performMethodAnalysis :
  string -> string -> FileInfo.t -> AnalysisConfig.t -> M ref.

Variables (originalClassName methodName : string).
Variable config : AnalysisConfig.t.

(** The [for] loop over the suggestions. *)
Fixpoint trySuggestions (suggestions : list Suggestion.t) : M (option ref) :=
  match suggestions with
  | [] => ret None
  | suggestion :: rest =>
      found <-
        tryCatch
          (suggestedFileInfo <- getFileInfo (Suggestion.className suggestion) ;;
           analysis <-
             performMethodAnalysis (Suggestion.className suggestion)
               methodName suggestedFileInfo config ;;
           status <- gets (fun st =>
                             MethodAnalysis.analysisStatus (deref analysis st)) ;;
           if AnalysisStatus.eqb status AnalysisStatus.complete then
             modify (mutate analysis
                       (MethodAnalysis.withAttribution
                          (Suggestion.className suggestion)
                          originalClassName)) ;;
             ret (Some analysis)
           else ret None)
          (fun _ => ret None) ;;
      match found with
      | Some analysis => ret (Some analysis)
      | None => trySuggestions rest
      end
  end.

Definition followLLMSuggestions (llmResponse : string)
  (originalFileInfo : FileInfo.t) : M (option ref) :=
  let suggestions := extractLLMSuggestions llmResponse in
  match suggestions with
  | [] => ret None
  | _ => trySuggestions suggestions
  end.

End FollowLLMSuggestions.

(** [performMethodAnalysis]; [fuel] bounds the nesting of suggestion
    following. *)
Fixpoint performMethodAnalysis (fuel : nat) (className methodName : string)
  (fileInfo : FileInfo.t) (config : AnalysisConfig.t) : M ref :=
  match fuel with
  | O => outOfFuel
  | S fuel' =>
      model <- selectLanguageModel ;;
      responseText <-
        askOracle model
          (OracleRequest.mk className methodName (FileInfo.content fileInfo)
                            (FileInfo.language fileInfo))
          (AnalysisConfig.maxAnalysisTimeMs config) ;;
      let parsed :=
        parseLLMResponse responseText className methodName
                         (FileInfo.language fileInfo) in
      suggestedAnalysis <-
        (if AnalysisStatus.eqb (ParsedMethodAnalysis.analysisStatus parsed)
                            AnalysisStatus.error
            && isMethodNotFoundResponse responseText
         then followLLMSuggestions (performMethodAnalysis fuel')
                className methodName config responseText fileInfo
         else ret None) ;;
      match suggestedAnalysis with
      | Some analysis => ret analysis
      | None =>
          now <- lift (Date_now w) ;;
          lift (alloc
                  (MethodAnalysis.mk className methodName
                     (FileInfo.language fileInfo)
                     (ParsedMethodAnalysis.analysisStatus parsed)
                     (ParsedMethodAnalysis.executionBlocks parsed)
                     (buildMethodCallSummary
                        (ParsedMethodAnalysis.methodCalls parsed))
                     now EmptyString (ParsedMethodAnalysis.errorMessage parsed) None))
      end
  end.

(** The body of the [try] of [analyzeMethod]. *)
Definition analyzeMethodTry (fuel : nat) (className methodName : string)
  (finalConfig : AnalysisConfig.t) (startTime : Z) : M ref :=
  fileInfo <- getFileInfo className ;;
  persistentCached <-
    (fun st =>
       match persistentCache st, selectedModel st with
       | Some es, Some model =>
           let modelName := getModelDisplayName model in
           let '(hit, es, st) :=
             PersistentAnalysisCache.get w className methodName
               (FileInfo.content fileInfo) modelName es st in
           Some (Ok hit, set_persistentCache (Some es) st)
       | _, _ => Some (Ok None, st)
       end) ;;
  match persistentCached with
  | Some analysis =>
      modify (InMemoryMethodCache.set w className methodName analysis) ;;
      ret analysis
  | None =>
      analysis <-
        performMethodAnalysis fuel className methodName fileInfo finalConfig ;;
      modify (mutate analysis
                (MethodAnalysis.withCacheStamp
                   (generateContentHash w (FileInfo.content fileInfo))
                   startTime)) ;;
      modify (InMemoryMethodCache.set w className methodName analysis) ;;
      modify (fun st =>
                match persistentCache st, selectedModel st with
                | Some es, Some model =>
                    if AnalysisStatus.eqb
                         (MethodAnalysis.analysisStatus (deref analysis st))
                         AnalysisStatus.complete
                    then
                      let modelName := getModelDisplayName model in
                      let (es, st) :=
                        PersistentAnalysisCache.set w className methodName
                          analysis (FileInfo.content fileInfo)
                          (FileInfo.filePath fileInfo) modelName es st in
                      set_persistentCache (Some es) st
                    else st
                | _, _ => st
                end) ;;
      ret analysis
  end.

(** The analysis built in the [catch] of [analyzeMethod]. *)
Definition errorAnalysis (className methodName : string) (startTime : Z)
  (e : exn) : MethodAnalysis.t :=
  MethodAnalysis.mk className methodName "unknown" AnalysisStatus.error []
    MethodCallSummary.empty startTime EmptyString (Some (messageOf e)) None.

(** [analyzeMethod]: it returns a reference to the analysis, and never
    throws; [None] only when [fuel] runs out. *)
Definition analyzeMethod (fuel : nat) (className methodName : string)
  (config : AnalysisConfig.partial) (st : State) : option (ref * State) :=
  let finalConfig := AnalysisConfig.spread ANALYSIS_CONFIG config in
  let (cached, st) := InMemoryMethodCache.get w className methodName st in
  match cached with
  | Some entry => Some (CacheEntry.analysis entry, st)
  | None =>
      let (startTime, st) := Date_now w st in
      match analyzeMethodTry fuel className methodName finalConfig startTime st with
      | None => None
      | Some (Ok analysis, st) => Some (analysis, st)
      | Some (Raise e, st) =>
          let (analysis, st) :=
            alloc (errorAnalysis className methodName startTime e) st in
          Some (analysis, InMemoryMethodCache.set w className methodName analysis st)
      end
  end.

End Analyzer.

(* ================================================================== *)
(** * CodeFlowAnalyzer: the recursion controller and the linear flow *)
(* ================================================================== *)

Section Controller.

Variable w : World.

Definition createPlaceholderAnalysis (className methodName : string)
  (status : AnalysisStatus.t) (reason : string) (st : State) : ref * State :=
  let (now, st) := Date_now w st in
  alloc
    (MethodAnalysis.mk className methodName "unknown" status
       [ ExecutionBlock.mk "placeholder-1" "methodCall"
           ("Method analysis skipped: " ++ reason)
           ("This method was not analyzed due to: " ++ reason)
           [] [] ]
       MethodCallSummary.empty now EmptyString (Some reason) None)
    st.

Definition createSession (sessionId className methodName : string)
  (config : AnalysisConfig.partial) (st : State)
  : AnalysisSession.t * State :=
  let finalConfig := AnalysisConfig.spread ANALYSIS_CONFIG config in
  let (now, st) := Date_now w st in
  (AnalysisSession.mk sessionId now finalConfig [] JsSet.empty 0 false
                      (className, methodName),
   st).

Definition initializeLinearFlow (rootClassName rootMethodName : string)
  (st : State) : State :=
  set_linearFlow
    (Some (LinearExecutionFlow.mk [] JsMap.empty 0
             (rootClassName ++ "." ++ rootMethodName)))
    st.

(** [steps.push({ stepNumber: ++currentStepNumber, ... })] on the pair of
    the steps and [currentStepNumber]. *)
Definition pushStep (depth : nat) (sourceMethod description : string)
  (stepType : LinearStepType.t) (originalBlockId : option string)
  (acc : list LinearExecutionStep.t * nat)
  : list LinearExecutionStep.t * nat :=
  let currentStepNumber := S (snd acc) in
  ((fst acc ++
      [LinearExecutionStep.mk currentStepNumber depth sourceMethod
         description stepType originalBlockId])%list,
   currentStepNumber).

Definition callDescription (methodCall : MethodCall.t) : string :=
  let target :=
    MethodCall.className methodCall ++ "." ++ MethodCall.methodName methodCall
    ++ "(" ++ MethodCall.parameters methodCall ++ ")" in
  match MethodCall.stepInDecision methodCall with
  | StepInDecision.stepInto => "Call " ++ target
  | StepInDecision.objectLookup =>
      "Data access: " ++ target ++ " - " ++ MethodCall.expectedBehavior methodCall
  | _ =>
      "External call: " ++ target ++ " - "
      ++ MethodCall.expectedBehavior methodCall
  end.

(** The steps of one block: its [execution] step, then one [methodCall]
    step per call. *)
Definition pushBlock (depth : nat) (methodKey : string)
  (acc : list LinearExecutionStep.t * nat) (block : ExecutionBlock.t)
  : list LinearExecutionStep.t * nat :=
  fold_left
    (fun acc methodCall =>
       pushStep depth methodKey (callDescription methodCall)
                LinearStepType.methodCall None acc)
    (ExecutionBlock.methodCalls block)
    (pushStep depth methodKey (ExecutionBlock.description block)
              LinearStepType.execution
              (Some (ExecutionBlock.blockId block)) acc).

Definition addMethodToLinearFlow (analysis : ref) (depth : nat) (st : State)
  : State :=
  match linearFlow st with
  | None => st
  | Some flow =>
      let a := deref analysis st in
      let methodKey :=
        MethodAnalysis.className a ++ "." ++ MethodAnalysis.methodName a in
      if JsMap.has methodKey (LinearExecutionFlow.methodReferences flow)
      then st
      else
        let methodReferences :=
          JsMap.set methodKey analysis
                    (LinearExecutionFlow.methodReferences flow) in
        let acc :=
          (LinearExecutionFlow.steps flow, LinearExecutionFlow.totalSteps flow) in
        let acc :=
          pushStep depth methodKey
            (MethodAnalysis.className a ++ "." ++ MethodAnalysis.methodName a
             ++ "() starts")
            LinearStepType.methodStart None acc in
        let acc :=
          fold_left (pushBlock depth methodKey)
                    (MethodAnalysis.executionBlocks a) acc in
        let acc :=
          pushStep depth methodKey
            (MethodAnalysis.className a ++ "." ++ MethodAnalysis.methodName a
             ++ "() completes")
            LinearStepType.methodEnd None acc in
        set_linearFlow
          (Some (LinearExecutionFlow.mk (fst acc) methodReferences (snd acc)
                   (LinearExecutionFlow.rootMethod flow)))
          st
  end.

(** The [methodReturn] step [processMethodCallsRecursively] adds after a
    complete inner analysis. *)
Definition addReturnStep (analysis : ref) (methodCall : MethodCall.t)
  (innerAnalysis : ref) (depth : nat) (st : State) : State :=
  match linearFlow st with
  | None => st
  | Some flow =>
      if AnalysisStatus.eqb
           (MethodAnalysis.analysisStatus (deref innerAnalysis st))
           AnalysisStatus.complete
      then
        let a := deref analysis st in
        let acc :=
          pushStep depth
            (MethodAnalysis.className a ++ "." ++ MethodAnalysis.methodName a)
            (Js.return_arrow ++ " " ++ MethodCall.className methodCall ++ "."
             ++ MethodCall.methodName methodCall ++ "() returns: "
             ++ extractExpectedBehavior (deref innerAnalysis st))
            LinearStepType.methodReturn None
            ([] , LinearExecutionFlow.totalSteps flow) in
        set_linearFlow
          (Some (LinearExecutionFlow.mk
                   (LinearExecutionFlow.steps flow ++ fst acc)%list
                   (LinearExecutionFlow.methodReferences flow)
                   (snd acc)
                   (LinearExecutionFlow.rootMethod flow)))
          st
      else st
  end.

Definition sameTarget (methodCall call : MethodCall.t) : bool :=
  String.eqb (MethodCall.className call) (MethodCall.className methodCall)
  && String.eqb (MethodCall.methodName call) (MethodCall.methodName methodCall).

(** [relevantCall.expectedBehavior = behavior] for the first call of the
    list that [p] accepts. *)
Fixpoint updateFirstCall (p : MethodCall.t -> bool) (behavior : string)
  (calls : list MethodCall.t) : list MethodCall.t :=
  match calls with
  | [] => []
  | call :: rest =>
      if p call then MethodCall.withExpectedBehavior behavior call :: rest
      else call :: updateFirstCall p behavior rest
  end.

(** The loop of [integrateInnerAnalysis] over the blocks, which stops at the
    first block that has a call to the same target. *)
Fixpoint updateFirstBlock (p : MethodCall.t -> bool) (behavior : string)
  (blocks : list ExecutionBlock.t) : list ExecutionBlock.t :=
  match blocks with
  | [] => []
  | block :: rest =>
      if existsb p (ExecutionBlock.methodCalls block)
      then ExecutionBlock.withMethodCalls
             (updateFirstCall p behavior (ExecutionBlock.methodCalls block))
             block :: rest
      else block :: updateFirstBlock p behavior rest
  end.

(** The calls of the summary are the very objects of the blocks; the only
    field written after their creation is [expectedBehavior], which the
    analyzer reads through the blocks only, and the blocks are what is
    updated here. *)
Definition integrateInnerAnalysis (mainAnalysis : ref)
  (methodCall : MethodCall.t) (innerAnalysis : ref) (st : State) : State :=
  let st :=
    match linearFlow st with
    | None => st
    | Some flow =>
        let inner := deref innerAnalysis st in
        let innerMethodKey :=
          MethodAnalysis.className inner ++ "."
          ++ MethodAnalysis.methodName inner in
        set_linearFlow
          (Some (LinearExecutionFlow.mk
                   (LinearExecutionFlow.steps flow)
                   (JsMap.set innerMethodKey innerAnalysis
                              (LinearExecutionFlow.methodReferences flow))
                   (LinearExecutionFlow.totalSteps flow)
                   (LinearExecutionFlow.rootMethod flow)))
          st
    end in
  let behavior := extractExpectedBehavior (deref innerAnalysis st) in
  mutate mainAnalysis
    (fun a =>
       MethodAnalysis.withExecutionBlocks
         (updateFirstBlock (sameTarget methodCall) behavior
                           (MethodAnalysis.executionBlocks a))
         a)
    st.

(** The result of a request to the controller: the analysis, the session
    and the state after it. *)
Definition outcome : Type := ref * AnalysisSession.t * State.

(** The loop of [processMethodCallsRecursively] over the calls to step
    into, given [analyzeMethodRecursively] for the inner requests.  Nothing
    in the body of its [try] throws, so its [catch] is never entered. *)
Fixpoint processMethodCalls
  (analyzeMethodRecursively :
     string -> string -> AnalysisSession.t -> nat -> State -> option outcome)
  (analysis : ref) (depth : nat) (stepIntoMethods : list MethodCall.t)
  (session : AnalysisSession.t) (st : State)
  : option (AnalysisSession.t * State) :=
  match stepIntoMethods with
  | [] => Some (session, st)
  | methodCall :: rest =>
      match analyzeMethodRecursively (MethodCall.className methodCall)
              (MethodCall.methodName methodCall) session (depth + 1) st with
      | None => None
      | Some (innerAnalysis, session, st) =>
          let st := addReturnStep analysis methodCall innerAnalysis depth st in
          let st := integrateInnerAnalysis analysis methodCall innerAnalysis st in
          processMethodCalls analyzeMethodRecursively analysis depth rest
                             session st
      end
  end.

Definition processMethodCallsRecursively
  (analyzeMethodRecursively :
     string -> string -> AnalysisSession.t -> nat -> State -> option outcome)
  (analysis : ref) (session : AnalysisSession.t) (depth : nat) (st : State)
  : option (AnalysisSession.t * State) :=
  let stepIntoMethods :=
    MethodCallSummary.stepInto
      (MethodAnalysis.methodCallSummary (deref analysis st)) in
  processMethodCalls analyzeMethodRecursively analysis depth stepIntoMethods
                     session st.

(** The session once a method is marked as being analyzed and its frame is
    on the call stack. *)
Definition enter (className methodName : string) (depth : nat)
  (session : AnalysisSession.t) : AnalysisSession.t :=
  let methodKey := className ++ "#" ++ methodName in
  AnalysisSession.mk
    (AnalysisSession.sessionId session)
    (AnalysisSession.startTime session)
    (AnalysisSession.config session)
    (AnalysisSession.callStack session
     ++ [CallStackEntry.mk className methodName None depth false])%list
    (JsSet.add methodKey (AnalysisSession.analyzedMethods session))
    (S (AnalysisSession.totalMethodsAnalyzed session))
    (AnalysisSession.isComplete session)
    (AnalysisSession.rootMethod session).

(** [session.callStack.pop()] *)
Definition leave (session : AnalysisSession.t) : AnalysisSession.t :=
  AnalysisSession.mk
    (AnalysisSession.sessionId session)
    (AnalysisSession.startTime session)
    (AnalysisSession.config session)
    (removelast (AnalysisSession.callStack session))
    (AnalysisSession.analyzedMethods session)
    (AnalysisSession.totalMethodsAnalyzed session)
    (AnalysisSession.isComplete session)
    (AnalysisSession.rootMethod session).

(** The root of the linear flow follows an analysis found in another
    class. *)
Definition updateRootMethod (analysis : ref) (depth : nat) (st : State)
  : State :=
  match depth, linearFlow st, MethodAnalysis.inheritedFrom (deref analysis st) with
  | O, Some flow, Some _ =>
      let a := deref analysis st in
      set_linearFlow
        (Some (LinearExecutionFlow.mk
                 (LinearExecutionFlow.steps flow)
                 (LinearExecutionFlow.methodReferences flow)
                 (LinearExecutionFlow.totalSteps flow)
                 (MethodAnalysis.className a ++ "."
                  ++ MethodAnalysis.methodName a)))
        st
  | _, _, _ => st
  end.

(** [analyzeMethodRecursively].  [fuel] bounds the nesting of the requests
    and [sfuel] is the fuel of each [analyzeMethod].  [analyzeMethod] never
    throws and the rest of the [try] neither, so the [catch] is never
    entered; the [finally] is [leave]. *)
Fixpoint analyzeMethodRecursively (fuel sfuel : nat)
  (className methodName : string) (session : AnalysisSession.t)
  (depth : nat) (st : State) {struct fuel} : option outcome :=
  match fuel with
  | O => None
  | S fuel' =>
      let methodKey := className ++ "#" ++ methodName in
      let config := AnalysisSession.config session in
      if (AnalysisConfig.maxCallStackDepth config <=? depth)%nat then
        let (placeholder, st) :=
          createPlaceholderAnalysis className methodName AnalysisStatus.partial
            "Maximum recursion depth reached" st in
        Some (placeholder, session, st)
      else if JsSet.has methodKey (AnalysisSession.analyzedMethods session) then
        let (cached, st) := InMemoryMethodCache.get w className methodName st in
        match cached with
        | Some entry => Some (CacheEntry.analysis entry, session, st)
        | None =>
            let (placeholder, st) :=
              createPlaceholderAnalysis className methodName AnalysisStatus.partial
                "Circular dependency detected" st in
            Some (placeholder, session, st)
        end
      else if (AnalysisConfig.maxTotalMethods config
               <=? AnalysisSession.totalMethodsAnalyzed session)%nat then
        let (placeholder, st) :=
          createPlaceholderAnalysis className methodName AnalysisStatus.partial
            "Maximum method count reached" st in
        Some (placeholder, session, st)
      else if negb (isValidIdentifier className)
              || negb (isValidIdentifier methodName) then
        let (placeholder, st) :=
          createPlaceholderAnalysis className methodName AnalysisStatus.error
            "Invalid class or method name" st in
        Some (placeholder, session, st)
      else
        let session := enter className methodName depth session in
        match analyzeMethod w sfuel className methodName
                (AnalysisConfig.full config) st with
        | None => None
        | Some (analysis, st) =>
            let st := updateRootMethod analysis depth st in
            let isComplete st :=
              AnalysisStatus.eqb
                (MethodAnalysis.analysisStatus (deref analysis st))
                AnalysisStatus.complete in
            let st :=
              if isComplete st then addMethodToLinearFlow analysis depth st
              else st in
            match
              (if isComplete st
               then processMethodCallsRecursively
                      (analyzeMethodRecursively fuel' sfuel)
                      analysis session depth st
               else Some (session, st))
            with
            | None => None
            | Some (session, st) => Some (analysis, leave session, st)
            end
        end
  end.

(** [analyzeMethodFlow] with [runRecursiveFlowAnalysis], up to the analysis
    of the root: the session is created, the start time is read, the linear
    flow is initialized and the root method is analyzed at depth 0.  The
    text of the report, made from the result, is left out. *)
Definition analyzeMethodFlow (fuel sfuel : nat)
  (className methodName : string) (config : AnalysisConfig.partial)
  (st : State) : option outcome :=
  let (now, st) := Date_now w st in
  let sessionId := "flow-" ++ Js.natToString (Z.to_nat now) in
  let (session, st) := createSession sessionId className methodName config st in
  let (startTime, st) := Date_now w st in
  let st := initializeLinearFlow className methodName st in
  analyzeMethodRecursively fuel sfuel className methodName session 0 st.

End Controller.

(* ================================================================== *)
(** * Scenarios

    Concrete worlds on which the analyzer is run: a workspace where every
    class has a source file, one language model, and an oracle that answers
    in the format the parser reads. *)
(* ================================================================== *)

Module Scenario.

Definition gpt : LanguageModelChat.t :=
  LanguageModelChat.mk "GPT-4o" "gpt-4o" "gpt-4o" "copilot".

Definition pathOf (className : string) : string :=
  "/ws/src/" ++ className ++ ".java".

(** The lines of one call the oracle cites, classified as [Step Into]. *)
Definition stepIntoCall (target : string) : string :=
  "- **Call**: `" ++ target ++ "`" ++ Js.nl
  ++ "  - **Classification**: Step Into (application code)" ++ Js.nl.

(** The reply of the oracle for a method it found: one block that makes
    the calls [targets]. *)
Definition found (className methodName : string) (targets : list string)
  : string :=
  "## Method Analysis: " ++ className ++ "." ++ methodName ++ "()" ++ Js.nl
  ++ Js.nl
  ++ "### Execution Blocks:" ++ Js.nl
  ++ Js.nl
  ++ "#### Block 1: Delegate the work" ++ Js.nl
  ++ "**Type**: methodCall" ++ Js.nl
  ++ "**Description**: Hands the request over." ++ Js.nl
  ++ Js.nl
  ++ "**Execution Flow**:" ++ Js.nl
  ++ "Runs the calls in order." ++ Js.nl
  ++ Js.nl
  ++ "**Method Calls**:" ++ Js.nl
  ++ String.concat EmptyString (map stepIntoCall targets).

(** The reply of the oracle for a method it did not find, naming the
    parent class. *)
Definition missing (className methodName parent : string) : string :=
  "## Method Analysis: " ++ className ++ "." ++ methodName ++ "()" ++ Js.nl
  ++ Js.nl
  ++ "### Method Not Found" ++ Js.nl
  ++ Js.nl
  ++ Js.cross_mark ++ " **Method `" ++ methodName
  ++ "` not found in class `" ++ className ++ "`**" ++ Js.nl
  ++ Js.nl
  ++ "#### Check Parent Classes:" ++ Js.nl
  ++ "- **Extends**: `" ++ parent ++ "` - Look for " ++ methodName
  ++ " in this parent class" ++ Js.nl.

(** A world around an oracle that answers by the class asked about; the
    text of a class is [source className]. *)
Definition worldOf (time : nat -> Z) (source : string -> string)
  (oracle : string -> string -> string) : World :=
  mkWorld time
          (fun s => "md5:" ++ s)
          (fun s => "sha256:" ++ s)
          (fun className => Ok [pathOf className])
          (fun path => Ok (source path))
          (Ok [gpt])
          (fun _ => Ok None)
          (fun _ _ request _ =>
             Streams (oracle (OracleRequest.className request)
                             (OracleRequest.methodName request))).

Definition still : nat -> Z := fun _ => 0%Z.

Definition sourceV1 (path : string) : string := "// first version of " ++ path.
Definition sourceV2 (path : string) : string := "// second version of " ++ path.

(** What the oracle answers about a method that makes no call. *)
Definition leafReply : string := found "Leaf" "run" [].

(** The chain [A.f -> B.g -> C.h -> D.k]. *)
Definition chainOracle (className methodName : string) : string :=
  if String.eqb className "A" then found "A" "f" ["B.g()"]
  else if String.eqb className "B" then found "B" "g" ["C.h()"]
  else if String.eqb className "C" then found "C" "h" ["D.k()"]
  else found "D" "k" [].

Definition chain : World := worldOf still sourceV1 chainOracle.

(** [A.f] calls itself. *)
Definition selfCallOracle (className methodName : string) : string :=
  if String.eqb className "A" then found "A" "f" ["A.f()"]
  else leafReply.

Definition selfCall : World := worldOf still sourceV1 selfCallOracle.



(** [Child extends Base], and [run] is defined on [Base] only. *)
Definition inheritanceOracle (className methodName : string) : string :=
  if String.eqb className "Child" then missing "Child" "run" "Base"
  else found "Base" "run" [].

Definition inheritance : World := worldOf still sourceV1 inheritanceOracle.

(** A method without calls, in the first and in the second version of the
    sources. *)
Definition leafOracle (className methodName : string) : string := leafReply.

Definition leaf : World := worldOf still sourceV1 leafOracle.
Definition leafEdited : World := worldOf still sourceV2 leafOracle.

(** The same, when the clock has moved on by more than five minutes at its
    fifth read. *)
Definition late : nat -> Z := fun n => if (n <? 4)%nat then 0%Z else 300001%Z.
Definition leafLate : World := worldOf late sourceV1 leafOracle.

(** A workspace without sources: the search throws, as workspaceSearch.ts
    does when it finds no source file. *)
Definition noSources : World :=
  mkWorld still
          (fun s => "md5:" ++ s)
          (fun s => "sha256:" ++ s)
          (fun className =>
             Raise (JsError ("Class/symbol '" ++ className
                             ++ "' not found in workspace. Searched for source files but only found compiled/binary versions in build directories.")))
          (fun path => Ok (sourceV1 path))
          (Ok [gpt])
          (fun _ => Ok None)
          (fun _ _ request _ => Streams (leafOracle EmptyString EmptyString)).



(** A fresh analyzer: empty caches, no model selected yet; [durable] tells
    whether it has a durable cache. *)
Definition fresh (durable : bool) : State :=
  mkState JsMap.empty CacheStats.zero defaultCacheConfig
          (if durable then Some JsMap.empty else None)
          None None [] 0 [].

(** The same, once the model has been selected. *)
Definition ready (durable : bool) : State :=
  set_selectedModel (Some gpt) (fresh durable).

Definition withMaxDepth (n : nat) : AnalysisConfig.partial :=
  AnalysisConfig.mkPartial (Some n) None None None None None.


(** In [selfCall]: the session of the analysis of [A.f] once [A.f] is
    entered, and the analyzer once [A.f] itself is analyzed; this is where
    the call of [A.f] to itself is requested, at depth 1. *)
Definition entered (config : AnalysisConfig.partial) : AnalysisSession.t :=
  enter "A" "f" 0
        (fst (createSession selfCall "flow-0" "A" "f" config (fresh false))).

Definition analyzed : State :=
  match analyzeMethod selfCall 1 "A" "f" AnalysisConfig.none (fresh false) with
  | Some (_, st) => st
  | None => fresh false
  end.


(** What a run shows: for each object of the store, the method, the status
    and the error message. *)
Definition digest (st : State)
  : list (string * string * AnalysisStatus.t * option string) :=
  map (fun a => (MethodAnalysis.className a, MethodAnalysis.methodName a,
                 MethodAnalysis.analysisStatus a,
                 MethodAnalysis.errorMessage a))
      (heap st).

(** The steps of the linear flow: number, depth, method and type. *)
Definition trace (st : State)
  : list (nat * nat * string * LinearStepType.t) :=
  match linearFlow st with
  | None => []
  | Some flow =>
      map (fun s => (LinearExecutionStep.stepNumber s,
                     LinearExecutionStep.depth s,
                     LinearExecutionStep.sourceMethod s,
                     LinearExecutionStep.stepType s))
          (LinearExecutionFlow.steps flow)
  end.

(** What a run shows: the requests the oracle received, as method keys. *)
Definition asked (st : State) : list string :=
  map (fun r => OracleRequest.className r ++ "#" ++ OracleRequest.methodName r)
      (oracleLog st).

End Scenario.


(* ================================================================== *)
(** * The vocabulary of the properties *)
(* ================================================================== *)

Definition isDecision (d : StepInDecision.t) (call : MethodCall.t) : bool :=
  StepInDecision.eqb (MethodCall.stepInDecision call) d.

Definition methodKeyOf (className methodName : string) : string :=
  className ++ "#" ++ methodName.

(** A placeholder analysis with the status and the reason given. *)
Definition isPlaceholder (status : AnalysisStatus.t) (reason : string)
  (className methodName : string) (a : MethodAnalysis.t) : Prop :=
  MethodAnalysis.className a = className
  /\ MethodAnalysis.methodName a = methodName
  /\ MethodAnalysis.analysisStatus a = status
  /\ MethodAnalysis.errorMessage a = Some reason
  /\ MethodAnalysis.methodCallSummary a = MethodCallSummary.empty.

(** The state a method is in after its own analysis: the root of the flow
    follows an inherited method, and the steps of a complete analysis are
    added to the flow. *)
Definition afterAnalysis (analysis : ref) (depth : nat) (st : State) : State :=
  let st := updateRootMethod analysis depth st in
  if AnalysisStatus.eqb (MethodAnalysis.analysisStatus (deref analysis st))
                        AnalysisStatus.complete
  then addMethodToLinearFlow analysis depth st
  else st.

Definition isCompleteIn (analysis : ref) (st : State) : bool :=
  AnalysisStatus.eqb (MethodAnalysis.analysisStatus (deref analysis st))
                     AnalysisStatus.complete.

(** The five ways a request can end. *)
Inductive requestCase (w : World) (fuel sfuel : nat)
  (className methodName : string) (session : AnalysisSession.t)
  (depth : nat) (st : State) : outcome -> Prop :=
| AtDepthLimit :
    AnalysisConfig.maxCallStackDepth (AnalysisSession.config session) <= depth ->
    requestCase w fuel sfuel className methodName session depth st
      (fst (createPlaceholderAnalysis w className methodName
              AnalysisStatus.partial "Maximum recursion depth reached" st),
       session,
       snd (createPlaceholderAnalysis w className methodName
              AnalysisStatus.partial "Maximum recursion depth reached" st))
| Visited (out : outcome) :
    depth < AnalysisConfig.maxCallStackDepth (AnalysisSession.config session) ->
    JsSet.has (methodKeyOf className methodName)
              (AnalysisSession.analyzedMethods session) = true ->
    match InMemoryMethodCache.get w className methodName st with
    | (Some entry, st1) => Some (CacheEntry.analysis entry, session, st1)
    | (None, st1) =>
        Some (fst (createPlaceholderAnalysis w className methodName
                     AnalysisStatus.partial "Circular dependency detected" st1),
              session,
              snd (createPlaceholderAnalysis w className methodName
                     AnalysisStatus.partial "Circular dependency detected" st1))
    end = Some out ->
    requestCase w fuel sfuel className methodName session depth st out
| OverBudget :
    depth < AnalysisConfig.maxCallStackDepth (AnalysisSession.config session) ->
    JsSet.has (methodKeyOf className methodName)
              (AnalysisSession.analyzedMethods session) = false ->
    AnalysisConfig.maxTotalMethods (AnalysisSession.config session)
      <= AnalysisSession.totalMethodsAnalyzed session ->
    requestCase w fuel sfuel className methodName session depth st
      (fst (createPlaceholderAnalysis w className methodName
              AnalysisStatus.partial "Maximum method count reached" st),
       session,
       snd (createPlaceholderAnalysis w className methodName
              AnalysisStatus.partial "Maximum method count reached" st))
| InvalidName :
    depth < AnalysisConfig.maxCallStackDepth (AnalysisSession.config session) ->
    JsSet.has (methodKeyOf className methodName)
              (AnalysisSession.analyzedMethods session) = false ->
    AnalysisSession.totalMethodsAnalyzed session
      < AnalysisConfig.maxTotalMethods (AnalysisSession.config session) ->
    isValidIdentifier className && isValidIdentifier methodName = false ->
    requestCase w fuel sfuel className methodName session depth st
      (fst (createPlaceholderAnalysis w className methodName
              AnalysisStatus.error "Invalid class or method name" st),
       session,
       snd (createPlaceholderAnalysis w className methodName
              AnalysisStatus.error "Invalid class or method name" st))
| Expanded (analysis : ref) (st1 : State) (session' : AnalysisSession.t)
    (st3 : State) :
    depth < AnalysisConfig.maxCallStackDepth (AnalysisSession.config session) ->
    JsSet.has (methodKeyOf className methodName)
              (AnalysisSession.analyzedMethods session) = false ->
    AnalysisSession.totalMethodsAnalyzed session
      < AnalysisConfig.maxTotalMethods (AnalysisSession.config session) ->
    isValidIdentifier className = true ->
    isValidIdentifier methodName = true ->
    analyzeMethod w sfuel className methodName
      (AnalysisConfig.full (AnalysisSession.config session)) st
    = Some (analysis, st1) ->
    (if isCompleteIn analysis (afterAnalysis analysis depth st1)
     then processMethodCallsRecursively
            (analyzeMethodRecursively w fuel sfuel)
            analysis (enter className methodName depth session)
            depth (afterAnalysis analysis depth st1)
     else Some (enter className methodName depth session,
                afterAnalysis analysis depth st1))
    = Some (session', st3) ->
    requestCase w fuel sfuel className methodName session depth st
      (analysis, leave session', st3).

(** [m] respects [R]: whenever [m] returns or throws, [R] relates the state
    before to the state after. *)
Definition respects (R : State -> State -> Prop) {A : Type} (m : M A) : Prop :=
  forall st r st', m st = Some (r, st') -> R st st'.


(** The session-tier entry [entry] is not expired at the next read of the
    clock of [w]. *)
Definition live (w : World) (st : State) (entry : CacheEntry.t) : Prop :=
  (clock w (ticks st) - CacheEntry.timestamp entry
   <= CacheConfig.expiryMs (cacheConfig st))%Z.

(** The durable tier has nothing for the method. *)
Definition durableMiss (className methodName : string) (st : State) : Prop :=
  match persistentCache st with
  | None => True
  | Some es =>
      JsMap.get (PersistentAnalysisCache.getCacheKey className methodName) es
      = None
  end.


(** What a request may do to the session: the configuration and the call
    stack are as before; methods are added to the visited set, each counted
    once; the count stays within the budget. *)
Record SessionStep (s s' : AnalysisSession.t) : Prop := mkSessionStep {
  step_config : AnalysisSession.config s' = AnalysisSession.config s;
  step_callStack : AnalysisSession.callStack s' = AnalysisSession.callStack s;
  step_visited :
    exists added,
      AnalysisSession.analyzedMethods s'
      = (AnalysisSession.analyzedMethods s ++ added)%list
      /\ AnalysisSession.totalMethodsAnalyzed s'
         = AnalysisSession.totalMethodsAnalyzed s + List.length added
      /\ (NoDup (AnalysisSession.analyzedMethods s) ->
          NoDup (AnalysisSession.analyzedMethods s'));
  step_budget :
    AnalysisSession.totalMethodsAnalyzed s
      <= AnalysisConfig.maxTotalMethods (AnalysisSession.config s) ->
    AnalysisSession.totalMethodsAnalyzed s'
      <= AnalysisConfig.maxTotalMethods (AnalysisSession.config s)
}.

(** [m] always returns or throws: it never runs out of fuel. *)
Definition terminates {A : Type} (m : M A) : Prop :=
  forall st, m st <> None.

(** With the fuel [sfuel], [analyzeMethod] returns in the world [w]. *)
Definition analyzeMethodReturns (w : World) (sfuel : nat) : Prop :=
  forall className methodName config st,
    analyzeMethod w sfuel className methodName config st <> None.

(** The oracle of [w] never reports a method as not found. *)
Definition oracleFindsAll (w : World) : Prop :=
  forall log model request timeoutMs,
    match sendRequest w log model request timeoutMs with
    | Streams text => isMethodNotFound text = false
    | _ => True
    end.



(** ** The linear flow *)

(** A [methodStart] or a [methodEnd] step. *)
Definition isBoundary (s : LinearExecutionStep.t) : bool :=
  match LinearExecutionStep.stepType s with
  | LinearStepType.methodStart | LinearStepType.methodEnd => true
  | _ => false
  end.

(** The steps of one method, as [addMethodToLinearFlow] emits them at depth
    [d]: its [methodStart], the steps of its blocks and calls, its
    [methodEnd]. *)
Definition Segment (d : nat) (key : string)
  (seg : list LinearExecutionStep.t) : Prop :=
  exists first mid last,
    seg = (first :: mid ++ [last])%list
    /\ LinearExecutionStep.stepType first = LinearStepType.methodStart
    /\ LinearExecutionStep.stepType last = LinearStepType.methodEnd
    /\ Forall (fun s => isBoundary s = false) mid
    /\ Forall (fun s => LinearExecutionStep.sourceMethod s = key
                        /\ LinearExecutionStep.depth s = d) seg.






(** The steps [added] are numbered from [S n] on. *)
Definition NumberedFrom (n : nat) (added : list LinearExecutionStep.t) : Prop :=
  map LinearExecutionStep.stepNumber added = seq (S n) (List.length added).

(** A step of the method [key] at depth [d]. *)
Definition StepOf (d : nat) (key : string) (s : LinearExecutionStep.t) : Prop :=
  LinearExecutionStep.sourceMethod s = key /\ LinearExecutionStep.depth s = d.


(** The name of the method of an analysis, as the linear flow has it. *)
Definition flowKey (analysis : ref) (st : State) : string :=
  MethodAnalysis.className (deref analysis st) ++ "."
  ++ MethodAnalysis.methodName (deref analysis st).



(* ================================================================== *)
(** * cache.ts: the rest of InMemoryMethodCache

    The methods of the class besides [get] and [set], on the same state.
    [getStats] returns a copy of [stats]. *)
(* ================================================================== *)

(** [invalidate(className, methodName?)]: an empty [methodName] is falsy
    and counts as none.  The loop over [cache.keys()] visits the keys the
    cache has when it starts; deleting the key under the iterator is safe
    for a [Map]. *)
Definition InMemoryMethodCache_invalidate (className : string)
  (methodName : option string) (st : State) : State :=
  let st :=
    match methodName with
    | Some (String a rest) =>
        let key := InMemoryMethodCache.getCacheKey className (String a rest) in
        set_cache (JsMap.delete key (cache st)) st
    | _ =>
        let classPrefix := className ++ "#" in
        set_cache
          (fold_left (fun m key =>
                        if Js.startsWith classPrefix key
                        then JsMap.delete key m else m)
                     (map fst (cache st)) (cache st))
          st
    end in
  InMemoryMethodCache.setTotalEntries st.

(** [clear] *)
Definition InMemoryMethodCache_clear (st : State) : State :=
  set_stats CacheStats.zero (set_cache JsMap.empty st).

(** [cleanup]: the keys of the expired entries are collected first and
    deleted afterwards. *)
Definition InMemoryMethodCache_cleanup (w : World) (st : State) : State :=
  let (now, st) := Date_now w st in
  let keysToDelete :=
    map fst
        (filter (fun kv =>
                   (CacheConfig.expiryMs (cacheConfig st)
                    <? now - CacheEntry.timestamp (snd kv))%Z)
                (cache st)) in
  let st :=
    set_cache (fold_left (fun m key => JsMap.delete key m) keysToDelete
                         (cache st))
              st in
  InMemoryMethodCache.setTotalEntries st.

(** [hasContentChanged]: it goes through [get], with its side effects. *)
Definition InMemoryMethodCache_hasContentChanged (w : World)
  (className methodName newContentHash : string) (st : State)
  : bool * State :=
  if negb (CacheConfig.enableContentHashing (cacheConfig st))
  then (false, st)
  else
    let (entry, st) := InMemoryMethodCache.get w className methodName st in
    (match entry with
     | Some e => negb (String.eqb (CacheEntry.contentHash e) newContentHash)
     | None => true
     end,
     st).

(** [Array.prototype.sort] with the comparator
    [(a, b) => b.accessCount - a.accessCount]: a stable sort, most
    accessed first. *)
Fixpoint insertByAccessCount (x : CacheEntry.t) (l : list CacheEntry.t)
  : list CacheEntry.t :=
  match l with
  | [] => [x]
  | y :: l' =>
      if (CacheEntry.accessCount y <=? CacheEntry.accessCount x)%nat
      then x :: y :: l'
      else y :: insertByAccessCount x l'
  end.

Definition sortByAccessCount (l : list CacheEntry.t) : list CacheEntry.t :=
  fold_right insertByAccessCount [] l.

(** [getTopMethods(limit)] for a [limit] that is a natural number; the
    result lists [key], [accessCount] and [analysis]. *)
Definition InMemoryMethodCache_getTopMethods (limit : nat) (st : State)
  : list (string * nat * ref) :=
  map (fun entry => (CacheEntry.key entry, CacheEntry.accessCount entry,
                     CacheEntry.analysis entry))
      (firstn limit (sortByAccessCount (map snd (cache st)))).

(** ** The cache as a map

    A [Map] holds a key once.  The association list of the model does so
    when it is made with [JsMap.set] and [JsMap.delete] from the empty
    one. *)
Definition JsMap_wf {V : Type} (m : JsMap.t V) : Prop := NoDup (map fst m).

(** The entry of [m] for [key] has the least timestamp of all. *)
Definition Oldest (key : string) (m : JsMap.t CacheEntry.t) : Prop :=
  exists entry,
    JsMap.get key m = Some entry
    /\ forall key' entry',
         In (key', entry') m ->
         (CacheEntry.timestamp entry <= CacheEntry.timestamp entry')%Z.

(** What the in-memory cache keeps: no key is the empty string, and the
    cache holds at most [maxEntries] entries. *)
Definition WithinCapacity (st : State) : Prop :=
  Forall (fun kv => fst kv <> EmptyString) (cache st)
  /\ JsMap.size (cache st) <= CacheConfig.maxEntries (cacheConfig st).

(** An entry is expired at the time [now]. *)
Definition expiredAt (now : Z) (config : CacheConfig.t) (entry : CacheEntry.t)
  : bool :=
  (CacheConfig.expiryMs config <? now - CacheEntry.timestamp entry)%Z.

(** A full cache of two entries: [A.f], set first and read nine times
    since, and [B.g], set later and never read. *)
Definition twoEntries : State :=
  mkState [ ("A#f", CacheEntry.mk "A#f" 0 1 9 EmptyString);
            ("B#g", CacheEntry.mk "B#g" 1 3 0 EmptyString) ]
          (CacheStats.mk 2 2 9 0)
          (CacheConfig.mk 2 300000 true true)
          None None None [undefinedAnalysis; undefinedAnalysis] 0 [].

(* ================================================================== *)
(** * The vocabulary of the further properties *)
(* ================================================================== *)

(** Every character of [s] is of the class [c]. *)
Fixpoint allChars (c : ascii -> bool) (s : string) : bool :=
  match s with
  | EmptyString => true
  | String a s' => c a && allChars c s'
  end.

(** A letter or an underscore, then letters, digits and underscores. *)
Definition isIdentifier (s : string) : bool :=
  match s with
  | EmptyString => false
  | String a s' => Regex.idStart a && allChars Regex.idChar s'
  end.

(** The loop of [Regex.rmatch] at a repetition, with the rest of the
    pattern as the continuation [k]; [n] counts the characters taken. *)
Section RepFrom.

Context {A : Type}.
Variables (c : ascii -> bool) (min : nat) (greedy : bool).
Variable k : string -> nat -> option A.

Fixpoint repFrom (s : string) (i n : nat) {struct s} : option A :=
  match s with
  | String a s' =>
      if c a then
        if greedy then
          match repFrom s' (S i) (S n) with
          | Some m => Some m
          | None => if (min <=? n)%nat then k s i else None
          end
        else
          match (if (min <=? n)%nat then k s i else None) with
          | Some m => Some m
          | None => repFrom s' (S i) (S n)
          end
      else if (min <=? n)%nat then k s i else None
  | EmptyString => if (min <=? n)%nat then k s i else None
  end.

End RepFrom.

(** The names the detector can return. *)
Definition knownLanguages : list string :=
  [ "java"; "typescript"; "javascript"; "python"; "csharp"; "cpp"; "c"; "go";
    "rust"; "kotlin"; "scala" ].



(* ================================================================== *)
(** * analyzer.ts: the rest of CodeFlowAnalyzer *)
(* ================================================================== *)

(** [resetModelSelection] *)
Definition resetModelSelection (st : State) : State :=
  set_selectedModel None st.

(** [getCurrentModelName] *)
Definition getCurrentModelName (st : State) : string :=
  match selectedModel st with
  | Some model => getModelDisplayName model
  | None => "None selected"
  end.

(** The "Max Depth Reached" of the report of [formatRecursiveAnalysis]:
    [session.callStack.length > 0
       ? Math.max(...session.callStack.map(entry => entry.depth)) + 1 : 1]. *)
Definition maxDepthReached (session : AnalysisSession.t) : nat :=
  match AnalysisSession.callStack session with
  | [] => 1
  | entries => fold_right Nat.max 0 (map CallStackEntry.depth entries) + 1
  end.

(** ** The requests to the oracle *)



(** ** The size of the linear flow *)

Definition isMethodStart (s : LinearExecutionStep.t) : bool :=
  match LinearExecutionStep.stepType s with
  | LinearStepType.methodStart => true
  | _ => false
  end.

(** What a request may add to the linear flow in a session whose depth
    limit is [limit]: steps at the end of the flow, all of them at a depth
    below the limit, with no more [methodStart] steps than methods counted
    in the session. *)
Definition FlowWithin (limit : nat) (s s' : AnalysisSession.t)
  (st st' : State) : Prop :=
  forall f,
    linearFlow st = Some f ->
    exists f' added,
      linearFlow st' = Some f'
      /\ LinearExecutionFlow.steps f'
         = (LinearExecutionFlow.steps f ++ added)%list
      /\ Forall (fun step => LinearExecutionStep.depth step < limit) added
      /\ List.length (filter isMethodStart added)
         + AnalysisSession.totalMethodsAnalyzed s
         <= AnalysisSession.totalMethodsAnalyzed s'.

(** ** Suggestion following *)

(** The oracle of [w] reports every method as not found, and with it names
    a class whose source the workspace has. *)
Definition alwaysSuggests (w : World) : Prop :=
  forall log model request timeoutMs,
    match sendRequest w log model request timeoutMs with
    | Streams text =>
        isMethodNotFound text = true
        /\ isMethodNotFoundResponse text = true
        /\ match extractLLMSuggestions text with
           | suggestion :: _ =>
               match findClassOrSymbol w (Suggestion.className suggestion) with
               | Ok (path :: _) =>
                   match readFileContent w path with
                   | Ok _ => True
                   | Raise _ => False
                   end
               | _ => False
               end
           | [] => False
           end
    | _ => False
    end.

(** A world whose oracle answers every request by "not found, look in the
    parent class [Base]", also when asked about [Base]. *)
Definition lookInBase : World :=
  Scenario.worldOf Scenario.still Scenario.sourceV1
                   (fun _ _ => Scenario.missing "Child" "run" "Base").

(** ** The durable cache in [analyzeMethod] *)

(** In the world [leaf], with a durable cache: the analyzer once [A.f] is
    analyzed, so that both caches hold it. *)
Definition leafAnalyzed : State :=
  match analyzeMethod Scenario.leaf 1 "A" "f" AnalysisConfig.none
          (Scenario.ready true) with
  | Some (_, st) => st
  | None => Scenario.ready true
  end.

(** The entries of the durable cache in a state, and the entry of a
    method, if any. *)
Definition durableEntries (st : State) : PersistentAnalysisCache.entries :=
  match persistentCache st with
  | Some es => es
  | None => JsMap.empty
  end.

Definition durableEntry (className methodName : string) (st : State)
  : option PersistentCacheEntry.t :=
  JsMap.get (PersistentAnalysisCache.getCacheKey className methodName)
            (durableEntries st).

(** ** The calls [parseMethodCall] accepts *)

(** The text of a call [Class.method(raw)], with white space where
    [classMethodPattern] allows it, and the text of a call [method(raw)]. *)
Definition qualifiedCall (cls sp1 sp2 meth sp3 raw sp4 : string) : string :=
  cls ++ sp1 ++ "." ++ sp2 ++ meth ++ sp3 ++ "(" ++ raw ++ ")" ++ sp4.

Definition standaloneCall (meth sp3 raw sp4 : string) : string :=
  meth ++ sp3 ++ "(" ++ raw ++ ")" ++ sp4.


(** ** The suggestions of a reply *)

(** The suggestion made from the match [m] of a pattern in [text]. *)
Definition suggestionOf (label text : string) (m : Regex.found)
  : Suggestion.t :=
  Suggestion.mk (Js.trim (Regex.group text m 1))
                (label ++ Js.trim (Regex.group text m 2)).

(** A suggestion made as an alternative class or as an interface. *)
Definition isSecondary (s : Suggestion.t) : bool :=
  Js.startsWith "Alternative class: " (Suggestion.reason s)
  || Js.startsWith "Interface: " (Suggestion.reason s).
(* ================================================================== *)
(** * Properties of the parser *)
(* ================================================================== *)


Lemma fold_pushCall (calls : list MethodCall.t) (s : MethodCallSummary.t) :
  fold_left pushCall calls s =
  MethodCallSummary.mk
    (MethodCallSummary.stepInto s
     ++ filter (isDecision StepInDecision.stepInto) calls)
    (MethodCallSummary.objectLookup s
     ++ filter (isDecision StepInDecision.objectLookup) calls)
    (MethodCallSummary.external s
     ++ filter (isDecision StepInDecision.external) calls)
    (MethodCallSummary.notFound s
     ++ filter (isDecision StepInDecision.notFound) calls)%list.
Proof.
  revert s.
  induction calls as [|call calls IH]; intros s; simpl.
  - rewrite !app_nil_r. destruct s; reflexivity.
  - rewrite IH. unfold pushCall, isDecision.
    destruct (MethodCall.stepInDecision call); simpl;
      rewrite <- ?app_assoc; reflexivity.
Qed.

Lemma buildMethodCallSummary_filter (calls : list MethodCall.t) :
  buildMethodCallSummary calls =
  MethodCallSummary.mk
    (filter (isDecision StepInDecision.stepInto) calls)
    (filter (isDecision StepInDecision.objectLookup) calls)
    (filter (isDecision StepInDecision.external) calls)
    (filter (isDecision StepInDecision.notFound) calls).
Proof.
  unfold buildMethodCallSummary. rewrite fold_pushCall. reflexivity.
Qed.

Lemma buckets_length (calls : list MethodCall.t) :
  List.length (filter (isDecision StepInDecision.stepInto) calls)
  + List.length (filter (isDecision StepInDecision.objectLookup) calls)
  + List.length (filter (isDecision StepInDecision.external) calls)
  + List.length (filter (isDecision StepInDecision.notFound) calls)
  = List.length calls.
Proof.
  unfold isDecision.
  induction calls as [|call calls IH]; simpl; [reflexivity|].
  destruct (MethodCall.stepInDecision call); simpl; lia.
Qed.

Lemma classify_cases (classification : string) :
  classify classification = StepInDecision.stepInto
  \/ classify classification = StepInDecision.objectLookup
  \/ classify classification = StepInDecision.external.
Proof.
  unfold classify.
  repeat match goal with
         | |- context [if ?b then _ else _] => destruct b
         end; auto.
Qed.

Lemma collectCalls_classified (blockText : string) (ms : list Regex.found)
  (callIndex : nat) (call : MethodCall.t) :
  In call (collectCalls blockText ms callIndex) ->
  exists classification,
    MethodCall.stepInDecision call = classify classification.
Proof.
  revert callIndex.
  induction ms as [|m ms IH]; intros callIndex; simpl; [tauto|].
  destruct (parseMethodCall (group blockText m 1)) as [[[cls meth] params]|].
  - intros [<-|Hin]; [eexists; reflexivity | eauto].
  - eauto.
Qed.

(** C7, as the code has it.  Every call the parser extracts carries one
    classification, which is never [notFound]; the summary puts each call
    in the bucket its classification names, in order, so that the sizes of
    the four buckets add up to the number of calls; and a phrase that
    names none of "step into", "object lookup" and "external" is
    [stepInto] when it contains "yes" (the old Yes/No format) and
    [external] otherwise. *)
Theorem classification_partition :
  (forall calls : list MethodCall.t,
      let summary := buildMethodCallSummary calls in
      MethodCallSummary.stepInto summary
        = filter (isDecision StepInDecision.stepInto) calls
      /\ MethodCallSummary.objectLookup summary
        = filter (isDecision StepInDecision.objectLookup) calls
      /\ MethodCallSummary.external summary
        = filter (isDecision StepInDecision.external) calls
      /\ MethodCallSummary.notFound summary
        = filter (isDecision StepInDecision.notFound) calls
      /\ List.length (MethodCallSummary.stepInto summary)
         + List.length (MethodCallSummary.objectLookup summary)
         + List.length (MethodCallSummary.external summary)
         + List.length (MethodCallSummary.notFound summary)
         = List.length calls)
  /\ (forall (blockText : string) (blockIndex : nat) (call : MethodCall.t),
         In call (extractMethodCallsFromBlock blockText blockIndex) ->
         MethodCall.stepInDecision call <> StepInDecision.notFound)
  /\ (forall classification : string,
         let phrase := Js.trim (Js.toLowerCase classification) in
         Js.includes "step into" phrase = false ->
         Js.includes "object lookup" phrase = false ->
         Js.includes "external" phrase = false ->
         classify classification
         = if Js.includes "yes" phrase then StepInDecision.stepInto
           else StepInDecision.external).
Proof.
  split; [|split].
  - intros calls summary. unfold summary.
    rewrite buildMethodCallSummary_filter. simpl.
    repeat split. apply buckets_length.
  - intros blockText blockIndex call Hin.
    apply collectCalls_classified in Hin. destruct Hin as [c ->].
    destruct (classify_cases c) as [-> | [-> | ->]]; discriminate.
  - intros classification phrase H1 H2 H3. unfold classify.
    fold phrase. rewrite H1, H2, H3. reflexivity.
Qed.

(** The witness of [classification_partition]: the phrase "Maybe" names no
    category and is [external]. *)
Lemma classification_partition_witness :
  classify "Maybe" = StepInDecision.external.
Proof.
  exact (proj2 (proj2 classification_partition) "Maybe"
               eq_refl eq_refl eq_refl).
Defined.

(** C7 as stated fails: the phrase "Yes" is none of the named categories,
    and the call it classifies lands in [stepInto], not in [external]. *)
Lemma classification_default_counterexample :
  let blockText :=
    "- **Call**: `Billing.charge()`" ++ Js.nl
    ++ "  - **Classification**: Yes (own code)" ++ Js.nl in
  map MethodCall.stepInDecision (extractMethodCallsFromBlock blockText 0)
  = [StepInDecision.stepInto]
  /\ classify "Yes" <> StepInDecision.external.
Proof.
  split; [vm_compute; reflexivity | vm_compute; discriminate].
Qed.

(** C6, as the code has it.  The parser returns [error], without blocks
    and without calls, exactly when the text contains one of the not-found
    markers, and [complete] otherwise, whether or not a block was
    extracted; so a result with a block is [complete]. *)
Theorem parseLLMResponse_status
  (responseText className methodName language : string) :
  let parsed := parseLLMResponse responseText className methodName language in
  (isMethodNotFound responseText = true ->
     ParsedMethodAnalysis.analysisStatus parsed = AnalysisStatus.error
     /\ ParsedMethodAnalysis.executionBlocks parsed = []
     /\ ParsedMethodAnalysis.methodCalls parsed = []
     /\ ParsedMethodAnalysis.errorMessage parsed
        = Some ("Method " ++ methodName ++ " not found in class " ++ className))
  /\ (isMethodNotFound responseText = false ->
        ParsedMethodAnalysis.analysisStatus parsed = AnalysisStatus.complete
        /\ ParsedMethodAnalysis.errorMessage parsed = None)
  /\ (ParsedMethodAnalysis.executionBlocks parsed <> [] ->
        ParsedMethodAnalysis.analysisStatus parsed = AnalysisStatus.complete)
  /\ (ParsedMethodAnalysis.analysisStatus parsed = AnalysisStatus.error ->
        ParsedMethodAnalysis.executionBlocks parsed = []).
Proof.
  unfold parseLLMResponse.
  destruct (isMethodNotFound responseText); simpl; repeat split;
    try discriminate; try congruence; tauto.
Qed.

(** The witness of [parseLLMResponse_status]: a reply with the marker
    "does not exist". *)
Lemma parseLLMResponse_status_witness :
  ParsedMethodAnalysis.analysisStatus
    (parseLLMResponse "The method does not exist." "A" "f" "java")
  = AnalysisStatus.error.
Proof.
  exact (proj1 (proj1 (parseLLMResponse_status
                         "The method does not exist." "A" "f" "java")
                      eq_refl)).
Defined.

(** C6 as stated fails: a reply without a marker and without a block is
    [complete], with zero blocks. *)
Lemma parseLLMResponse_complete_without_blocks :
  let parsed :=
    parseLLMResponse "The method only returns its argument." "A" "f" "java" in
  ParsedMethodAnalysis.analysisStatus parsed = AnalysisStatus.complete
  /\ ParsedMethodAnalysis.executionBlocks parsed = [].
Proof.
  vm_compute. split; reflexivity.
Qed.

(* ================================================================== *)
(** * Maps, sets and the state *)
(* ================================================================== *)

Lemma JsMap_get_set_same {V : Type} (k : string) (v : V) (m : JsMap.t V) :
  JsMap.get k (JsMap.set k v m) = Some v.
Proof.
  induction m as [|[k' v'] m IH]; simpl.
  - rewrite String.eqb_refl. reflexivity.
  - destruct (String.eqb k' k) eqn:E; simpl.
    + rewrite String.eqb_refl. reflexivity.
    + rewrite E. exact IH.
Qed.



Lemma JsMap_get_In {V : Type} (k : string) (v : V) (m : JsMap.t V) :
  JsMap.get k m = Some v -> In (k, v) m.
Proof.
  induction m as [|[k' v'] m IH]; simpl; [discriminate|].
  destruct (String.eqb k' k) eqn:E.
  - apply String.eqb_eq in E. intros [= ->]. left. congruence.
  - auto.
Qed.


Lemma JsMap_In_delete {V : Type} (k : string) (m : JsMap.t V)
  (kv : string * V) :
  In kv (JsMap.delete k m) -> In kv m.
Proof.
  induction m as [|[k' v'] m IH]; simpl; [tauto|].
  destruct (String.eqb k' k); simpl; [auto|].
  intros [<-|H]; auto.
Qed.

Lemma JsSet_has_In (k : string) (s : JsSet.t) :
  JsSet.has k s = true <-> In k s.
Proof.
  unfold JsSet.has. rewrite existsb_exists. split.
  - intros [x [Hin Heq]]. apply String.eqb_eq in Heq. congruence.
  - intros Hin. exists k. split; [exact Hin | apply String.eqb_refl].
Qed.

Lemma JsSet_has_false (k : string) (s : JsSet.t) :
  JsSet.has k s = false <-> ~ In k s.
Proof.
  rewrite <- JsSet_has_In. destruct (JsSet.has k s); split; congruence.
Qed.



Lemma updateNth_length {A : Type} (n : nat) (f : A -> A) (l : list A) :
  List.length (updateNth n f l) = List.length l.
Proof.
  revert n. induction l as [|x l IH]; intros [|n]; simpl; auto.
Qed.


(** A placeholder is a new object with the status and the reason given; the
    oracle is not asked. *)
Lemma createPlaceholderAnalysis_spec (w : World)
  (className methodName : string) (status : AnalysisStatus.t)
  (reason : string) (st : State) :
  let r := fst (createPlaceholderAnalysis w className methodName status reason st) in
  let st' := snd (createPlaceholderAnalysis w className methodName status reason st) in
  r = List.length (heap st)
  /\ MethodAnalysis.className (deref r st') = className
  /\ MethodAnalysis.methodName (deref r st') = methodName
  /\ MethodAnalysis.analysisStatus (deref r st') = status
  /\ MethodAnalysis.errorMessage (deref r st') = Some reason
  /\ MethodAnalysis.methodCallSummary (deref r st') = MethodCallSummary.empty
  /\ oracleLog st' = oracleLog st
  /\ cache st' = cache st
  /\ persistentCache st' = persistentCache st
  /\ linearFlow st' = linearFlow st.
Proof.
  unfold createPlaceholderAnalysis, Date_now, alloc, deref. simpl.
  rewrite app_nth2 by lia. rewrite Nat.sub_diag. simpl.
  repeat split.
Qed.

(* ================================================================== *)
(** * What [analyzeMethod] respects

    A relation between the state before and the state after that is
    reflexive, transitive and holds for each elementary step of
    [analyzeMethod] holds for [analyzeMethod]. *)
(* ================================================================== *)

Section Respects.

Variable R : State -> State -> Prop.
Hypothesis R_refl : forall st, R st st.
Hypothesis R_trans : forall a b c, R a b -> R b c -> R a c.

Lemma respects_ret {A : Type} (a : A) : respects R (ret a).
Proof. intros st r st' [= <- <-]. apply R_refl. Qed.

Lemma respects_throw {A : Type} (e : exn) : respects R (@throw A e).
Proof. intros st r st' [= <- <-]. apply R_refl. Qed.

Lemma respects_outOfFuel {A : Type} : respects R (@outOfFuel A).
Proof. intros st r st' [=]. Qed.

Lemma respects_gets {A : Type} (f : State -> A) : respects R (gets f).
Proof. intros st r st' [= <- <-]. apply R_refl. Qed.

Lemma respects_ofRes {A : Type} (r : res A) : respects R (ofRes r).
Proof. destruct r; [apply respects_ret | apply respects_throw]. Qed.

Lemma respects_bind {A B : Type} (m : M A) (k : A -> M B) :
  respects R m -> (forall a, respects R (k a)) -> respects R (bind m k).
Proof.
  intros Hm Hk st r st'. unfold bind.
  destruct (m st) as [[[a|e] st1]|] eqn:E; [| |discriminate].
  - intros H. eapply R_trans; [eapply Hm; exact E | eapply Hk; exact H].
  - intros [= <- <-]. eapply Hm; exact E.
Qed.

Lemma respects_tryCatch {A : Type} (m : M A) (h : exn -> M A) :
  respects R m -> (forall e, respects R (h e)) -> respects R (tryCatch m h).
Proof.
  intros Hm Hh st r st'. unfold tryCatch.
  destruct (m st) as [[[a|e] st1]|] eqn:E; [| |discriminate].
  - intros [= <- <-]. eapply Hm; exact E.
  - intros H. eapply R_trans; [eapply Hm; exact E | eapply Hh; exact H].
Qed.

Lemma respects_lift {A : Type} (f : State -> A * State) :
  (forall st, R st (snd (f st))) -> respects R (lift f).
Proof.
  intros Hf st r st'. unfold lift. specialize (Hf st).
  destruct (f st) as [a st1]. intros [= <- <-]. exact Hf.
Qed.

Lemma respects_modify (f : State -> State) :
  (forall st, R st (f st)) -> respects R (modify f).
Proof. intros Hf st r st' [= <- <-]. apply Hf. Qed.

Variable w : World.

Hypothesis R_now : forall st, R st (snd (Date_now w st)).
Hypothesis R_model : forall m st, R st (set_selectedModel m st).
Hypothesis R_log : forall l st, R st (set_oracleLog l st).
Hypothesis R_alloc : forall a st, R st (snd (alloc a st)).
Hypothesis R_attribution : forall r cls original st,
  R st (mutate r (MethodAnalysis.withAttribution cls original) st).
Hypothesis R_stamp : forall r hash time st,
  R st (mutate r (MethodAnalysis.withCacheStamp hash time) st).
Hypothesis R_cache_get : forall className methodName st,
  R st (snd (InMemoryMethodCache.get w className methodName st)).
Hypothesis R_cache_set : forall className methodName r st,
  R st (InMemoryMethodCache.set w className methodName r st).
Hypothesis R_durable_get :
  forall className methodName content modelName es st,
    persistentCache st = Some es ->
    let result :=
      PersistentAnalysisCache.get w className methodName content modelName
                                  es st in
    R st (set_persistentCache (Some (snd (fst result))) (snd result)).
Hypothesis R_durable_set :
  forall className methodName r content path modelName es st,
    persistentCache st = Some es ->
    MethodAnalysis.analysisStatus (deref r st) = AnalysisStatus.complete ->
    let result :=
      PersistentAnalysisCache.set w className methodName r content path
                                  modelName es st in
    R st (set_persistentCache (Some (fst result)) (snd result)).

Lemma respects_getFileInfo (className : string) :
  respects R (getFileInfo w className).
Proof.
  unfold getFileInfo.
  apply respects_bind; [apply respects_ofRes|]. intros [|fileUri files].
  - apply respects_throw.
  - apply respects_bind; [apply respects_ofRes|]. intros content.
    apply respects_bind; [apply respects_lift, R_now|]. intros now.
    apply respects_ret.
Qed.

Lemma respects_selectLanguageModel : respects R (selectLanguageModel w).
Proof.
  unfold selectLanguageModel.
  apply respects_bind; [apply respects_gets|]. intros [model|].
  - apply respects_ret.
  - apply respects_bind; [apply respects_ofRes|]. intros [|model [|second models]].
    + apply respects_throw.
    + apply respects_bind; [apply respects_modify, R_model|]. intros _.
      apply respects_ret.
    + apply respects_bind; [apply respects_ofRes|]. intros selectedItem.
      apply respects_bind; [apply respects_modify, R_model|]. intros _.
      apply respects_ret.
Qed.

Lemma respects_askOracle (model : LanguageModelChat.t)
  (request : OracleRequest.t) (timeoutMs : Z) :
  respects R (askOracle w model request timeoutMs).
Proof.
  unfold askOracle.
  apply respects_bind; [apply respects_gets|]. intros log.
  apply respects_bind; [apply respects_modify, R_log|]. intros _.
  destruct (sendRequest w log model request timeoutMs).
  - apply respects_ret.
  - apply respects_throw.
  - apply respects_throw.
Qed.

Lemma respects_trySuggestions
  (perform : string -> string -> FileInfo.t -> AnalysisConfig.t -> M ref)
  (original methodName : string) (config : AnalysisConfig.t)
  (suggestions : list Suggestion.t) :
  (forall c m f cfg, respects R (perform c m f cfg)) ->
  respects R (trySuggestions w perform original methodName config suggestions).
Proof.
  intros Hperform.
  induction suggestions as [|suggestion rest IH]; simpl.
  - apply respects_ret.
  - apply respects_bind.
    + apply respects_tryCatch; [|intros e; apply respects_ret].
      apply respects_bind; [apply respects_getFileInfo|]. intros info.
      apply respects_bind; [apply Hperform|]. intros analysis.
      apply respects_bind; [apply respects_gets|]. intros status.
      destruct (AnalysisStatus.eqb status AnalysisStatus.complete).
      * apply respects_bind; [apply respects_modify; intros; apply R_attribution|].
        intros _. apply respects_ret.
      * apply respects_ret.
    + intros [analysis|]; [apply respects_ret | exact IH].
Qed.

Lemma respects_performMethodAnalysis (fuel : nat)
  (className methodName : string) (fileInfo : FileInfo.t)
  (config : AnalysisConfig.t) :
  respects R (performMethodAnalysis w fuel className methodName fileInfo config).
Proof.
  revert className methodName fileInfo config.
  induction fuel as [|fuel IH]; intros className methodName fileInfo config.
  - apply respects_outOfFuel.
  - simpl.
    apply respects_bind; [apply respects_selectLanguageModel|]. intros model.
    apply respects_bind; [apply respects_askOracle|]. intros responseText.
    apply respects_bind.
    + destruct (_ && _); [|apply respects_ret].
      unfold followLLMSuggestions.
      destruct (extractLLMSuggestions responseText); [apply respects_ret|].
      apply respects_trySuggestions. exact IH.
    + intros [analysis|]; [apply respects_ret|].
      apply respects_bind; [apply respects_lift, R_now|]. intros now.
      apply respects_lift. intros st. apply R_alloc.
Qed.

Lemma respects_analyzeMethodTry (fuel : nat) (className methodName : string)
  (finalConfig : AnalysisConfig.t) (startTime : Z) :
  respects R (analyzeMethodTry w fuel className methodName finalConfig startTime).
Proof.
  unfold analyzeMethodTry.
  apply respects_bind; [apply respects_getFileInfo|]. intros fileInfo.
  apply respects_bind.
  - intros st r st'.
    destruct (persistentCache st) as [es|] eqn:Ees;
      [destruct (selectedModel st) as [model|]|].
    + pose proof (R_durable_get className methodName
                    (FileInfo.content fileInfo) (getModelDisplayName model)
                    es st Ees) as H.
      simpl in H.
      destruct (PersistentAnalysisCache.get w className methodName
                  (FileInfo.content fileInfo) (getModelDisplayName model) es st)
        as [[hit es'] st1].
      intros [= <- <-]. exact H.
    + intros [= <- <-]. apply R_refl.
    + intros [= <- <-]. apply R_refl.
  - intros [analysis|].
    + apply respects_bind; [apply respects_modify; intros; apply R_cache_set|].
      intros _. apply respects_ret.
    + apply respects_bind; [apply respects_performMethodAnalysis|].
      intros analysis.
      apply respects_bind; [apply respects_modify; intros; apply R_stamp|].
      intros _.
      apply respects_bind; [apply respects_modify; intros; apply R_cache_set|].
      intros _.
      apply respects_bind; [|intros _; apply respects_ret].
      apply respects_modify. intros st.
      destruct (persistentCache st) as [es|] eqn:Ees;
        [destruct (selectedModel st) as [model|]|]; try apply R_refl.
      destruct (AnalysisStatus.eqb
                  (MethodAnalysis.analysisStatus (deref analysis st))
                  AnalysisStatus.complete) eqn:Estatus; [|apply R_refl].
      assert (Hc : MethodAnalysis.analysisStatus (deref analysis st)
                   = AnalysisStatus.complete)
        by (destruct (MethodAnalysis.analysisStatus (deref analysis st));
            simpl in Estatus; congruence).
      pose proof (R_durable_set className methodName analysis
                    (FileInfo.content fileInfo) (FileInfo.filePath fileInfo)
                    (getModelDisplayName model) es st Ees Hc) as H.
      simpl in H.
      destruct (PersistentAnalysisCache.set w className methodName analysis
                  (FileInfo.content fileInfo) (FileInfo.filePath fileInfo)
                  (getModelDisplayName model) es st) as [es' st1].
      exact H.
Qed.

Lemma respects_analyzeMethod (fuel : nat) (className methodName : string)
  (config : AnalysisConfig.partial) (st : State) (r : ref) (st' : State) :
  analyzeMethod w fuel className methodName config st = Some (r, st') ->
  R st st'.
Proof.
  unfold analyzeMethod.
  pose proof (R_cache_get className methodName st) as Hget.
  destruct (InMemoryMethodCache.get w className methodName st)
    as [[entry|] st1]; simpl in Hget.
  - intros [= <- <-]. exact Hget.
  - pose proof (R_now st1) as Hnow.
    destruct (Date_now w st1) as [startTime st2]; simpl in Hnow.
    destruct (analyzeMethodTry w fuel className methodName _ startTime st2)
      as [[[analysis|e] st3]|] eqn:Etry; [| |discriminate].
    + intros [= <- <-].
      eapply R_trans; [exact Hget|]. eapply R_trans; [exact Hnow|].
      eapply respects_analyzeMethodTry; exact Etry.
    + pose proof (R_alloc (errorAnalysis className methodName startTime e) st3)
        as Halloc.
      destruct (alloc (errorAnalysis className methodName startTime e) st3)
        as [analysis st4]; simpl in Halloc.
      intros [= <- <-].
      eapply R_trans; [exact Hget|]. eapply R_trans; [exact Hnow|].
      eapply R_trans; [eapply respects_analyzeMethodTry; exact Etry|].
      eapply R_trans; [exact Halloc|]. apply R_cache_set.
Qed.

End Respects.

(* ================================================================== *)
(** * The guards of the recursion controller *)
(* ================================================================== *)



Lemma createPlaceholderAnalysis_isPlaceholder (w : World)
  (className methodName : string) (status : AnalysisStatus.t)
  (reason : string) (st : State) :
  isPlaceholder status reason className methodName
    (deref (fst (createPlaceholderAnalysis w className methodName status reason st))
           (snd (createPlaceholderAnalysis w className methodName status reason st))).
Proof.
  pose proof (createPlaceholderAnalysis_spec w className methodName status
                reason st) as H. simpl in H.
  unfold isPlaceholder. tauto.
Qed.

(** A request at or beyond the depth limit. *)
Lemma depth_guard (w : World) (fuel sfuel : nat)
  (className methodName : string) (session : AnalysisSession.t)
  (depth : nat) (st : State) :
  AnalysisConfig.maxCallStackDepth (AnalysisSession.config session) <= depth ->
  analyzeMethodRecursively w (S fuel) sfuel className methodName session depth st
  = Some (fst (createPlaceholderAnalysis w className methodName
                 AnalysisStatus.partial "Maximum recursion depth reached" st),
          session,
          snd (createPlaceholderAnalysis w className methodName
                 AnalysisStatus.partial "Maximum recursion depth reached" st)).
Proof.
  intros Hd. cbn [analyzeMethodRecursively].
  apply Nat.leb_le in Hd. rewrite Hd.
  destruct (createPlaceholderAnalysis w className methodName
              AnalysisStatus.partial "Maximum recursion depth reached" st).
  reflexivity.
Qed.

(** A request, below the depth limit, for a method that is in the visited
    set. *)
Lemma cycle_guard (w : World) (fuel sfuel : nat)
  (className methodName : string) (session : AnalysisSession.t)
  (depth : nat) (st : State) :
  depth < AnalysisConfig.maxCallStackDepth (AnalysisSession.config session) ->
  JsSet.has (methodKeyOf className methodName)
            (AnalysisSession.analyzedMethods session) = true ->
  analyzeMethodRecursively w (S fuel) sfuel className methodName session depth st
  = match InMemoryMethodCache.get w className methodName st with
    | (Some entry, st1) => Some (CacheEntry.analysis entry, session, st1)
    | (None, st1) =>
        Some (fst (createPlaceholderAnalysis w className methodName
                     AnalysisStatus.partial "Circular dependency detected" st1),
              session,
              snd (createPlaceholderAnalysis w className methodName
                     AnalysisStatus.partial "Circular dependency detected" st1))
    end.
Proof.
  intros Hd Hhas. cbn [analyzeMethodRecursively].
  apply Nat.leb_gt in Hd. rewrite Hd.
  unfold methodKeyOf in Hhas. rewrite Hhas.
  destruct (InMemoryMethodCache.get w className methodName st) as [[entry|] st1];
    [reflexivity|].
  destruct (createPlaceholderAnalysis w className methodName
              AnalysisStatus.partial "Circular dependency detected" st1).
  reflexivity.
Qed.

(** A request, below the depth limit, for a method not visited yet, once
    the budget is used up. *)
Lemma budget_guard (w : World) (fuel sfuel : nat)
  (className methodName : string) (session : AnalysisSession.t)
  (depth : nat) (st : State) :
  depth < AnalysisConfig.maxCallStackDepth (AnalysisSession.config session) ->
  JsSet.has (methodKeyOf className methodName)
            (AnalysisSession.analyzedMethods session) = false ->
  AnalysisConfig.maxTotalMethods (AnalysisSession.config session)
    <= AnalysisSession.totalMethodsAnalyzed session ->
  analyzeMethodRecursively w (S fuel) sfuel className methodName session depth st
  = Some (fst (createPlaceholderAnalysis w className methodName
                 AnalysisStatus.partial "Maximum method count reached" st),
          session,
          snd (createPlaceholderAnalysis w className methodName
                 AnalysisStatus.partial "Maximum method count reached" st)).
Proof.
  intros Hd Hhas Hb. cbn [analyzeMethodRecursively].
  apply Nat.leb_gt in Hd. rewrite Hd.
  unfold methodKeyOf in Hhas. rewrite Hhas.
  apply Nat.leb_le in Hb. rewrite Hb.
  destruct (createPlaceholderAnalysis w className methodName
              AnalysisStatus.partial "Maximum method count reached" st).
  reflexivity.
Qed.


(** A request that passes the four guards is expanded. *)
Lemma expansion (w : World) (fuel sfuel : nat)
  (className methodName : string) (session : AnalysisSession.t)
  (depth : nat) (st : State) :
  depth < AnalysisConfig.maxCallStackDepth (AnalysisSession.config session) ->
  JsSet.has (methodKeyOf className methodName)
            (AnalysisSession.analyzedMethods session) = false ->
  AnalysisSession.totalMethodsAnalyzed session
    < AnalysisConfig.maxTotalMethods (AnalysisSession.config session) ->
  isValidIdentifier className = true ->
  isValidIdentifier methodName = true ->
  analyzeMethodRecursively w (S fuel) sfuel className methodName session depth st
  = match analyzeMethod w sfuel className methodName
            (AnalysisConfig.full (AnalysisSession.config session)) st with
    | None => None
    | Some (analysis, st1) =>
        let st2 := afterAnalysis analysis depth st1 in
        match (if isCompleteIn analysis st2
               then processMethodCallsRecursively
                      (analyzeMethodRecursively w fuel sfuel)
                      analysis (enter className methodName depth session)
                      depth st2
               else Some (enter className methodName depth session, st2)) with
        | None => None
        | Some (session', st3) => Some (analysis, leave session', st3)
        end
    end.
Proof.
  intros Hd Hhas Hb Hc Hm. cbn [analyzeMethodRecursively].
  apply Nat.leb_gt in Hd. rewrite Hd.
  unfold methodKeyOf in Hhas. rewrite Hhas.
  apply Nat.leb_gt in Hb. rewrite Hb.
  rewrite Hc, Hm. simpl.
  destruct (analyzeMethod w sfuel className methodName
              (AnalysisConfig.full (AnalysisSession.config session)) st)
    as [[analysis st1]|]; reflexivity.
Qed.


Lemma request_cases (w : World) (fuel sfuel : nat)
  (className methodName : string) (session : AnalysisSession.t)
  (depth : nat) (st : State) (out : outcome) :
  analyzeMethodRecursively w (S fuel) sfuel className methodName session depth st
  = Some out ->
  requestCase w fuel sfuel className methodName session depth st out.
Proof.
  intros H.
  destruct (Nat.le_gt_cases
              (AnalysisConfig.maxCallStackDepth (AnalysisSession.config session))
              depth) as [Hd|Hd].
  { rewrite depth_guard in H by exact Hd. injection H as <-.
    apply AtDepthLimit. exact Hd. }
  destruct (JsSet.has (methodKeyOf className methodName)
                      (AnalysisSession.analyzedMethods session)) eqn:Hhas.
  { rewrite cycle_guard in H by assumption.
    apply Visited; assumption. }
  destruct (Nat.le_gt_cases
              (AnalysisConfig.maxTotalMethods (AnalysisSession.config session))
              (AnalysisSession.totalMethodsAnalyzed session)) as [Hb|Hb].
  { rewrite budget_guard in H by assumption. injection H as <-.
    apply OverBudget; assumption. }
  destruct (isValidIdentifier className) eqn:Hc;
    [destruct (isValidIdentifier methodName) eqn:Hm|].
  - rewrite expansion in H by assumption.
    destruct (analyzeMethod w sfuel className methodName
                (AnalysisConfig.full (AnalysisSession.config session)) st)
      as [[analysis st1]|] eqn:Ea; [|discriminate].
    cbv zeta in H.
    destruct (if isCompleteIn analysis (afterAnalysis analysis depth st1)
              then _ else _) as [[session' st3]|] eqn:Eloop; [|discriminate].
    injection H as <-.
    eapply Expanded; eassumption.
  - cbn [analyzeMethodRecursively] in H.
    apply Nat.leb_gt in Hd, Hb. unfold methodKeyOf in Hhas.
    rewrite Hd, Hhas, Hb, Hc, Hm in H. simpl in H.
    destruct (createPlaceholderAnalysis w className methodName
                AnalysisStatus.error "Invalid class or method name" st)
      as [p st1] eqn:Ep.
    injection H as <-.
    replace p with (fst (createPlaceholderAnalysis w className methodName
                AnalysisStatus.error "Invalid class or method name" st))
      by (rewrite Ep; reflexivity).
    replace st1 with (snd (createPlaceholderAnalysis w className methodName
                AnalysisStatus.error "Invalid class or method name" st))
      by (rewrite Ep; reflexivity).
    apply InvalidName; try assumption.
    + apply Nat.leb_gt; assumption.
    + apply Nat.leb_gt; assumption.
    + rewrite Hc, Hm. reflexivity.
  - cbn [analyzeMethodRecursively] in H.
    apply Nat.leb_gt in Hd, Hb. unfold methodKeyOf in Hhas.
    rewrite Hd, Hhas, Hb, Hc in H. simpl in H.
    destruct (createPlaceholderAnalysis w className methodName
                AnalysisStatus.error "Invalid class or method name" st)
      as [p st1] eqn:Ep.
    injection H as <-.
    replace p with (fst (createPlaceholderAnalysis w className methodName
                AnalysisStatus.error "Invalid class or method name" st))
      by (rewrite Ep; reflexivity).
    replace st1 with (snd (createPlaceholderAnalysis w className methodName
                AnalysisStatus.error "Invalid class or method name" st))
      by (rewrite Ep; reflexivity).
    apply InvalidName; try assumption.
    + apply Nat.leb_gt; assumption.
    + apply Nat.leb_gt; assumption.
    + rewrite Hc. reflexivity.
Qed.

(* ================================================================== *)
(** * The two cache tiers under [analyzeMethod] *)
(* ================================================================== *)

(** Unfolds the operations of the two caches down to the fields. *)
Ltac cache_ops :=
  unfold InMemoryMethodCache.get, InMemoryMethodCache.set,
         InMemoryMethodCache.evictOldest, InMemoryMethodCache.countMiss,
         InMemoryMethodCache.countHit, InMemoryMethodCache.setTotalEntries,
         PersistentAnalysisCache.get, PersistentAnalysisCache.set,
         PersistentAnalysisCache.cleanupCache, Date_now, alloc, mutate;
  repeat match goal with
         | |- context [match JsMap.get ?k ?m with _ => _ end] =>
             destruct (JsMap.get k m)
         | |- context [match InMemoryMethodCache.findOldest ?a ?b ?c with _ => _ end] =>
             destruct (InMemoryMethodCache.findOldest a b c)
         | |- context [if ?b then _ else _] => destruct b
         end;
  simpl.


Lemma cache_set_entry (w : World) (className methodName : string) (r : ref)
  (st : State) :
  exists entry,
    JsMap.get (methodKeyOf className methodName)
              (cache (InMemoryMethodCache.set w className methodName r st))
    = Some entry
    /\ CacheEntry.analysis entry = r.
Proof.
  unfold InMemoryMethodCache.set, InMemoryMethodCache.getCacheKey, methodKeyOf.
  destruct (Date_now w (InMemoryMethodCache.evictOldest st)) as [now st1].
  simpl. rewrite JsMap_get_set_same. eexists. split; reflexivity.
Qed.

Lemma cache_set_frame (w : World) (className methodName : string) (r : ref)
  (st : State) :
  let st' := InMemoryMethodCache.set w className methodName r st in
  heap st' = heap st /\ persistentCache st' = persistentCache st
  /\ oracleLog st' = oracleLog st /\ linearFlow st' = linearFlow st
  /\ selectedModel st' = selectedModel st.
Proof. cache_ops; repeat split. Qed.

Lemma cache_get_frame (w : World) (className methodName : string)
  (st : State) :
  let st' := snd (InMemoryMethodCache.get w className methodName st) in
  heap st' = heap st /\ persistentCache st' = persistentCache st
  /\ oracleLog st' = oracleLog st /\ linearFlow st' = linearFlow st
  /\ selectedModel st' = selectedModel st.
Proof. cache_ops; repeat split. Qed.

Lemma durable_get_frame (w : World)
  (className methodName content modelName : string)
  (es : PersistentAnalysisCache.entries) (st : State) :
  let result :=
    PersistentAnalysisCache.get w className methodName content modelName es st in
  heap (snd result) = heap st /\ cache (snd result) = cache st
  /\ oracleLog (snd result) = oracleLog st
  /\ linearFlow (snd result) = linearFlow st
  /\ selectedModel (snd result) = selectedModel st
  /\ persistentCache (snd result) = persistentCache st.
Proof. cache_ops; repeat split. Qed.

Lemma durable_set_frame (w : World)
  (className methodName : string) (r : ref)
  (content path modelName : string)
  (es : PersistentAnalysisCache.entries) (st : State) :
  let result :=
    PersistentAnalysisCache.set w className methodName r content path
                                modelName es st in
  heap (snd result) = heap st /\ cache (snd result) = cache st
  /\ oracleLog (snd result) = oracleLog st
  /\ linearFlow (snd result) = linearFlow st
  /\ selectedModel (snd result) = selectedModel st
  /\ persistentCache (snd result) = persistentCache st.
Proof. cache_ops; repeat split. Qed.

(** [analyzeMethod] does not touch the linear flow. *)
Lemma analyzeMethod_linearFlow (w : World) (fuel : nat)
  (className methodName : string) (config : AnalysisConfig.partial)
  (st : State) (r : ref) (st' : State) :
  analyzeMethod w fuel className methodName config st = Some (r, st') ->
  linearFlow st' = linearFlow st.
Proof.
  apply (respects_analyzeMethod (fun a b => linearFlow b = linearFlow a)).
  - reflexivity.
  - intros a b c H1 H2. congruence.
  - reflexivity.
  - reflexivity.
  - reflexivity.
  - reflexivity.
  - reflexivity.
  - reflexivity.
  - intros. apply cache_get_frame.
  - intros. apply cache_set_frame.
  - intros. simpl. apply durable_get_frame.
  - intros. simpl. apply durable_set_frame.
Qed.








(** What the durable tier returns was stored for the same fingerprint and
    the same model name. *)
Lemma durable_get_validates (w : World)
  (className methodName content modelName : string)
  (es : PersistentAnalysisCache.entries) (st : State) (r : ref) :
  fst (fst (PersistentAnalysisCache.get w className methodName content
              modelName es st)) = Some r ->
  exists entry,
    JsMap.get (PersistentAnalysisCache.getCacheKey className methodName) es
    = Some entry
    /\ PersistentCacheEntry.analysis entry = r
    /\ PersistentCacheEntry.contentHash entry = sha256 w content
    /\ PersistentCacheEntry.modelName entry = modelName.
Proof.
  unfold PersistentAnalysisCache.get,
         PersistentAnalysisCache.calculateContentHash.
  destruct (JsMap.get _ es) as [entry|]; [|discriminate].
  destruct (String.eqb (PersistentCacheEntry.contentHash entry) (sha256 w content))
    eqn:Ehash; [|discriminate].
  destruct (String.eqb (PersistentCacheEntry.modelName entry) modelName)
    eqn:Emodel; [|discriminate].
  simpl. destruct (_ <? _)%Z; [discriminate|]. simpl.
  intros [= <-]. exists entry.
  apply String.eqb_eq in Ehash, Emodel. auto.
Qed.

(** C3 at a failing input.  The durable tier never returns an entry stored
    for another fingerprint.  The session tier does: [A.f] is analyzed in the
    world [leaf]; its source is then edited (the world [leafEdited], where
    the fingerprint of the file differs); the next request returns the
    first analysis, with the fingerprint of the old source, and the oracle
    is not asked again. *)
Theorem stale_analysis_after_edit :
  (forall (w : World) (className methodName content modelName : string)
          (es : PersistentAnalysisCache.entries) (st : State) (r : ref),
      fst (fst (PersistentAnalysisCache.get w className methodName content
                  modelName es st)) = Some r ->
      exists entry,
        JsMap.get (PersistentAnalysisCache.getCacheKey className methodName) es
        = Some entry
        /\ PersistentCacheEntry.contentHash entry = sha256 w content)
  /\ exists r st1 st2,
       analyzeMethod Scenario.leaf 1 "A" "f" AnalysisConfig.none
                     (Scenario.fresh true) = Some (r, st1)
       /\ analyzeMethod Scenario.leafEdited 1 "A" "f" AnalysisConfig.none st1
          = Some (r, st2)
       /\ Scenario.asked st2 = ["A#f"]
       /\ MethodAnalysis.contentHash (deref r st2)
          = generateContentHash Scenario.leaf
              (Scenario.sourceV1 (Scenario.pathOf "A"))
       /\ generateContentHash Scenario.leafEdited
            (Scenario.sourceV2 (Scenario.pathOf "A"))
          <> MethodAnalysis.contentHash (deref r st2).
Proof.
  split.
  - intros w className methodName content modelName es st r H.
    destruct (durable_get_validates _ _ _ _ _ _ _ _ H)
      as [entry [Hget [_ [Hhash _]]]].
    exists entry. auto.
  - do 3 eexists. split; [vm_compute; reflexivity|].
    split; [vm_compute; reflexivity|].
    split; [vm_compute; reflexivity|].
    split; [vm_compute; reflexivity | vm_compute; discriminate].
Qed.

(** C8 at a failing input.  [Child extends Base] and [run] is defined on
    [Base] only: the oracle reports it missing from [Child] and names
    [Base].  The analysis returned for [Child.run] is [complete] and its
    [className] is [Base]; its [inheritedFrom] is [Child], the class asked
    for, not the ancestor where the method was found. *)
Theorem inheritedFrom_is_requested_class :
  exists r st,
    analyzeMethod Scenario.inheritance 2 "Child" "run" AnalysisConfig.none
                  (Scenario.fresh false) = Some (r, st)
    /\ MethodAnalysis.analysisStatus (deref r st) = AnalysisStatus.complete
    /\ MethodAnalysis.className (deref r st) = "Base"
    /\ MethodAnalysis.methodName (deref r st) = "run"
    /\ MethodAnalysis.inheritedFrom (deref r st) = Some "Child"
    /\ Scenario.asked st = ["Child#run"; "Base#run"].
Proof.
  do 2 eexists. split; [vm_compute; reflexivity|].
  repeat split.
Qed.

(* ================================================================== *)
(** * Failures of [analyzeMethod] *)
(* ================================================================== *)







Lemma deleteKeys_subset (keys : list string)
  (es : PersistentAnalysisCache.entries)
  (kv : string * PersistentCacheEntry.t) :
  In kv (PersistentAnalysisCache.deleteKeys keys es) -> In kv es.
Proof.
  unfold PersistentAnalysisCache.deleteKeys. revert es.
  induction keys as [|k keys IH]; intros es; simpl; [auto|].
  intros H. apply IH in H. eapply JsMap_In_delete. exact H.
Qed.







(** The class is not in the workspace: the failure is thrown before the
    oracle is reached. *)
Lemma analyzeMethodTry_class_not_found (w : World) (fuel : nat)
  (className methodName : string) (finalConfig : AnalysisConfig.t)
  (startTime : Z) (st : State) :
  findClassOrSymbol w className = Ok [] ->
  analyzeMethodTry w fuel className methodName finalConfig startTime st
  = Some (Raise (JsError ("Class " ++ className ++ " not found in workspace")),
          st).
Proof.
  intros Hfind. unfold analyzeMethodTry, getFileInfo, bind.
  rewrite Hfind. reflexivity.
Qed.





(* ================================================================== *)
(** * The session under the recursion controller *)
(* ================================================================== *)

Lemma SessionStep_refl (s : AnalysisSession.t) : SessionStep s s.
Proof.
  constructor; auto.
  exists []. rewrite app_nil_r. simpl. auto.
Qed.

Lemma SessionStep_trans (s1 s2 s3 : AnalysisSession.t) :
  SessionStep s1 s2 -> SessionStep s2 s3 -> SessionStep s1 s3.
Proof.
  intros [Hc1 Hk1 [a1 [Hv1 [Ht1 Hn1]]] Hb1] [Hc2 Hk2 [a2 [Hv2 [Ht2 Hn2]]] Hb2].
  constructor.
  - congruence.
  - congruence.
  - exists (a1 ++ a2)%list.
    split; [rewrite Hv2, Hv1, app_assoc; reflexivity|].
    split; [rewrite Ht2, Ht1, length_app; lia | auto].
  - intros H. rewrite Hc1 in Hb2. auto.
Qed.

Lemma removelast_snoc {A : Type} (l : list A) (x : A) :
  removelast (l ++ [x]) = l.
Proof. apply removelast_last. Qed.

(** A method is entered, its calls are processed, and it is left. *)
Lemma SessionStep_enter_leave (className methodName : string) (depth : nat)
  (s s' : AnalysisSession.t) :
  JsSet.has (methodKeyOf className methodName)
            (AnalysisSession.analyzedMethods s) = false ->
  AnalysisSession.totalMethodsAnalyzed s
    < AnalysisConfig.maxTotalMethods (AnalysisSession.config s) ->
  SessionStep (enter className methodName depth s) s' ->
  SessionStep s (leave s')
  /\ In (methodKeyOf className methodName)
        (AnalysisSession.analyzedMethods (leave s'))
  /\ AnalysisSession.totalMethodsAnalyzed s
     < AnalysisSession.totalMethodsAnalyzed (leave s').
Proof.
  intros Hhas Hbudget [Hc Hk [added [Hv [Ht Hn]]] Hb].
  unfold enter, JsSet.add in *. fold (methodKeyOf className methodName) in *.
  rewrite Hhas in *. simpl in *.
  split; [|split].
  - constructor; simpl.
    + exact Hc.
    + rewrite Hk. apply removelast_snoc.
    + exists (methodKeyOf className methodName :: added).
      split; [rewrite Hv, <- app_assoc; reflexivity|].
      split; [rewrite Ht; simpl; lia|].
      intros Hnodup. apply Hn.
      apply NoDup_app; [exact Hnodup | repeat constructor; simpl; tauto |].
      intros x Hx [<-|[]]. apply JsSet_has_false in Hhas. contradiction.
    + intros _. apply Hb. lia.
  - rewrite Hv. apply in_or_app. left. apply in_or_app. right. left.
    reflexivity.
  - rewrite Ht. lia.
Qed.

(** The loop over the calls, when each inner request is a [SessionStep]. *)
Lemma processMethodCalls_SessionStep
  (rec : string -> string -> AnalysisSession.t -> nat -> State -> option outcome)
  (analysis : ref) (depth : nat) (calls : list MethodCall.t) :
  (forall c m s d st r s' st',
      rec c m s d st = Some (r, s', st') -> SessionStep s s') ->
  forall s st s' st',
    processMethodCalls rec analysis depth calls s st = Some (s', st') ->
    SessionStep s s'.
Proof.
  intros Hrec.
  induction calls as [|call calls IH]; intros s st s' st'; simpl.
  - intros [= <- <-]. apply SessionStep_refl.
  - destruct (rec _ _ s (depth + 1) st) as [[[inner s1] st1]|] eqn:E;
      [|discriminate].
    intros H. eapply SessionStep_trans; [eapply Hrec; exact E|].
    eapply IH. exact H.
Qed.

(** Every request is a [SessionStep]. *)
Lemma analyzeMethodRecursively_SessionStep (w : World) (fuel sfuel : nat) :
  forall className methodName s depth st r s' st',
    analyzeMethodRecursively w fuel sfuel className methodName s depth st
    = Some (r, s', st') ->
    SessionStep s s'.
Proof.
  induction fuel as [|fuel IH];
    intros className methodName s depth st r s' st' H; [discriminate|].
  apply request_cases in H.
  inversion H as [ Hd | out Hd Hhas Hget | Hd Hhas Hb | Hd Hhas Hb Hv
                 | analysis st1 s1 st3 Hd Hhas Hb Hc Hm Ha Hloop ]; subst.
  - apply SessionStep_refl.
  - destruct (InMemoryMethodCache.get w className methodName st)
      as [[entry|] st1]; injection Hget as <- <- <-; apply SessionStep_refl.
  - apply SessionStep_refl.
  - apply SessionStep_refl.
  - apply (SessionStep_enter_leave className methodName depth); try assumption.
    destruct (isCompleteIn r (afterAnalysis r depth st1)).
    + unfold processMethodCallsRecursively in Hloop.
      eapply processMethodCalls_SessionStep; [|exact Hloop].
      intros c m s0 d st0 r0 s0' st0' H0. eapply IH. exact H0.
    + injection Hloop as <- <-. apply SessionStep_refl.
Qed.


(* ================================================================== *)
(** * Termination *)
(* ================================================================== *)

Lemma terminates_ret {A : Type} (a : A) : terminates (ret a).
Proof. intros st. discriminate. Qed.

Lemma terminates_throw {A : Type} (e : exn) : terminates (@throw A e).
Proof. intros st. discriminate. Qed.

Lemma terminates_gets {A : Type} (f : State -> A) : terminates (gets f).
Proof. intros st. discriminate. Qed.

Lemma terminates_modify (f : State -> State) : terminates (modify f).
Proof. intros st. discriminate. Qed.

Lemma terminates_lift {A : Type} (f : State -> A * State) :
  terminates (lift f).
Proof. intros st. unfold lift. destruct (f st). discriminate. Qed.

Lemma terminates_ofRes {A : Type} (r : res A) : terminates (ofRes r).
Proof. destruct r; [apply terminates_ret | apply terminates_throw]. Qed.

Lemma terminates_bind {A B : Type} (m : M A) (k : A -> M B) :
  terminates m ->
  (forall st a st', m st = Some (Ok a, st') -> k a st' <> None) ->
  terminates (bind m k).
Proof.
  intros Hm Hk st. unfold bind. specialize (Hm st).
  destruct (m st) as [[[a|e] st1]|] eqn:E.
  - apply Hk with (st := st). exact E.
  - discriminate.
  - contradiction.
Qed.

Lemma terminates_tryCatch {A : Type} (m : M A) (h : exn -> M A) :
  terminates m -> (forall e, terminates (h e)) -> terminates (tryCatch m h).
Proof.
  intros Hm Hh st. unfold tryCatch. specialize (Hm st).
  destruct (m st) as [[[a|e] st1]|].
  - discriminate.
  - apply Hh.
  - contradiction.
Qed.

Lemma terminates_getFileInfo (w : World) (className : string) :
  terminates (getFileInfo w className).
Proof.
  unfold getFileInfo.
  apply terminates_bind; [apply terminates_ofRes|]. intros _ [|fileUri files] ? _.
  - discriminate.
  - apply terminates_bind; [apply terminates_ofRes|]. intros _ content ? _.
    apply terminates_bind; [apply terminates_lift|]. intros _ now ? _.
    discriminate.
Qed.

Lemma terminates_selectLanguageModel (w : World) :
  terminates (selectLanguageModel w).
Proof.
  unfold selectLanguageModel.
  apply terminates_bind; [apply terminates_gets|]. intros _ [model|] ? _.
  - discriminate.
  - apply terminates_bind; [apply terminates_ofRes|].
    intros _ [|model [|second models]] ? _.
    + discriminate.
    + apply terminates_bind; [apply terminates_modify|]. discriminate.
    + apply terminates_bind; [apply terminates_ofRes|]. intros _ item ? _.
      apply terminates_bind; [apply terminates_modify|]. discriminate.
Qed.

Lemma askOracle_reply (w : World) (model : LanguageModelChat.t)
  (request : OracleRequest.t) (timeoutMs : Z) (st : State) :
  askOracle w model request timeoutMs st
  = match sendRequest w (oracleLog st) model request timeoutMs with
    | Streams text =>
        Some (Ok text, set_oracleLog (oracleLog st ++ [request])%list st)
    | Rejects e =>
        Some (Raise e, set_oracleLog (oracleLog st ++ [request])%list st)
    | TimesOut =>
        Some (Raise (JsError "Analysis timeout"),
              set_oracleLog (oracleLog st ++ [request])%list st)
    end.
Proof.
  unfold askOracle, bind, gets, modify. simpl.
  destruct (sendRequest w (oracleLog st) model request timeoutMs); reflexivity.
Qed.

(** When the oracle never reports a method as not found, no suggestion is
    followed, and one unit of fuel is enough. *)
Lemma terminates_performMethodAnalysis (w : World)
  (className methodName : string) (fileInfo : FileInfo.t)
  (config : AnalysisConfig.t) :
  oracleFindsAll w ->
  terminates (performMethodAnalysis w 1 className methodName fileInfo config).
Proof.
  intros Hfinds. cbn [performMethodAnalysis].
  apply terminates_bind; [apply terminates_selectLanguageModel|].
  intros st0 model st1 _.
  unfold bind at 1. rewrite askOracle_reply.
  specialize (Hfinds (oracleLog st1) model
                (OracleRequest.mk className methodName
                   (FileInfo.content fileInfo) (FileInfo.language fileInfo))
                (AnalysisConfig.maxAnalysisTimeMs config)).
  destruct (sendRequest w (oracleLog st1) model _ _) as [text|e|];
    try discriminate.
  unfold parseLLMResponse. rewrite Hfinds. simpl.
  unfold bind, ret, lift, Date_now, alloc. simpl. discriminate.
Qed.

Lemma analyzeMethodReturns_of_perform (w : World) (sfuel : nat) :
  (forall className methodName fileInfo config,
      terminates (performMethodAnalysis w sfuel className methodName
                                        fileInfo config)) ->
  analyzeMethodReturns w sfuel.
Proof.
  intros Hperform className methodName config st.
  unfold analyzeMethod.
  destruct (InMemoryMethodCache.get w className methodName st)
    as [[entry|] st1]; [discriminate|].
  destruct (Date_now w st1) as [startTime st2].
  assert (Htry : terminates
                   (analyzeMethodTry w sfuel className methodName
                      (AnalysisConfig.spread ANALYSIS_CONFIG config) startTime)).
  { unfold analyzeMethodTry.
    apply terminates_bind; [apply terminates_getFileInfo|].
    intros _ fileInfo ? _.
    apply terminates_bind.
    - intros st0.
      destruct (persistentCache st0) as [es|];
        [destruct (selectedModel st0) as [model|]|]; try discriminate.
      destruct (PersistentAnalysisCache.get w className methodName
                  (FileInfo.content fileInfo) (getModelDisplayName model) es st0)
        as [[hit es'] st0'].
      discriminate.
    - intros _ [analysis|] ? _.
      + apply terminates_bind; [apply terminates_modify|]. discriminate.
      + apply terminates_bind; [apply Hperform|]. intros _ analysis ? _.
        apply terminates_bind; [apply terminates_modify|]. intros _ _ ? _.
        apply terminates_bind; [apply terminates_modify|]. intros _ _ ? _.
        apply terminates_bind; [apply terminates_modify|]. discriminate. }
  specialize (Htry st2).
  destruct (analyzeMethodTry w sfuel className methodName _ startTime st2)
    as [[[analysis|e] st3]|]; [discriminate| |contradiction].
  destruct (alloc (errorAnalysis className methodName startTime e) st3).
  discriminate.
Qed.

Lemma analyzeMethodReturns_found (w : World) :
  oracleFindsAll w -> analyzeMethodReturns w 1.
Proof.
  intros Hfinds. apply analyzeMethodReturns_of_perform.
  intros. apply terminates_performMethodAnalysis. exact Hfinds.
Qed.

Lemma invalid_guard (w : World) (fuel sfuel : nat)
  (className methodName : string) (session : AnalysisSession.t)
  (depth : nat) (st : State) :
  depth < AnalysisConfig.maxCallStackDepth (AnalysisSession.config session) ->
  JsSet.has (methodKeyOf className methodName)
            (AnalysisSession.analyzedMethods session) = false ->
  AnalysisSession.totalMethodsAnalyzed session
    < AnalysisConfig.maxTotalMethods (AnalysisSession.config session) ->
  isValidIdentifier className && isValidIdentifier methodName = false ->
  analyzeMethodRecursively w (S fuel) sfuel className methodName session depth st
  = Some (fst (createPlaceholderAnalysis w className methodName
                 AnalysisStatus.error "Invalid class or method name" st),
          session,
          snd (createPlaceholderAnalysis w className methodName
                 AnalysisStatus.error "Invalid class or method name" st)).
Proof.
  intros Hd Hhas Hb Hv. cbn [analyzeMethodRecursively].
  apply Nat.leb_gt in Hd. rewrite Hd.
  unfold methodKeyOf in Hhas. rewrite Hhas.
  apply Nat.leb_gt in Hb. rewrite Hb.
  replace (negb (isValidIdentifier className)
           || negb (isValidIdentifier methodName)) with true
    by (rewrite <- negb_andb, Hv; reflexivity).
  destruct (createPlaceholderAnalysis w className methodName
              AnalysisStatus.error "Invalid class or method name" st).
  reflexivity.
Qed.

(** The loop over the calls returns when each inner request does. *)
Lemma processMethodCalls_returns (w : World) (fuel sfuel : nat)
  (analysis : ref) (depth : nat) (calls : list MethodCall.t) :
  (forall c m s st,
      analyzeMethodRecursively w fuel sfuel c m s (depth + 1) st <> None) ->
  forall s st,
    processMethodCalls (analyzeMethodRecursively w fuel sfuel)
                       analysis depth calls s st <> None.
Proof.
  intros Hrec.
  induction calls as [|call calls IH]; intros s st; simpl; [discriminate|].
  specialize (Hrec (MethodCall.className call) (MethodCall.methodName call) s st).
  destruct (analyzeMethodRecursively w fuel sfuel _ _ s (depth + 1) st)
    as [[[inner s1] st1]|]; [apply IH | contradiction].
Qed.

(** The recursion of the controller is bounded by the depth limit: with
    more fuel than levels left, a request returns. *)
Lemma analyzeMethodRecursively_returns (w : World) (sfuel : nat) :
  analyzeMethodReturns w sfuel ->
  forall fuel className methodName s depth st,
    AnalysisConfig.maxCallStackDepth (AnalysisSession.config s) - depth < fuel ->
    analyzeMethodRecursively w fuel sfuel className methodName s depth st
    <> None.
Proof.
  intros Ham.
  assert (Hmain :
    forall limit fuel className methodName s depth st,
      AnalysisConfig.maxCallStackDepth (AnalysisSession.config s) = limit ->
      limit - depth < fuel ->
      analyzeMethodRecursively w fuel sfuel className methodName s depth st
      <> None).
  { intros limit.
    induction fuel as [|fuel IH];
      intros className methodName s depth st Hlimit Hfuel; [lia|].
    destruct (Nat.le_gt_cases
                (AnalysisConfig.maxCallStackDepth (AnalysisSession.config s))
                depth) as [Hd|Hd].
    { rewrite depth_guard by exact Hd. discriminate. }
    destruct (JsSet.has (methodKeyOf className methodName)
                        (AnalysisSession.analyzedMethods s)) eqn:Hhas.
    { rewrite cycle_guard by assumption.
      destruct (InMemoryMethodCache.get w className methodName st)
        as [[entry|] st1]; discriminate. }
    destruct (Nat.le_gt_cases
                (AnalysisConfig.maxTotalMethods (AnalysisSession.config s))
                (AnalysisSession.totalMethodsAnalyzed s)) as [Hb|Hb].
    { rewrite budget_guard by assumption. discriminate. }
    destruct (isValidIdentifier className && isValidIdentifier methodName)
      eqn:Hv.
    2:{ rewrite invalid_guard by assumption. discriminate. }
    apply andb_true_iff in Hv. destruct Hv as [Hc Hm].
    rewrite expansion by assumption.
    specialize (Ham className methodName
                  (AnalysisConfig.full (AnalysisSession.config s)) st).
    destruct (analyzeMethod w sfuel className methodName
                (AnalysisConfig.full (AnalysisSession.config s)) st)
      as [[analysis st1]|]; [|contradiction].
    cbv zeta.
    destruct (isCompleteIn analysis (afterAnalysis analysis depth st1));
      [|discriminate].
    assert (Hloop :
      forall calls t st0,
        AnalysisSession.config t = AnalysisSession.config s ->
        processMethodCalls (analyzeMethodRecursively w fuel sfuel)
                           analysis depth calls t st0 <> None).
    { induction calls as [|call calls IHcalls]; intros t st0 Ht; simpl;
        [discriminate|].
      assert (Hinner :
        analyzeMethodRecursively w fuel sfuel (MethodCall.className call)
          (MethodCall.methodName call) t (depth + 1) st0 <> None).
      { apply IH; [rewrite Ht; exact Hlimit | lia]. }
      destruct (analyzeMethodRecursively w fuel sfuel _ _ t (depth + 1) st0)
        as [[[inner t1] st2]|] eqn:E; [|contradiction].
      apply IHcalls.
      apply analyzeMethodRecursively_SessionStep in E.
      rewrite (step_config _ _ E). exact Ht. }
    unfold processMethodCallsRecursively.
    specialize (Hloop
                  (MethodCallSummary.stepInto
                     (MethodAnalysis.methodCallSummary
                        (deref analysis (afterAnalysis analysis depth st1))))
                  (enter className methodName depth s)
                  (afterAnalysis analysis depth st1) eq_refl).
    destruct (processMethodCalls _ _ _ _ _ _) as [[t st3]|];
      [discriminate | contradiction]. }
  intros fuel className methodName s depth st Hfuel.
  eapply Hmain; [reflexivity | exact Hfuel].
Qed.

(* ================================================================== *)
(** * The scenarios return *)
(* ================================================================== *)

Lemma worldOf_finds_all (time : nat -> Z) (source : string -> string)
  (oracle : string -> string -> string) :
  (forall c m, isMethodNotFound (oracle c m) = false) ->
  oracleFindsAll (Scenario.worldOf time source oracle).
Proof. intros H log model request timeoutMs. simpl. apply H. Qed.

Lemma chain_returns : analyzeMethodReturns Scenario.chain 1.
Proof.
  apply analyzeMethodReturns_found, worldOf_finds_all.
  intros c m. unfold Scenario.chainOracle.
  repeat match goal with
         | |- context [if ?b then _ else _] => destruct b
         end; vm_compute; reflexivity.
Qed.

Lemma selfCall_returns : analyzeMethodReturns Scenario.selfCall 1.
Proof.
  apply analyzeMethodReturns_found, worldOf_finds_all.
  intros c m. unfold Scenario.selfCallOracle.
  destruct (String.eqb c "A"); vm_compute; reflexivity.
Qed.


(* ================================================================== *)
(** * Depth bound and cycle safety *)
(* ================================================================== *)

(** C2, as the code has it.  A request at a depth that is not below
    [maxCallStackDepth] returns a new placeholder, [partial] with the reason
    "Maximum recursion depth reached", and does nothing else: the session is
    as before and the oracle is not asked.  The root is at depth 0, so with
    the limit 2 the chain [A -> B -> C -> D] has [A] and [B] analyzed by the
    oracle and [C] returned as the placeholder; [D] is never requested. *)
Theorem depth_bound :
  (forall (w : World) (fuel sfuel : nat) (className methodName : string)
          (s : AnalysisSession.t) (depth : nat) (st : State),
      AnalysisConfig.maxCallStackDepth (AnalysisSession.config s) <= depth ->
      exists r st',
        analyzeMethodRecursively w (S fuel) sfuel className methodName s depth st
        = Some (r, s, st')
        /\ r = List.length (heap st)
        /\ isPlaceholder AnalysisStatus.partial "Maximum recursion depth reached"
                         className methodName (deref r st')
        /\ oracleLog st' = oracleLog st)
  /\ exists r s st,
       analyzeMethodFlow Scenario.chain 3 1 "A" "f" (Scenario.withMaxDepth 2)
                         (Scenario.fresh false) = Some (r, s, st)
       /\ Scenario.asked st = ["A#f"; "B#g"]
       /\ AnalysisSession.analyzedMethods s = ["A#f"; "B#g"]
       /\ Scenario.digest st
          = [ ("A", "f", AnalysisStatus.complete, None);
              ("B", "g", AnalysisStatus.complete, None);
              ("C", "h", AnalysisStatus.partial,
               Some "Maximum recursion depth reached") ].
Proof.
  split.
  - intros w fuel sfuel className methodName s depth st Hd.
    do 2 eexists. split; [apply depth_guard; exact Hd|].
    pose proof (createPlaceholderAnalysis_spec w className methodName
                  AnalysisStatus.partial "Maximum recursion depth reached" st)
      as H. simpl in H.
    split; [tauto|]. split; [|tauto].
    apply createPlaceholderAnalysis_isPlaceholder.
  - do 3 eexists. split; [vm_compute; reflexivity|]. repeat split.
Qed.

(** The witness of [depth_bound]: in a session with the limit 2, a request
    at depth 2 is answered by a placeholder. *)
Lemma depth_bound_witness :
  exists r st',
    analyzeMethodRecursively Scenario.chain 1 1 "C" "h"
      (Scenario.entered (Scenario.withMaxDepth 2)) 2 Scenario.analyzed
    = Some (r, Scenario.entered (Scenario.withMaxDepth 2), st')
    /\ r = List.length (heap Scenario.analyzed)
    /\ isPlaceholder AnalysisStatus.partial "Maximum recursion depth reached"
                     "C" "h" (deref r st')
    /\ oracleLog st' = oracleLog Scenario.analyzed.
Proof.
  apply (proj1 depth_bound). vm_compute. lia.
Defined.

(** C2 as stated fails: with the limit 2 the oracle is asked about [A.f]
    and [B.g] only; [C.h], at depth 2, is the placeholder, not [D.k]. *)
Lemma depth_bound_chain_counterexample :
  exists r s st,
    analyzeMethodFlow Scenario.chain 3 1 "A" "f" (Scenario.withMaxDepth 2)
                      (Scenario.fresh false) = Some (r, s, st)
    /\ ~ In "C#h" (Scenario.asked st)
    /\ In ("C", "h", AnalysisStatus.partial,
           Some "Maximum recursion depth reached") (Scenario.digest st)
    /\ (forall status message,
           ~ In ("D", "k", status, message) (Scenario.digest st)).
Proof.
  do 3 eexists. split; [vm_compute; reflexivity|].
  split; [|split].
  - vm_compute. intros [H|[H|[]]]; discriminate.
  - vm_compute. auto.
  - intros status message. vm_compute.
    intros [H|[H|[H|[]]]]; discriminate.
Qed.

(** C4, as the code has it.  Below the depth limit, a request for a method
    that is in the visited set returns at once: the entry of the session
    tier when the tier has a live one, else a new placeholder, [partial]
    with the reason "Circular dependency detected"; the session is as
    before and the oracle is not asked.  (At or beyond the depth limit the
    depth placeholder is returned instead.)  The nesting of the requests is
    bounded by the depth limit, so the analysis of any call graph returns
    once each [analyzeMethod] does; every method of the visited set is
    counted once; and for [A.f] that calls itself the count is 1 and the
    oracle is asked once. *)
Theorem cycle_safety :
  (forall (w : World) (fuel sfuel : nat) (className methodName : string)
          (s : AnalysisSession.t) (depth : nat) (st : State),
      depth < AnalysisConfig.maxCallStackDepth (AnalysisSession.config s) ->
      JsSet.has (methodKeyOf className methodName)
                (AnalysisSession.analyzedMethods s) = true ->
      exists r st',
        analyzeMethodRecursively w (S fuel) sfuel className methodName s depth st
        = Some (r, s, st')
        /\ oracleLog st' = oracleLog st
        /\ match fst (InMemoryMethodCache.get w className methodName st) with
           | Some entry => r = CacheEntry.analysis entry
           | None =>
               isPlaceholder AnalysisStatus.partial
                             "Circular dependency detected"
                             className methodName (deref r st')
           end)
  /\ (forall (w : World) (sfuel : nat),
         analyzeMethodReturns w sfuel ->
         forall (className methodName : string) (s : AnalysisSession.t)
                (depth : nat) (st : State),
         exists out,
           analyzeMethodRecursively w
             (S (AnalysisConfig.maxCallStackDepth (AnalysisSession.config s)
                 - depth))
             sfuel className methodName s depth st
           = Some out)
  /\ (forall (w : World) (fuel sfuel : nat) (className methodName : string)
             (s : AnalysisSession.t) (depth : nat) (st : State)
             (r : ref) (s' : AnalysisSession.t) (st' : State),
         analyzeMethodRecursively w fuel sfuel className methodName s depth st
         = Some (r, s', st') ->
         NoDup (AnalysisSession.analyzedMethods s) ->
         AnalysisSession.totalMethodsAnalyzed s
         = List.length (AnalysisSession.analyzedMethods s) ->
         NoDup (AnalysisSession.analyzedMethods s')
         /\ AnalysisSession.totalMethodsAnalyzed s'
            = List.length (AnalysisSession.analyzedMethods s'))
  /\ exists r s st,
       analyzeMethodFlow Scenario.selfCall 6 1 "A" "f" AnalysisConfig.none
                         (Scenario.fresh false) = Some (r, s, st)
       /\ AnalysisSession.totalMethodsAnalyzed s = 1
       /\ AnalysisSession.analyzedMethods s = ["A#f"]
       /\ Scenario.asked st = ["A#f"]
       /\ Scenario.digest st = [("A", "f", AnalysisStatus.complete, None)].
Proof.
  split; [|split; [|split]].
  - intros w fuel sfuel className methodName s depth st Hd Hhas.
    rewrite cycle_guard by assumption.
    pose proof (cache_get_frame w className methodName st) as Hframe.
    simpl in Hframe.
    destruct (InMemoryMethodCache.get w className methodName st)
      as [[entry|] st1]; simpl in *.
    + do 2 eexists. split; [reflexivity|]. split; [tauto | reflexivity].
    + do 2 eexists. split; [reflexivity|].
      pose proof (createPlaceholderAnalysis_spec w className methodName
                    AnalysisStatus.partial "Circular dependency detected" st1)
        as H. simpl in H.
      split; [|apply createPlaceholderAnalysis_isPlaceholder].
      transitivity (oracleLog st1); tauto.
  - intros w sfuel Ham className methodName s depth st.
    pose proof (analyzeMethodRecursively_returns w sfuel Ham
                  (S (AnalysisConfig.maxCallStackDepth (AnalysisSession.config s)
                      - depth))
                  className methodName s depth st (Nat.lt_succ_diag_r _)) as H.
    destruct (analyzeMethodRecursively w _ sfuel className methodName s depth st)
      as [out|]; [exists out; reflexivity | contradiction].
  - intros w fuel sfuel className methodName s depth st r s' st' H Hnodup Hcount.
    apply analyzeMethodRecursively_SessionStep in H.
    destruct H as [_ _ [added [Hv [Ht Hn]]] _].
    split; [auto|]. rewrite Hv, Ht, Hcount, length_app. reflexivity.
  - do 3 eexists. split; [vm_compute; reflexivity|]. repeat split.
Qed.

(** The witness of [cycle_safety]: [A.f] is entered and analyzed, and its
    call to itself, at depth 1 of 5, is answered by the analysis the
    session tier holds, object 0. *)
Lemma cycle_safety_witness :
  (exists r st',
      analyzeMethodRecursively Scenario.selfCall 1 1 "A" "f"
        (Scenario.entered AnalysisConfig.none) 1 Scenario.analyzed
      = Some (r, Scenario.entered AnalysisConfig.none, st')
      /\ oracleLog st' = oracleLog Scenario.analyzed
      /\ r = 0)
  /\ (exists out,
         analyzeMethodRecursively Scenario.selfCall
           (S (AnalysisConfig.maxCallStackDepth
                 (AnalysisSession.config (Scenario.entered AnalysisConfig.none))
               - 1))
           1 "A" "f" (Scenario.entered AnalysisConfig.none) 1 Scenario.analyzed
         = Some out).
Proof.
  split.
  - assert (Hd : 1 < AnalysisConfig.maxCallStackDepth
                       (AnalysisSession.config
                          (Scenario.entered AnalysisConfig.none)))
      by (vm_compute; lia).
    destruct (proj1 cycle_safety Scenario.selfCall 0 1 "A" "f"
                (Scenario.entered AnalysisConfig.none) 1 Scenario.analyzed
                Hd eq_refl)
      as [r [st' [Hrun [Hlog Hr]]]].
    exists r, st'. repeat split; assumption.
  - exact (proj1 (proj2 cycle_safety) Scenario.selfCall 1 selfCall_returns
             "A" "f" (Scenario.entered AnalysisConfig.none) 1
             Scenario.analyzed).
Defined.

(** C4 as stated fails: with the limit 1, the call of [A.f] to itself is a
    request at depth 1 for a method of the visited set, whose analysis the
    session tier holds; what is returned is neither that analysis nor a
    "Circular dependency detected" placeholder, but the depth
    placeholder. *)
Lemma cycle_safety_depth_counterexample :
  exists entry r st',
    JsSet.has (methodKeyOf "A" "f")
      (AnalysisSession.analyzedMethods
         (Scenario.entered (Scenario.withMaxDepth 1))) = true
    /\ fst (InMemoryMethodCache.get Scenario.selfCall "A" "f" Scenario.analyzed)
       = Some entry
    /\ analyzeMethodRecursively Scenario.selfCall 1 1 "A" "f"
         (Scenario.entered (Scenario.withMaxDepth 1)) 1 Scenario.analyzed
       = Some (r, Scenario.entered (Scenario.withMaxDepth 1), st')
    /\ r <> CacheEntry.analysis entry
    /\ MethodAnalysis.errorMessage (deref r st')
       = Some "Maximum recursion depth reached".
Proof.
  do 3 eexists. split; [vm_compute; reflexivity|].
  split; [vm_compute; reflexivity|].
  split; [vm_compute; reflexivity|].
  split; [vm_compute; discriminate | vm_compute; reflexivity].
Qed.

(* ================================================================== *)
(** * The budget *)
(* ================================================================== *)









(* ================================================================== *)
(** * The linear flow *)
(* ================================================================== *)

Lemma Segment_sources (d : nat) (key : string)
  (seg : list LinearExecutionStep.t) (s : LinearExecutionStep.t) :
  Segment d key seg -> In s seg ->
  LinearExecutionStep.sourceMethod s = key /\ LinearExecutionStep.depth s = d.
Proof.
  intros [first [mid [last [_ [_ [_ [_ Hall]]]]]]] Hin.
  rewrite Forall_forall in Hall. apply Hall. exact Hin.
Qed.




Lemma start_is_boundary (s : LinearExecutionStep.t) :
  LinearExecutionStep.stepType s = LinearStepType.methodStart ->
  isBoundary s = true.
Proof. unfold isBoundary. intros ->. reflexivity. Qed.




Lemma NumberedFrom_app (n : nat) (a b : list LinearExecutionStep.t) :
  NumberedFrom n a -> NumberedFrom (n + List.length a) b ->
  NumberedFrom n (a ++ b).
Proof.
  unfold NumberedFrom. intros Ha Hb.
  rewrite map_app, length_app, seq_app, Ha, Hb. reflexivity.
Qed.

(** The [methodCall] steps of a block. *)
Lemma pushStep_calls (d : nat) (key : string) (calls : list MethodCall.t) :
  forall steps n,
  exists added,
    fold_left
      (fun acc methodCall =>
         pushStep d key (callDescription methodCall)
                  LinearStepType.methodCall None acc)
      calls (steps, n)
    = ((steps ++ added)%list, n + List.length added)
    /\ NumberedFrom n added
    /\ Forall (fun s => isBoundary s = false) added
    /\ Forall (StepOf d key) added.
Proof.
  induction calls as [|call calls IH]; intros steps n; simpl.
  - exists []. rewrite app_nil_r, Nat.add_0_r.
    repeat split; constructor.
  - unfold pushStep at 2. simpl.
    destruct (IH (steps ++ [LinearExecutionStep.mk (S n) d key
                              (callDescription call)
                              LinearStepType.methodCall None])%list (S n))
      as [added [Heq [Hnum [Hmid Hof]]]].
    exists (LinearExecutionStep.mk (S n) d key (callDescription call)
              LinearStepType.methodCall None :: added).
    rewrite Heq, <- app_assoc. simpl.
    split; [f_equal; lia|].
    split; [|split].
    + unfold NumberedFrom in *. simpl. rewrite Hnum. reflexivity.
    + constructor; [reflexivity|exact Hmid].
    + constructor; [split; reflexivity|exact Hof].
Qed.

Lemma pushBlock_steps (d : nat) (key : string) (block : ExecutionBlock.t)
  (steps : list LinearExecutionStep.t) (n : nat) :
  exists added,
    pushBlock d key (steps, n) block
    = ((steps ++ added)%list, n + List.length added)
    /\ NumberedFrom n added
    /\ Forall (fun s => isBoundary s = false) added
    /\ Forall (StepOf d key) added.
Proof.
  unfold pushBlock. unfold pushStep at 2. simpl.
  destruct (pushStep_calls d key (ExecutionBlock.methodCalls block)
              (steps ++ [LinearExecutionStep.mk (S n) d key
                           (ExecutionBlock.description block)
                           LinearStepType.execution
                           (Some (ExecutionBlock.blockId block))])%list (S n))
    as [added [Heq [Hnum [Hmid Hof]]]].
  exists (LinearExecutionStep.mk (S n) d key
            (ExecutionBlock.description block) LinearStepType.execution
            (Some (ExecutionBlock.blockId block)) :: added).
  rewrite Heq, <- app_assoc. simpl.
  split; [f_equal; lia|].
  split; [|split].
  - unfold NumberedFrom in *. simpl. rewrite Hnum. reflexivity.
  - constructor; [reflexivity|exact Hmid].
  - constructor; [split; reflexivity|exact Hof].
Qed.

Lemma pushBlock_blocks (d : nat) (key : string)
  (blocks : list ExecutionBlock.t) :
  forall steps n,
  exists added,
    fold_left (pushBlock d key) blocks (steps, n)
    = ((steps ++ added)%list, n + List.length added)
    /\ NumberedFrom n added
    /\ Forall (fun s => isBoundary s = false) added
    /\ Forall (StepOf d key) added.
Proof.
  induction blocks as [|block blocks IH]; intros steps n; simpl.
  - exists []. rewrite app_nil_r, Nat.add_0_r.
    repeat split; constructor.
  - destruct (pushBlock_steps d key block steps n)
      as [a [Ha [Hnuma [Hmida Hofa]]]].
    rewrite Ha.
    destruct (IH (steps ++ a)%list (n + List.length a))
      as [b [Hb [Hnumb [Hmidb Hofb]]]].
    exists (a ++ b)%list. rewrite Hb, <- app_assoc, length_app.
    split; [f_equal; lia|].
    split; [|split].
    + apply NumberedFrom_app; assumption.
    + apply Forall_app. split; assumption.
    + apply Forall_app. split; assumption.
Qed.

(** A method that is in [methodReferences] is not emitted again. *)
Lemma addMethodToLinearFlow_known (analysis : ref) (d : nat) (st : State)
  (f : LinearExecutionFlow.t) :
  linearFlow st = Some f ->
  JsMap.has (flowKey analysis st) (LinearExecutionFlow.methodReferences f)
  = true ->
  addMethodToLinearFlow analysis d st = st.
Proof.
  intros Hf Hhas. unfold addMethodToLinearFlow. rewrite Hf.
  unfold flowKey in Hhas. rewrite Hhas. reflexivity.
Qed.

(** A method that is not in [methodReferences] is emitted as one segment. *)
Lemma addMethodToLinearFlow_new (analysis : ref) (d : nat) (st : State)
  (f : LinearExecutionFlow.t) :
  linearFlow st = Some f ->
  JsMap.has (flowKey analysis st) (LinearExecutionFlow.methodReferences f)
  = false ->
  exists seg,
    linearFlow (addMethodToLinearFlow analysis d st)
    = Some (LinearExecutionFlow.mk
              (LinearExecutionFlow.steps f ++ seg)%list
              (JsMap.set (flowKey analysis st) analysis
                         (LinearExecutionFlow.methodReferences f))
              (LinearExecutionFlow.totalSteps f + List.length seg)
              (LinearExecutionFlow.rootMethod f))
    /\ Segment d (flowKey analysis st) seg
    /\ NumberedFrom (LinearExecutionFlow.totalSteps f) seg.
Proof.
  intros Hf Hhas. unfold addMethodToLinearFlow. rewrite Hf.
  unfold flowKey in *. rewrite Hhas.
  set (key := MethodAnalysis.className (deref analysis st) ++ "."
              ++ MethodAnalysis.methodName (deref analysis st)) in *.
  cbv zeta.
  set (acc1 := pushStep d key _ LinearStepType.methodStart None _).
  set (first := LinearExecutionStep.mk
                  (S (LinearExecutionFlow.totalSteps f)) d key
                  (MethodAnalysis.className (deref analysis st) ++ "."
                   ++ MethodAnalysis.methodName (deref analysis st)
                   ++ "() starts")
                  LinearStepType.methodStart None).
  assert (Hacc1 : acc1 = ((LinearExecutionFlow.steps f ++ [first])%list,
                          S (LinearExecutionFlow.totalSteps f))).
  { reflexivity. }
  clearbody acc1. subst acc1.
  destruct (pushBlock_blocks d key
              (MethodAnalysis.executionBlocks (deref analysis st))
              (LinearExecutionFlow.steps f ++ [first])%list
              (S (LinearExecutionFlow.totalSteps f)))
    as [mid [Hmid [Hnum [Hinner Hof]]]].
  rewrite Hmid. unfold pushStep. cbn [fst snd linearFlow set_linearFlow].
  set (last := LinearExecutionStep.mk _ d key _ LinearStepType.methodEnd None).
  exists (first :: mid ++ [last])%list.
  split; [|split].
  - f_equal. f_equal.
    + rewrite <- !app_assoc. reflexivity.
    + simpl. rewrite length_app. simpl. lia.
  - exists first, mid, last. repeat split; try assumption.
    constructor; [split; reflexivity|].
    apply Forall_app. split; [exact Hof|].
    constructor; [split; reflexivity|constructor].
  - change (first :: mid ++ [last])%list with ([first] ++ (mid ++ [last]))%list.
    apply NumberedFrom_app; [reflexivity|].
    apply NumberedFrom_app.
    + simpl. rewrite Nat.add_1_r. exact Hnum.
    + simpl. unfold NumberedFrom. simpl. do 2 f_equal. lia.
Qed.







(** The [methodReturn] step: emitted when the inner analysis is complete,
    at the depth of the caller and in its name, with the next number. *)
Lemma addReturnStep_steps (analysis : ref) (methodCall : MethodCall.t)
  (inner : ref) (d : nat) (st : State) (f : LinearExecutionFlow.t) :
  linearFlow st = Some f ->
  exists f' returned,
    linearFlow (addReturnStep analysis methodCall inner d st) = Some f'
    /\ LinearExecutionFlow.steps f'
       = (LinearExecutionFlow.steps f ++ returned)%list
    /\ LinearExecutionFlow.totalSteps f'
       = LinearExecutionFlow.totalSteps f + List.length returned
    /\ LinearExecutionFlow.methodReferences f'
       = LinearExecutionFlow.methodReferences f
    /\ if isCompleteIn inner st
       then exists step,
              returned = [step]
              /\ LinearExecutionStep.stepType step = LinearStepType.methodReturn
              /\ LinearExecutionStep.depth step = d
              /\ LinearExecutionStep.sourceMethod step = flowKey analysis st
              /\ LinearExecutionStep.stepNumber step
                 = S (LinearExecutionFlow.totalSteps f)
       else returned = [].
Proof.
  intros Hf. unfold addReturnStep, isCompleteIn. rewrite Hf.
  destruct (AnalysisStatus.eqb _ _).
  - eexists. eexists. split; [reflexivity|]. simpl.
    split; [reflexivity|]. split; [simpl; lia|]. split; [reflexivity|].
    eexists. split; [reflexivity|]. repeat split.
  - exists f, []. rewrite app_nil_r, Nat.add_0_r. repeat split; auto.
Qed.











(** The flow of the run on the chain with the depth limit 2: the steps of
    [B.g] come after the [methodEnd] of [A.f], not after its [methodCall]
    step. *)
Lemma chain_flow_trace :
  exists r s st,
    analyzeMethodFlow Scenario.chain 5 1 "A" "f" (Scenario.withMaxDepth 2)
                      (Scenario.fresh false) = Some (r, s, st)
    /\ Scenario.trace st
       = [ (1, 0, "A.f", LinearStepType.methodStart);
           (2, 0, "A.f", LinearStepType.execution);
           (3, 0, "A.f", LinearStepType.methodCall);
           (4, 0, "A.f", LinearStepType.methodEnd);
           (5, 1, "B.g", LinearStepType.methodStart);
           (6, 1, "B.g", LinearStepType.execution);
           (7, 1, "B.g", LinearStepType.methodCall);
           (8, 1, "B.g", LinearStepType.methodEnd);
           (9, 0, "A.f", LinearStepType.methodReturn) ].
Proof.
  do 3 eexists. split; vm_compute; reflexivity.
Qed.

(* ================================================================== *)
(** * More properties: the in-memory cache *)
(* ================================================================== *)

Lemma JsMap_size_delete_le {V : Type} (k : string) (m : JsMap.t V) :
  JsMap.size (JsMap.delete k m) <= JsMap.size m.
Proof.
  unfold JsMap.size. induction m as [|[k' v] m IH]; simpl; [lia|].
  destruct (String.eqb k' k); simpl; lia.
Qed.

Lemma JsMap_size_delete {V : Type} (k : string) (v : V) (m : JsMap.t V) :
  JsMap.get k m = Some v ->
  S (JsMap.size (JsMap.delete k m)) = JsMap.size m.
Proof.
  unfold JsMap.size. induction m as [|[k' v'] m IH]; simpl; [discriminate|].
  destruct (String.eqb k' k); simpl; [reflexivity|].
  intros H. rewrite (IH H). reflexivity.
Qed.

Lemma JsMap_size_set_le {V : Type} (k : string) (v : V) (m : JsMap.t V) :
  JsMap.size (JsMap.set k v m) <= S (JsMap.size m).
Proof.
  unfold JsMap.size. induction m as [|[k' v'] m IH]; simpl; [lia|].
  destruct (String.eqb k' k); simpl; lia.
Qed.

Lemma JsMap_size_set_present {V : Type} (k : string) (v v0 : V)
  (m : JsMap.t V) :
  JsMap.get k m = Some v0 -> JsMap.size (JsMap.set k v m) = JsMap.size m.
Proof.
  unfold JsMap.size. induction m as [|[k' v'] m IH]; simpl; [discriminate|].
  destruct (String.eqb k' k); simpl; [reflexivity|].
  intros H. rewrite (IH H). reflexivity.
Qed.

Lemma JsMap_keys_set {V : Type} (k : string) (v : V) (m : JsMap.t V)
  (k' : string) :
  In k' (map fst (JsMap.set k v m)) -> k' = k \/ In k' (map fst m).
Proof.
  induction m as [|[k0 v0] m IH]; simpl.
  - intros [<-|[]]. auto.
  - destruct (String.eqb k0 k) eqn:E; simpl.
    + intros [<-|H]; auto.
    + intros [<-|H]; auto. destruct (IH H); auto.
Qed.

Lemma JsMap_keys_delete {V : Type} (k : string) (m : JsMap.t V)
  (k' : string) :
  In k' (map fst (JsMap.delete k m)) -> In k' (map fst m).
Proof.
  induction m as [|[k0 v0] m IH]; simpl; [tauto|].
  destruct (String.eqb k0 k); simpl; [auto|].
  intros [<-|H]; auto.
Qed.

Lemma JsMap_wf_set {V : Type} (k : string) (v : V) (m : JsMap.t V) :
  JsMap_wf m -> JsMap_wf (JsMap.set k v m).
Proof.
  unfold JsMap_wf. induction m as [|[k0 v0] m IH]; simpl; intros Hwf.
  - constructor; [intros []|constructor].
  - inversion Hwf as [|? ? Hnotin Hrest]; subst.
    destruct (String.eqb k0 k) eqn:E; simpl.
    + apply String.eqb_eq in E. subst k0. constructor; assumption.
    + constructor; [|apply IH; exact Hrest].
      intros Hin. apply JsMap_keys_set in Hin. destruct Hin as [->|Hin].
      * rewrite String.eqb_refl in E. discriminate.
      * contradiction.
Qed.

Lemma JsMap_wf_delete {V : Type} (k : string) (m : JsMap.t V) :
  JsMap_wf m -> JsMap_wf (JsMap.delete k m).
Proof.
  unfold JsMap_wf. induction m as [|[k0 v0] m IH]; simpl; intros Hwf.
  - constructor.
  - inversion Hwf as [|? ? Hnotin Hrest]; subst.
    destruct (String.eqb k0 k); simpl; [exact Hrest|].
    constructor; [|apply IH; exact Hrest].
    intros Hin. apply JsMap_keys_delete in Hin. contradiction.
Qed.

Lemma JsMap_wf_filter {V : Type} (p : string * V -> bool) (m : JsMap.t V) :
  JsMap_wf m -> JsMap_wf (filter p m).
Proof.
  unfold JsMap_wf. induction m as [|[k0 v0] m IH]; simpl; intros Hwf.
  - constructor.
  - inversion Hwf as [|? ? Hnotin Hrest]; subst.
    destruct (p (k0, v0)); simpl; [|apply IH; exact Hrest].
    constructor; [|apply IH; exact Hrest].
    intros Hin. apply Hnotin.
    apply in_map_iff in Hin. destruct Hin as [[k1 v1] [Hk Hin]].
    apply filter_In in Hin. apply in_map_iff. exists (k1, v1). tauto.
Qed.

Lemma JsMap_get_keys {V : Type} (k : string) (m : JsMap.t V) :
  ~ In k (map fst m) -> JsMap.get k m = None.
Proof.
  induction m as [|[k0 v0] m IH]; simpl; [reflexivity|].
  intros Hnotin. destruct (String.eqb k0 k) eqn:E.
  - apply String.eqb_eq in E. subst. exfalso. apply Hnotin. auto.
  - apply IH. intros Hin. apply Hnotin. auto.
Qed.

Lemma JsMap_get_delete_same {V : Type} (k : string) (m : JsMap.t V) :
  JsMap_wf m -> JsMap.get k (JsMap.delete k m) = None.
Proof.
  unfold JsMap_wf. induction m as [|[k0 v0] m IH]; simpl; intros Hwf.
  - reflexivity.
  - inversion Hwf as [|? ? Hnotin Hrest]; subst.
    destruct (String.eqb k0 k) eqn:E; simpl.
    + apply String.eqb_eq in E. subst. apply JsMap_get_keys. exact Hnotin.
    + rewrite E. apply IH. exact Hrest.
Qed.

Lemma JsMap_get_delete_other {V : Type} (k k' : string) (m : JsMap.t V) :
  k' <> k -> JsMap.get k' (JsMap.delete k m) = JsMap.get k' m.
Proof.
  intros Hne. induction m as [|[k0 v0] m IH]; simpl; [reflexivity|].
  destruct (String.eqb k0 k) eqn:E; simpl.
  - apply String.eqb_eq in E. subst.
    destruct (String.eqb k k') eqn:E'; [|reflexivity].
    apply String.eqb_eq in E'. congruence.
  - rewrite IH. reflexivity.
Qed.

Lemma JsMap_In_get {V : Type} (k : string) (v : V) (m : JsMap.t V) :
  JsMap_wf m -> In (k, v) m -> JsMap.get k m = Some v.
Proof.
  unfold JsMap_wf. induction m as [|[k0 v0] m IH]; simpl; intros Hwf Hin.
  - destruct Hin.
  - inversion Hwf as [|? ? Hnotin Hrest]; subst.
    destruct Hin as [[= -> ->]|Hin].
    + rewrite String.eqb_refl. reflexivity.
    + destruct (String.eqb k0 k) eqn:E.
      * apply String.eqb_eq in E. subst. exfalso. apply Hnotin.
        apply in_map_iff. exists (k, v). auto.
      * apply IH; assumption.
Qed.

(** A filter on the keys leaves the other lookups as they were. *)
Lemma JsMap_get_filter_keys {V : Type} (q : string -> bool) (k : string)
  (m : JsMap.t V) :
  JsMap.get k (filter (fun kv => q (fst kv)) m)
  = if q k then JsMap.get k m else None.
Proof.
  induction m as [|[k0 v0] m IH]; simpl.
  - destruct (q k); reflexivity.
  - destruct (q k0) eqn:Eq0; simpl.
    + destruct (String.eqb k0 k) eqn:E.
      * apply String.eqb_eq in E. subst. rewrite Eq0. reflexivity.
      * exact IH.
    + destruct (String.eqb k0 k) eqn:E.
      * apply String.eqb_eq in E. subst. rewrite Eq0 in *. exact IH.
      * exact IH.
Qed.

(** A filter that keeps the entry of [k] keeps the lookup of [k]. *)
Lemma JsMap_get_filter_kept {V : Type} (p : string * V -> bool) (k : string)
  (v : V) (m : JsMap.t V) :
  JsMap.get k m = Some v -> p (k, v) = true ->
  JsMap.get k (filter p m) = Some v.
Proof.
  induction m as [|[k0 v0] m IH]; simpl; [discriminate|].
  destruct (String.eqb k0 k) eqn:E.
  - apply String.eqb_eq in E. subst. intros [= ->] Hp. rewrite Hp. simpl.
    rewrite String.eqb_refl. reflexivity.
  - intros Hget Hp. destruct (p (k0, v0)); simpl; [rewrite E|]; auto.
Qed.

Lemma evictOldest_frame (st : State) :
  let st' := InMemoryMethodCache.evictOldest st in
  ticks st' = ticks st /\ cacheConfig st' = cacheConfig st
  /\ heap st' = heap st
  /\ CacheStats.hitCount (stats st') = CacheStats.hitCount (stats st)
  /\ CacheStats.missCount (stats st') = CacheStats.missCount (stats st).
Proof.
  unfold InMemoryMethodCache.evictOldest.
  destruct (_ <? _)%nat; [repeat split|].
  destruct (InMemoryMethodCache.findOldest _ _ _); repeat split.
Qed.

Lemma getCacheKey_not_empty (className methodName : string) :
  InMemoryMethodCache.getCacheKey className methodName <> EmptyString.
Proof.
  unfold InMemoryMethodCache.getCacheKey.
  destruct className; simpl; discriminate.
Qed.

(** X1.  What [set] stores is what [get] returns: right after
    [set(className, methodName, analysis)], and unless the clock has moved
    on by more than [expiryMs] in between, [get] returns the entry of
    [analysis], stamped with the time of the [set], read once; the lookup is
    counted as a hit. *)
Theorem cache_set_then_get (w : World) (className methodName : string)
  (analysis : ref) (st : State) :
  (clock w (S (ticks st)) - clock w (ticks st)
   <= CacheConfig.expiryMs (cacheConfig st))%Z ->
  exists entry st',
    InMemoryMethodCache.get w className methodName
      (InMemoryMethodCache.set w className methodName analysis st)
    = (Some entry, st')
    /\ entry
       = CacheEntry.mk (className ++ "#" ++ methodName) analysis
                       (clock w (ticks st)) 1
                       (MethodAnalysis.contentHash (deref analysis st))
    /\ JsMap.get (className ++ "#" ++ methodName) (cache st') = Some entry
    /\ CacheStats.hitCount (stats st') = S (CacheStats.hitCount (stats st))
    /\ CacheStats.missCount (stats st') = CacheStats.missCount (stats st).
Proof.
  intros Hclock.
  pose proof (evictOldest_frame st) as [Hticks [Hconfig [Hheap [Hhit Hmiss]]]].
  unfold InMemoryMethodCache.set, InMemoryMethodCache.get,
         InMemoryMethodCache.getCacheKey, Date_now.
  cbn [cache set_cache InMemoryMethodCache.setTotalEntries set_stats set_ticks
       ticks cacheConfig].
  rewrite JsMap_get_set_same.
  cbn [cache set_cache InMemoryMethodCache.setTotalEntries set_stats set_ticks
       ticks cacheConfig CacheEntry.timestamp].
  rewrite Hticks, Hconfig.
  apply Z.ltb_ge in Hclock. rewrite Hclock.
  eexists. eexists. split; [reflexivity|].
  cbn [cache set_cache InMemoryMethodCache.countHit set_stats stats
       CacheStats.hitCount CacheStats.missCount CacheEntry.touch
       CacheEntry.key CacheEntry.analysis CacheEntry.timestamp
       CacheEntry.accessCount CacheEntry.contentHash].
  split; [|split; [|split]].
  - unfold deref. cbn [heap set_ticks]. rewrite Hheap. reflexivity.
  - rewrite JsMap_get_set_same. unfold deref. cbn [heap set_ticks].
    rewrite Hheap. reflexivity.
  - exact (f_equal S Hhit).
  - exact Hmiss.
Qed.

Lemma cache_set_then_get_witness :
  exists entry st',
    InMemoryMethodCache.get Scenario.leaf "A" "f"
      (InMemoryMethodCache.set Scenario.leaf "A" "f" 0 Scenario.analyzed)
    = (Some entry, st')
    /\ CacheEntry.analysis entry = 0
    /\ CacheEntry.accessCount entry = 1.
Proof.
  destruct (cache_set_then_get Scenario.leaf "A" "f" 0 Scenario.analyzed)
    as [entry [st' [Hget [Hentry _]]]].
  - vm_compute. discriminate.
  - exists entry, st'. split; [exact Hget|].
    rewrite Hentry. split; reflexivity.
Defined.

(** X2.  [get] returns only an entry that is not expired, and it returns
    it as it was stored but for the access count, which it increments: the
    timestamp is not renewed by a hit, so an entry expires [expiryMs] after
    it was set however often it is read. *)
Theorem cache_get_returns_live (w : World) (className methodName : string)
  (st : State) (entry : CacheEntry.t) (st' : State) :
  InMemoryMethodCache.get w className methodName st = (Some entry, st') ->
  exists stored,
    JsMap.get (className ++ "#" ++ methodName) (cache st) = Some stored
    /\ expiredAt (clock w (ticks st)) (cacheConfig st) stored = false
    /\ entry = CacheEntry.touch stored
    /\ CacheEntry.timestamp entry = CacheEntry.timestamp stored
    /\ JsMap.get (className ++ "#" ++ methodName) (cache st') = Some entry
    /\ CacheStats.hitCount (stats st') = S (CacheStats.hitCount (stats st))
    /\ CacheStats.missCount (stats st') = CacheStats.missCount (stats st).
Proof.
  unfold InMemoryMethodCache.get, InMemoryMethodCache.getCacheKey, Date_now,
         expiredAt.
  destruct (JsMap.get (className ++ "#" ++ methodName) (cache st))
    as [stored|] eqn:Hget; [|discriminate].
  cbn [cache set_cache set_ticks ticks cacheConfig].
  destruct (_ <? _)%Z eqn:Hexp; [discriminate|].
  intros [= <- <-]. exists stored.
  split; [reflexivity|]. split; [exact Hexp|]. split; [reflexivity|].
  split; [reflexivity|].
  cbn [cache set_cache InMemoryMethodCache.countHit set_stats stats
       CacheStats.hitCount CacheStats.missCount].
  rewrite JsMap_get_set_same. repeat split.
Qed.

Lemma cache_get_returns_live_witness :
  exists entry st' stored,
    InMemoryMethodCache.get Scenario.leaf "A" "f" Scenario.analyzed
    = (Some entry, st')
    /\ JsMap.get "A#f" (cache Scenario.analyzed) = Some stored
    /\ CacheEntry.timestamp entry = CacheEntry.timestamp stored
    /\ CacheEntry.accessCount entry = S (CacheEntry.accessCount stored).
Proof.
  destruct (InMemoryMethodCache.get Scenario.leaf "A" "f" Scenario.analyzed)
    as [[entry|] st'] eqn:Hget; [|vm_compute in Hget; discriminate].
  destruct (cache_get_returns_live Scenario.leaf "A" "f" Scenario.analyzed
              entry st' Hget)
    as [stored [Hstored [_ [Hentry [Htime _]]]]].
  exists entry, st', stored. split; [reflexivity|].
  split; [exact Hstored|]. split; [exact Htime|].
  rewrite Hentry. reflexivity.
Defined.

(** X3.  An expired entry is not returned: [get] removes it from the
    cache and counts a miss; the other entries stay as they are, and
    [stats.totalEntries] is not updated. *)
Theorem cache_get_expired (w : World) (className methodName : string)
  (st : State) (stored : CacheEntry.t) :
  JsMap_wf (cache st) ->
  JsMap.get (className ++ "#" ++ methodName) (cache st) = Some stored ->
  expiredAt (clock w (ticks st)) (cacheConfig st) stored = true ->
  exists st',
    InMemoryMethodCache.get w className methodName st = (None, st')
    /\ JsMap.get (className ++ "#" ++ methodName) (cache st') = None
    /\ (forall key, key <> className ++ "#" ++ methodName ->
          JsMap.get key (cache st') = JsMap.get key (cache st))
    /\ S (JsMap.size (cache st')) = JsMap.size (cache st)
    /\ CacheStats.missCount (stats st') = S (CacheStats.missCount (stats st))
    /\ CacheStats.hitCount (stats st') = CacheStats.hitCount (stats st)
    /\ CacheStats.totalEntries (stats st')
       = CacheStats.totalEntries (stats st).
Proof.
  intros Hwf Hget Hexp.
  unfold InMemoryMethodCache.get, InMemoryMethodCache.getCacheKey, Date_now.
  rewrite Hget. unfold expiredAt in Hexp.
  cbn [cache set_cache set_ticks ticks cacheConfig]. rewrite Hexp.
  eexists. split; [reflexivity|].
  cbn [cache set_cache InMemoryMethodCache.countMiss set_stats stats
       set_ticks CacheStats.hitCount CacheStats.missCount
       CacheStats.totalEntries].
  split; [apply JsMap_get_delete_same; exact Hwf|].
  split; [intros key Hne; apply JsMap_get_delete_other; exact Hne|].
  split; [eapply JsMap_size_delete; exact Hget|].
  repeat split.
Qed.

Lemma cache_get_expired_witness :
  exists st',
    InMemoryMethodCache.get Scenario.leafLate "A" "f" Scenario.analyzed
    = (None, st')
    /\ JsMap.get "A#f" (cache st') = None.
Proof.
  destruct (JsMap.get "A#f" (cache Scenario.analyzed)) as [stored|] eqn:Hget;
    [|vm_compute in Hget; discriminate].
  destruct (cache_get_expired Scenario.leafLate "A" "f" Scenario.analyzed
              stored)
    as [st' [Hrun [Hgone _]]].
  - vm_compute. repeat constructor; simpl; intuition discriminate.
  - exact Hget.
  - vm_compute in Hget. injection Hget as <-. vm_compute. reflexivity.
  - exists st'. split; assumption.
Defined.

(** The scan of [evictOldest]: either nothing is older than the start
    value, or the key found is that of an entry with the least timestamp. *)
Lemma findOldest_spec (entries : JsMap.t CacheEntry.t) :
  forall (oldestKey : string) (oldestTime : option Z),
    (InMemoryMethodCache.findOldest entries oldestKey oldestTime = oldestKey
     /\ forall key' entry',
          In (key', entry') entries ->
          exists t, oldestTime = Some t /\ (t <= CacheEntry.timestamp entry')%Z)
    \/ (exists entry,
          In (InMemoryMethodCache.findOldest entries oldestKey oldestTime,
              entry) entries
          /\ (forall key' entry',
                In (key', entry') entries ->
                (CacheEntry.timestamp entry <= CacheEntry.timestamp entry')%Z)
          /\ forall t, oldestTime = Some t ->
                       (CacheEntry.timestamp entry < t)%Z).
Proof.
  induction entries as [|[key entry] rest IH]; intros oldestKey oldestTime.
  - left. split; [reflexivity|]. intros key' entry' [].
  - cbn [InMemoryMethodCache.findOldest].
    assert (Hcases :
      (match oldestTime with
       | None => true
       | Some t => (CacheEntry.timestamp entry <? t)%Z
       end = true
       /\ forall t, oldestTime = Some t -> (CacheEntry.timestamp entry < t)%Z)
      \/ (exists t, oldestTime = Some t
                    /\ (CacheEntry.timestamp entry <? t)%Z = false
                    /\ (t <= CacheEntry.timestamp entry)%Z)).
    { destruct oldestTime as [t|].
      - destruct (CacheEntry.timestamp entry <? t)%Z eqn:E.
        + left. split; [reflexivity|]. intros t' [= <-].
          apply Z.ltb_lt. exact E.
        + right. exists t. split; [reflexivity|]. split; [exact E|].
          apply Z.ltb_ge. exact E.
      - left. split; [reflexivity|]. intros t' [=]. }
    destruct Hcases as [[Holder Hlt]|[t [-> [Holder Hle]]]]; rewrite Holder.
    + right.
      destruct (IH key (Some (CacheEntry.timestamp entry)))
        as [[Heq Hall]|[e [Hin [Hmin Hless]]]].
      * exists entry. rewrite Heq. split; [left; reflexivity|].
        split; [|exact Hlt].
        intros key' entry' [[= <- <-]|Hin]; [lia|].
        destruct (Hall key' entry' Hin) as [t [[= <-] Hle]]. exact Hle.
      * exists e. split; [right; exact Hin|].
        specialize (Hless _ eq_refl).
        split.
        -- intros key' entry' [[= <- <-]|Hin']; [lia|].
           eapply Hmin. exact Hin'.
        -- intros t Ht. specialize (Hlt t Ht). lia.
    + destruct (IH oldestKey (Some t)) as [[Heq Hall]|[e [Hin [Hmin Hless]]]].
      * left. split; [exact Heq|].
        intros key' entry' [[= <- <-]|Hin].
        -- exists t. split; [reflexivity|exact Hle].
        -- exact (Hall key' entry' Hin).
      * right. exists e. split; [right; exact Hin|].
        specialize (Hless _ eq_refl) as Hlt.
        split.
        -- intros key' entry' [[= <- <-]|Hin']; [lia|].
           eapply Hmin. exact Hin'.
        -- intros t' [= <-]. exact Hlt.
Qed.

Lemma findOldest_oldest (entries : JsMap.t CacheEntry.t) :
  entries <> [] ->
  exists entry,
    In (InMemoryMethodCache.findOldest entries EmptyString None, entry) entries
    /\ forall key' entry',
         In (key', entry') entries ->
         (CacheEntry.timestamp entry <= CacheEntry.timestamp entry')%Z.
Proof.
  intros Hne.
  destruct (findOldest_spec entries EmptyString None)
    as [[_ Hall]|[entry [Hin [Hmin _]]]].
  - destruct entries as [|[key entry] rest]; [congruence|].
    destruct (Hall key entry (or_introl eq_refl)) as [t [[=] _]].
  - exists entry. split; assumption.
Qed.

Lemma Forall_keys_delete {V : Type} (P : string -> Prop) (k : string)
  (m : JsMap.t V) :
  Forall (fun kv => P (fst kv)) m ->
  Forall (fun kv => P (fst kv)) (JsMap.delete k m).
Proof.
  induction 1 as [|[k0 v0] m Hk Hm IH]; simpl; [constructor|].
  destruct (String.eqb k0 k); [exact Hm|]. constructor; assumption.
Qed.

Lemma Forall_keys_set {V : Type} (P : string -> Prop) (k : string) (v : V)
  (m : JsMap.t V) :
  P k ->
  Forall (fun kv => P (fst kv)) m ->
  Forall (fun kv => P (fst kv)) (JsMap.set k v m).
Proof.
  intros Hk. induction 1 as [|[k0 v0] m Hk0 Hm IH]; simpl.
  - constructor; [exact Hk|constructor].
  - destruct (String.eqb k0 k); constructor; assumption.
Qed.

(** X4.  The cache stays within its capacity: if it holds at most
    [maxEntries] entries (and [maxEntries] is at least 1) it still does
    after a [set] and after a [get], and after a [set]
    [stats.totalEntries] is the number of entries. *)
Theorem cache_within_capacity (w : World) (className methodName : string)
  (analysis : ref) (st : State) :
  1 <= CacheConfig.maxEntries (cacheConfig st) ->
  WithinCapacity st ->
  WithinCapacity (InMemoryMethodCache.set w className methodName analysis st)
  /\ CacheStats.totalEntries
       (stats (InMemoryMethodCache.set w className methodName analysis st))
     = JsMap.size
         (cache (InMemoryMethodCache.set w className methodName analysis st))
  /\ WithinCapacity (snd (InMemoryMethodCache.get w className methodName st)).
Proof.
  intros Hmax [Hkeys Hsize].
  assert (Hevict :
    WithinCapacity (InMemoryMethodCache.evictOldest st)
    /\ JsMap.size (cache (InMemoryMethodCache.evictOldest st))
       < CacheConfig.maxEntries (cacheConfig st)).
  { unfold InMemoryMethodCache.evictOldest.
    destruct (_ <? _)%nat eqn:Hlt.
    - apply Nat.ltb_lt in Hlt. split; [split; assumption|exact Hlt].
    - apply Nat.ltb_ge in Hlt.
      assert (Hne : cache st <> []).
      { intros Hnil. rewrite Hnil in Hlt. unfold JsMap.size in Hlt.
        simpl in Hlt. lia. }
      destruct (findOldest_oldest (cache st) Hne) as [entry [Hin _]].
      destruct (InMemoryMethodCache.findOldest (cache st) EmptyString None)
        as [|a key] eqn:Hkey.
      + rewrite Forall_forall in Hkeys. specialize (Hkeys _ Hin).
        simpl in Hkeys. congruence.
      + assert (Hsome : exists e, JsMap.get (String a key) (cache st) = Some e).
        { destruct (JsMap.get (String a key) (cache st)) eqn:Hget;
            [eauto|].
          exfalso. clear - Hin Hget.
          induction (cache st) as [|[k0 v0] m IH]; [destruct Hin|].
          simpl in Hget. destruct (String.eqb k0 (String a key)) eqn:E;
            [discriminate|].
          destruct Hin as [[= -> ->]|Hin].
          - rewrite String.eqb_refl in E. discriminate.
          - exact (IH Hin Hget). }
        destruct Hsome as [e Hget].
        pose proof (JsMap_size_delete _ _ _ Hget) as Hdel.
        cbn [cache set_cache set_stats cacheConfig]. split.
        * split; cbn [cache set_cache set_stats cacheConfig].
          -- apply (Forall_keys_delete (fun k => k <> EmptyString)).
             exact Hkeys.
          -- lia.
        * lia. }
  destruct Hevict as [[Hkeys1 Hsize1] Hroom].
  pose proof (evictOldest_frame st) as [_ [Hconfig _]].
  split; [|split].
  - unfold InMemoryMethodCache.set, Date_now, WithinCapacity.
    cbn [cache set_cache InMemoryMethodCache.setTotalEntries set_stats
         set_ticks cacheConfig].
    split.
    + apply (Forall_keys_set (fun k => k <> EmptyString));
        [apply getCacheKey_not_empty|exact Hkeys1].
    + rewrite Hconfig.
      pose proof (JsMap_size_set_le
                    (InMemoryMethodCache.getCacheKey className methodName)
                    (CacheEntry.mk
                       (InMemoryMethodCache.getCacheKey className methodName)
                       analysis
                       (clock w (ticks (InMemoryMethodCache.evictOldest st))) 0
                       (MethodAnalysis.contentHash
                          (deref analysis
                             (set_ticks
                                (S (ticks (InMemoryMethodCache.evictOldest st)))
                                (InMemoryMethodCache.evictOldest st)))))
                    (cache (InMemoryMethodCache.evictOldest st))) as Hle.
      lia.
  - reflexivity.
  - unfold InMemoryMethodCache.get, Date_now, WithinCapacity.
    destruct (JsMap.get _ (cache st)) as [stored|] eqn:Hget.
    + cbn [cache set_cache set_ticks cacheConfig].
      destruct (_ <? _)%Z;
        cbn [snd cache set_cache InMemoryMethodCache.countMiss
             InMemoryMethodCache.countHit set_stats set_ticks cacheConfig].
      * split.
        -- apply (Forall_keys_delete (fun k => k <> EmptyString)).
           exact Hkeys.
        -- pose proof (JsMap_size_delete_le
                         (InMemoryMethodCache.getCacheKey className methodName)
                         (cache st)).
           lia.
      * split.
        -- apply (Forall_keys_set (fun k => k <> EmptyString));
             [apply getCacheKey_not_empty|exact Hkeys].
        -- rewrite (JsMap_size_set_present _ _ _ _ Hget). exact Hsize.
    + cbn [snd cache InMemoryMethodCache.countMiss set_stats cacheConfig].
      split; assumption.
Qed.

Lemma cache_within_capacity_witness :
  WithinCapacity
    (InMemoryMethodCache.set Scenario.leaf "B" "g" 0 Scenario.analyzed)
  /\ JsMap.size
       (cache (InMemoryMethodCache.set Scenario.leaf "B" "g" 0
                                       Scenario.analyzed)) = 2.
Proof.
  split.
  - apply (cache_within_capacity Scenario.leaf "B" "g" 0 Scenario.analyzed).
    + vm_compute. lia.
    + split.
      * vm_compute. repeat constructor; discriminate.
      * vm_compute. lia.
  - vm_compute. reflexivity.
Defined.

(** X5.  Eviction is by age, not by use: when the cache is full,
    [evictOldest] removes the entry whose timestamp, the time it was set,
    is the least, whatever the access counts, and counts one eviction. *)
Theorem evictOldest_removes_oldest (st : State) :
  JsMap_wf (cache st) ->
  Forall (fun kv => fst kv <> EmptyString) (cache st) ->
  cache st <> [] ->
  CacheConfig.maxEntries (cacheConfig st) <= JsMap.size (cache st) ->
  exists key,
    Oldest key (cache st)
    /\ cache (InMemoryMethodCache.evictOldest st)
       = JsMap.delete key (cache st)
    /\ JsMap.get key (cache (InMemoryMethodCache.evictOldest st)) = None
    /\ S (JsMap.size (cache (InMemoryMethodCache.evictOldest st)))
       = JsMap.size (cache st)
    /\ CacheStats.evictionCount (stats (InMemoryMethodCache.evictOldest st))
       = S (CacheStats.evictionCount (stats st)).
Proof.
  intros Hwf Hkeys Hne Hfull.
  destruct (findOldest_oldest (cache st) Hne) as [entry [Hin Hmin]].
  pose proof (JsMap_In_get _ _ _ Hwf Hin) as Hget.
  exists (InMemoryMethodCache.findOldest (cache st) EmptyString None).
  split; [exists entry; split; assumption|].
  unfold InMemoryMethodCache.evictOldest.
  apply Nat.ltb_ge in Hfull. rewrite Hfull.
  destruct (InMemoryMethodCache.findOldest (cache st) EmptyString None)
    as [|a key] eqn:Hkey.
  - rewrite Forall_forall in Hkeys. specialize (Hkeys _ Hin).
    simpl in Hkeys. congruence.
  - cbn [cache set_cache set_stats stats CacheStats.evictionCount].
    split; [reflexivity|].
    split; [apply JsMap_get_delete_same; exact Hwf|].
    split; [eapply JsMap_size_delete; exact Hget|reflexivity].
Qed.

Lemma evictOldest_removes_oldest_witness :
  (exists key,
      Oldest key (cache twoEntries)
      /\ cache (InMemoryMethodCache.evictOldest twoEntries)
         = JsMap.delete key (cache twoEntries))
  /\ map fst (cache (InMemoryMethodCache.evictOldest twoEntries)) = ["B#g"].
Proof.
  split.
  - destruct (evictOldest_removes_oldest twoEntries)
      as [key [Holdest [Hcache _]]].
    + vm_compute. repeat constructor; simpl; intuition discriminate.
    + vm_compute. repeat constructor; discriminate.
    + vm_compute. discriminate.
    + vm_compute. lia.
    + exists key. split; assumption.
  - vm_compute. reflexivity.
Defined.

Lemma fold_delete_cons {V : Type} (keys : list string) (k : string) (v : V) :
  forall m : JsMap.t V,
    ~ In k keys ->
    fold_left (fun m key => JsMap.delete key m) keys ((k, v) :: m)
    = (k, v) :: fold_left (fun m key => JsMap.delete key m) keys m.
Proof.
  induction keys as [|key keys IH]; intros m Hnotin; simpl; [reflexivity|].
  destruct (String.eqb k key) eqn:E.
  - apply String.eqb_eq in E. subst. exfalso. apply Hnotin. left. reflexivity.
  - apply IH. intros Hin. apply Hnotin. right. exact Hin.
Qed.

(** Deleting the keys of the entries that [p] selects leaves the others. *)
Lemma fold_delete_filter {V : Type} (p : string * V -> bool) (m : JsMap.t V) :
  JsMap_wf m ->
  fold_left (fun m key => JsMap.delete key m) (map fst (filter p m)) m
  = filter (fun kv => negb (p kv)) m.
Proof.
  unfold JsMap_wf. induction m as [|[k0 v0] m IH]; simpl; intros Hwf.
  - reflexivity.
  - inversion Hwf as [|? ? Hnotin Hrest]; subst.
    destruct (p (k0, v0)); simpl.
    + rewrite String.eqb_refl. apply IH. exact Hrest.
    + rewrite fold_delete_cons.
      * f_equal. apply IH. exact Hrest.
      * intros Hin. apply Hnotin.
        apply in_map_iff in Hin. destruct Hin as [[k1 v1] [Hk Hin]].
        apply filter_In in Hin. apply in_map_iff. exists (k1, v1). tauto.
Qed.

Lemma fold_delete_where {V : Type} (p : string -> bool) (keys : list string) :
  forall m : JsMap.t V,
    fold_left (fun m key => if p key then JsMap.delete key m else m) keys m
    = fold_left (fun m key => JsMap.delete key m) (filter p keys) m.
Proof.
  induction keys as [|key keys IH]; intros m; simpl; [reflexivity|].
  destruct (p key); simpl; apply IH.
Qed.

Lemma filter_map_fst {V : Type} (p : string -> bool) (m : JsMap.t V) :
  filter p (map fst m) = map fst (filter (fun kv => p (fst kv)) m).
Proof.
  induction m as [|[k v] m IH]; simpl; [reflexivity|].
  destruct (p k); simpl; rewrite IH; reflexivity.
Qed.

(** X6.  [invalidate] with a method name removes the entry of that method
    and no other; without one, or with the empty one, it removes every
    entry whose key starts with the class name and [#], and no other.
    Afterwards [stats.totalEntries] is the number of entries. *)
Theorem invalidate_lookup (className : string) (methodName : option string)
  (st : State) (key : string) :
  JsMap_wf (cache st) ->
  let st' := InMemoryMethodCache_invalidate className methodName st in
  JsMap.get key (cache st')
  = (if match methodName with
        | Some (String a rest) =>
            String.eqb key (className ++ "#" ++ String a rest)
        | _ => Js.startsWith (className ++ "#") key
        end
     then None else JsMap.get key (cache st))
  /\ CacheStats.totalEntries (stats st') = JsMap.size (cache st').
Proof.
  intros Hwf st'. split; [|reflexivity].
  unfold st', InMemoryMethodCache_invalidate,
         InMemoryMethodCache.getCacheKey.
  destruct methodName as [[|a rest]|];
    cbn [cache set_cache InMemoryMethodCache.setTotalEntries set_stats].
  - rewrite fold_delete_where, filter_map_fst,
      (fold_delete_filter
         (fun kv => Js.startsWith (className ++ "#") (fst kv)))
      by exact Hwf.
    rewrite (JsMap_get_filter_keys
               (fun k => negb (Js.startsWith (className ++ "#") k))).
    destruct (Js.startsWith (className ++ "#") key); reflexivity.
  - destruct (String.eqb key (className ++ "#" ++ String a rest)) eqn:E.
    + apply String.eqb_eq in E. subst key.
      apply JsMap_get_delete_same. exact Hwf.
    + apply String.eqb_neq in E. apply JsMap_get_delete_other. exact E.
  - rewrite fold_delete_where, filter_map_fst,
      (fold_delete_filter
         (fun kv => Js.startsWith (className ++ "#") (fst kv)))
      by exact Hwf.
    rewrite (JsMap_get_filter_keys
               (fun k => negb (Js.startsWith (className ++ "#") k))).
    destruct (Js.startsWith (className ++ "#") key); reflexivity.
Qed.

Lemma invalidate_lookup_witness :
  JsMap.get "A#f"
    (cache (InMemoryMethodCache_invalidate "A" (Some EmptyString) twoEntries))
  = None
  /\ JsMap.get "B#g"
       (cache (InMemoryMethodCache_invalidate "A" (Some EmptyString)
                                              twoEntries))
     = JsMap.get "B#g" (cache twoEntries).
Proof.
  assert (Hwf : JsMap_wf (cache twoEntries))
    by (vm_compute; repeat constructor; simpl; intuition discriminate).
  split.
  - exact (proj1 (invalidate_lookup "A" (Some EmptyString) twoEntries "A#f"
                    Hwf)).
  - exact (proj1 (invalidate_lookup "A" (Some EmptyString) twoEntries "B#g"
                    Hwf)).
Defined.

Lemma JsMap_get_filter {V : Type} (p : string * V -> bool) (k : string)
  (m : JsMap.t V) :
  JsMap_wf m ->
  JsMap.get k (filter p m)
  = match JsMap.get k m with
    | Some v => if p (k, v) then Some v else None
    | None => None
    end.
Proof.
  unfold JsMap_wf. induction m as [|[k0 v0] m IH]; simpl; intros Hwf.
  - reflexivity.
  - inversion Hwf as [|? ? Hnotin Hrest]; subst.
    destruct (String.eqb k0 k) eqn:E.
    + apply String.eqb_eq in E. subst k0.
      destruct (p (k, v0)); simpl.
      * rewrite String.eqb_refl. reflexivity.
      * apply JsMap_get_keys. intros Hin. apply Hnotin.
        apply in_map_iff in Hin. destruct Hin as [[k1 v1] [Hk Hin]].
        apply filter_In in Hin. apply in_map_iff. exists (k1, v1). tauto.
    + destruct (p (k0, v0)); simpl; [rewrite E|]; apply IH; exact Hrest.
Qed.

(** X7.  [cleanup] removes exactly the entries that are expired at the
    time it reads, once: a lookup of any key in the cache afterwards finds
    the entry it found before unless that entry was expired.  Afterwards
    [stats.totalEntries] is the number of entries. *)
Theorem cleanup_removes_expired (w : World) (st : State) (key : string) :
  JsMap_wf (cache st) ->
  let st' := InMemoryMethodCache_cleanup w st in
  JsMap.get key (cache st')
  = match JsMap.get key (cache st) with
    | Some entry =>
        if expiredAt (clock w (ticks st)) (cacheConfig st) entry
        then None else Some entry
    | None => None
    end
  /\ CacheStats.totalEntries (stats st') = JsMap.size (cache st')
  /\ ticks st' = S (ticks st).
Proof.
  intros Hwf st'. unfold st', InMemoryMethodCache_cleanup, Date_now.
  cbn [cache set_cache InMemoryMethodCache.setTotalEntries set_stats set_ticks
       cacheConfig ticks stats CacheStats.totalEntries].
  split; [|split; reflexivity].
  rewrite fold_delete_filter by exact Hwf.
  rewrite JsMap_get_filter by exact Hwf.
  destruct (JsMap.get key (cache st)) as [entry|]; [|reflexivity].
  unfold expiredAt. cbn [snd].
  destruct (_ <? _)%Z; reflexivity.
Qed.

Lemma cleanup_removes_expired_witness :
  JsMap.get "A#f"
    (cache (InMemoryMethodCache_cleanup Scenario.leafLate Scenario.analyzed))
  = None.
Proof.
  assert (Hwf : JsMap_wf (cache Scenario.analyzed))
    by (vm_compute; repeat constructor; simpl; intuition discriminate).
  rewrite (proj1 (cleanup_removes_expired Scenario.leafLate Scenario.analyzed
                    "A#f" Hwf)).
  vm_compute. reflexivity.
Defined.

(** X8.  [hasContentChanged] compares with the fingerprint of the live
    entry: right after [set(className, methodName, analysis)] it answers
    whether the new fingerprint differs from that of [analysis], provided
    the clock has not moved on by more than [expiryMs]; when content
    hashing is disabled it answers [false] and leaves the cache alone. *)
Theorem hasContentChanged_after_set (w : World)
  (className methodName newContentHash : string) (analysis : ref)
  (st : State) :
  (clock w (S (ticks st)) - clock w (ticks st)
   <= CacheConfig.expiryMs (cacheConfig st))%Z ->
  let st1 := InMemoryMethodCache.set w className methodName analysis st in
  InMemoryMethodCache_hasContentChanged w className methodName newContentHash
                                        st1
  = if CacheConfig.enableContentHashing (cacheConfig st)
    then (negb (String.eqb (MethodAnalysis.contentHash (deref analysis st))
                           newContentHash),
          snd (InMemoryMethodCache.get w className methodName st1))
    else (false, st1).
Proof.
  intros Hclock st1.
  destruct (cache_set_then_get w className methodName analysis st Hclock)
    as [entry [st' [Hget [Hentry _]]]].
  unfold InMemoryMethodCache_hasContentChanged.
  assert (Hconfig : cacheConfig st1 = cacheConfig st).
  { unfold st1, InMemoryMethodCache.set, Date_now.
    cbn [cacheConfig InMemoryMethodCache.setTotalEntries set_stats set_cache
         set_ticks].
    apply evictOldest_frame. }
  rewrite Hconfig.
  destruct (CacheConfig.enableContentHashing (cacheConfig st)); simpl;
    [|reflexivity].
  fold st1 in Hget. rewrite Hget. simpl. rewrite Hentry. reflexivity.
Qed.

Lemma hasContentChanged_after_set_witness :
  fst (InMemoryMethodCache_hasContentChanged Scenario.leaf "A" "f" "md5:edited"
         (InMemoryMethodCache.set Scenario.leaf "A" "f" 0 Scenario.analyzed))
  = true.
Proof.
  rewrite (hasContentChanged_after_set Scenario.leaf "A" "f" "md5:edited" 0
             Scenario.analyzed).
  - vm_compute. reflexivity.
  - vm_compute. discriminate.
Defined.

From Stdlib Require Import Sorted Permutation.

Lemma insertByAccessCount_Permutation (x : CacheEntry.t)
  (l : list CacheEntry.t) :
  Permutation (insertByAccessCount x l) (x :: l).
Proof.
  induction l as [|y l IH]; simpl; [reflexivity|].
  destruct (_ <=? _)%nat; [reflexivity|].
  rewrite IH. apply perm_swap.
Qed.

Lemma sortByAccessCount_Permutation (l : list CacheEntry.t) :
  Permutation (sortByAccessCount l) l.
Proof.
  induction l as [|x l IH]; simpl; [reflexivity|].
  rewrite insertByAccessCount_Permutation. constructor. exact IH.
Qed.

Lemma insertByAccessCount_sorted (x : CacheEntry.t) (l : list CacheEntry.t) :
  StronglySorted
    (fun a b => CacheEntry.accessCount b <= CacheEntry.accessCount a) l ->
  StronglySorted
    (fun a b => CacheEntry.accessCount b <= CacheEntry.accessCount a)
    (insertByAccessCount x l).
Proof.
  induction 1 as [|y l Hsorted IH Hall]; simpl.
  - constructor; constructor.
  - destruct (_ <=? _)%nat eqn:E.
    + apply Nat.leb_le in E. constructor.
      * constructor; assumption.
      * constructor; [exact E|].
        eapply Forall_impl; [|exact Hall]. simpl. intros z Hz. lia.
    + apply Nat.leb_gt in E. constructor; [exact IH|].
      rewrite (insertByAccessCount_Permutation x l).
      constructor; [lia|exact Hall].
Qed.

Lemma sortByAccessCount_sorted (l : list CacheEntry.t) :
  StronglySorted
    (fun a b => CacheEntry.accessCount b <= CacheEntry.accessCount a)
    (sortByAccessCount l).
Proof.
  induction l as [|x l IH]; simpl; [constructor|].
  apply insertByAccessCount_sorted. exact IH.
Qed.

Lemma StronglySorted_firstn_skipn {A : Type} (R : A -> A -> Prop) (n : nat)
  (l : list A) :
  StronglySorted R l ->
  forall a b, In a (firstn n l) -> In b (skipn n l) -> R a b.
Proof.
  intros Hsorted. revert n.
  induction Hsorted as [|x l Hsorted IH Hall]; intros n a b Ha Hb.
  - destruct n; destruct Ha.
  - destruct n as [|n]; [destruct Ha|]. simpl in Ha, Hb.
    destruct Ha as [<-|Ha].
    + rewrite Forall_forall in Hall. apply Hall.
      rewrite <- (firstn_skipn n l). apply in_or_app. right. exact Hb.
    + eapply IH; eassumption.
Qed.

(** X9.  [getTopMethods(limit)] lists the [limit] most accessed entries
    (all of them when the cache holds fewer), most accessed first: the
    entries of the cache can be ranked by decreasing access count so that
    the result is the first [limit] of the ranking, and every entry left
    out has been accessed no more often than any entry listed. *)
Theorem getTopMethods_ranked (limit : nat) (st : State) :
  exists ranked,
    Permutation ranked (map snd (cache st))
    /\ StronglySorted
         (fun a b => CacheEntry.accessCount b <= CacheEntry.accessCount a)
         ranked
    /\ InMemoryMethodCache_getTopMethods limit st
       = map (fun entry => (CacheEntry.key entry, CacheEntry.accessCount entry,
                            CacheEntry.analysis entry))
             (firstn limit ranked)
    /\ List.length (InMemoryMethodCache_getTopMethods limit st)
       = Nat.min limit (JsMap.size (cache st))
    /\ forall listed omitted,
         In listed (firstn limit ranked) ->
         In omitted (skipn limit ranked) ->
         CacheEntry.accessCount omitted <= CacheEntry.accessCount listed.
Proof.
  exists (sortByAccessCount (map snd (cache st))).
  split; [apply sortByAccessCount_Permutation|].
  split; [apply sortByAccessCount_sorted|].
  split; [reflexivity|].
  split.
  - unfold InMemoryMethodCache_getTopMethods.
    rewrite length_map, length_firstn.
    rewrite (Permutation_length (sortByAccessCount_Permutation _)).
    rewrite length_map. reflexivity.
  - intros listed omitted Hl Ho.
    exact (StronglySorted_firstn_skipn _ limit _
             (sortByAccessCount_sorted _) listed omitted Hl Ho).
Qed.

(* ================================================================== *)
(** * More properties: the durable cache *)
(* ================================================================== *)

Lemma length_filter_le {A : Type} (p : A -> bool) (l : list A) :
  List.length (filter p l) <= List.length l.
Proof.
  induction l as [|x l IH]; simpl; [lia|]. destruct (p x); simpl; lia.
Qed.

(** X10.  Store/lookup round trip of the durable cache: after
    [set(className, methodName, analysis, content, path, model)] on a cache
    of fewer than 1000 entries, [get] with the same content and the same
    model name returns [analysis] and leaves the entries as they are,
    provided no more than 30 days pass on the clock in between. *)
Theorem durable_set_then_get (w : World) (className methodName : string)
  (analysis : ref) (content path modelName : string)
  (es : PersistentAnalysisCache.entries) (st : State) :
  JsMap.size es < PersistentAnalysisCache.MAX_CACHE_ENTRIES ->
  (clock w (S (ticks st)) - clock w (ticks st)
   <= PersistentAnalysisCache.MAX_CACHE_AGE_MS)%Z ->
  (clock w (S (S (ticks st))) - clock w (ticks st)
   <= PersistentAnalysisCache.MAX_CACHE_AGE_MS)%Z ->
  exists es1 st1 st2,
    PersistentAnalysisCache.set w className methodName analysis content path
                                modelName es st = (es1, st1)
    /\ PersistentAnalysisCache.get w className methodName content modelName
                                   es1 st1 = (Some analysis, es1, st2).
Proof.
  intros Hsize Hage1 Hage2.
  unfold PersistentAnalysisCache.set, PersistentAnalysisCache.cleanupCache,
         Date_now.
  cbn [ticks set_ticks].
  set (key := PersistentAnalysisCache.getCacheKey className methodName).
  set (entry := PersistentCacheEntry.mk analysis
                  (PersistentAnalysisCache.calculateContentHash w content)
                  modelName (clock w (ticks st)) path
                  PersistentAnalysisCache.CACHE_VERSION).
  set (live := fun kv : string * PersistentCacheEntry.t =>
                 negb (PersistentAnalysisCache.MAX_CACHE_AGE_MS
                       <? clock w (S (ticks st))
                          - PersistentCacheEntry.timestamp (snd kv))%Z).
  assert (Hfits : (PersistentAnalysisCache.MAX_CACHE_ENTRIES
                   <? JsMap.size (filter live (JsMap.set key entry es)))%nat
                  = false).
  { apply Nat.ltb_ge. unfold JsMap.size.
    pose proof (length_filter_le live (JsMap.set key entry es)).
    pose proof (JsMap_size_set_le key entry es) as Hset.
    unfold JsMap.size in *. lia. }
  rewrite Hfits.
  eexists. eexists. eexists. split; [reflexivity|].
  unfold PersistentAnalysisCache.get. fold key.
  assert (Hget : JsMap.get key (filter live (JsMap.set key entry es))
                 = Some entry).
  { apply JsMap_get_filter_kept; [apply JsMap_get_set_same|].
    unfold live, entry. cbn [snd PersistentCacheEntry.timestamp].
    apply Z.ltb_ge in Hage1. rewrite Hage1. reflexivity. }
  rewrite Hget. unfold entry at 1 2.
  cbn [PersistentCacheEntry.contentHash PersistentCacheEntry.modelName].
  rewrite !String.eqb_refl. cbn [negb].
  unfold Date_now. cbn [ticks set_ticks].
  unfold entry. cbn [PersistentCacheEntry.timestamp PersistentCacheEntry.analysis].
  apply Z.ltb_ge in Hage2. rewrite Hage2. reflexivity.
Qed.

Lemma durable_set_then_get_witness :
  exists es1 st1 st2,
    PersistentAnalysisCache.set Scenario.leaf "A" "f" 0 "class A {}" "/ws/A.java"
                                "GPT-4o" JsMap.empty Scenario.analyzed
    = (es1, st1)
    /\ PersistentAnalysisCache.get Scenario.leaf "A" "f" "class A {}" "GPT-4o"
                                   es1 st1 = (Some 0, es1, st2).
Proof.
  apply durable_set_then_get; vm_compute; [lia|discriminate|discriminate].
Defined.

(** X11.  A lookup that does not match invalidates for good: when the
    entry of the method was stored for another content fingerprint or
    another model name, [get] returns nothing and removes the entry, so
    that every later lookup of the method misses too, also one with the
    content and the model the entry was stored for.  The other entries
    stay. *)
Theorem durable_get_mismatch (w : World)
  (className methodName content modelName : string)
  (es : PersistentAnalysisCache.entries) (st : State)
  (entry : PersistentCacheEntry.t) :
  JsMap_wf es ->
  JsMap.get (className ++ "#" ++ methodName) es = Some entry ->
  PersistentCacheEntry.contentHash entry <> sha256 w content
  \/ PersistentCacheEntry.modelName entry <> modelName ->
  exists es',
    PersistentAnalysisCache.get w className methodName content modelName es st
    = (None, es', st)
    /\ JsMap.get (className ++ "#" ++ methodName) es' = None
    /\ (forall key, key <> className ++ "#" ++ methodName ->
          JsMap.get key es' = JsMap.get key es)
    /\ forall (w' : World) (content' modelName' : string) (st' : State),
         PersistentAnalysisCache.get w' className methodName content'
                                     modelName' es' st'
         = (None, es', st').
Proof.
  intros Hwf Hget Hmismatch.
  exists (JsMap.delete (className ++ "#" ++ methodName) es).
  assert (Hgone :
    JsMap.get (className ++ "#" ++ methodName)
              (JsMap.delete (className ++ "#" ++ methodName) es) = None)
    by (apply JsMap_get_delete_same; exact Hwf).
  split; [|split; [exact Hgone|split]].
  - unfold PersistentAnalysisCache.get, PersistentAnalysisCache.getCacheKey,
           PersistentAnalysisCache.calculateContentHash.
    rewrite Hget.
    destruct (String.eqb (PersistentCacheEntry.contentHash entry)
                         (sha256 w content)) eqn:Ehash; [|reflexivity].
    destruct (String.eqb (PersistentCacheEntry.modelName entry) modelName)
      eqn:Emodel; [|reflexivity].
    apply String.eqb_eq in Ehash, Emodel. tauto.
  - intros key Hne. apply JsMap_get_delete_other. exact Hne.
  - intros w' content' modelName' st'.
    unfold PersistentAnalysisCache.get, PersistentAnalysisCache.getCacheKey.
    rewrite Hgone. reflexivity.
Qed.

Lemma durable_get_mismatch_witness :
  exists es',
    PersistentAnalysisCache.get Scenario.leafEdited "A" "f" "class A { int x; }"
      "GPT-4o"
      [("A#f", PersistentCacheEntry.mk 0 "sha256:class A {}" "GPT-4o" 0
                 "/ws/A.java" "1.0.0")]
      Scenario.analyzed
    = (None, es', Scenario.analyzed)
    /\ JsMap.get "A#f" es' = None.
Proof.
  destruct (durable_get_mismatch Scenario.leafEdited "A" "f"
              "class A { int x; }" "GPT-4o"
              [("A#f", PersistentCacheEntry.mk 0 "sha256:class A {}" "GPT-4o" 0
                         "/ws/A.java" "1.0.0")]
              Scenario.analyzed
              (PersistentCacheEntry.mk 0 "sha256:class A {}" "GPT-4o" 0
                 "/ws/A.java" "1.0.0"))
    as [es' [Hget [Hgone _]]].
  - vm_compute. repeat constructor; simpl; intuition discriminate.
  - reflexivity.
  - left. vm_compute. discriminate.
  - exists es'. split; assumption.
Defined.

Lemma filter_all {A : Type} (p : A -> bool) (l : list A) :
  (forall x, In x l -> p x = true) -> filter p l = l.
Proof.
  induction l as [|x l IH]; simpl; intros H; [reflexivity|].
  rewrite (H x (or_introl eq_refl)). f_equal. apply IH. auto.
Qed.

Lemma filter_filter_and {A : Type} (p q : A -> bool) (l : list A) :
  filter p (filter q l) = filter (fun x => q x && p x) l.
Proof.
  induction l as [|x l IH]; simpl; [reflexivity|].
  destruct (q x); simpl; [destruct (p x)|]; rewrite ?IH; reflexivity.
Qed.

Lemma JsMap_delete_filter {V : Type} (k : string) (m : JsMap.t V) :
  JsMap_wf m ->
  JsMap.delete k m = filter (fun kv => negb (String.eqb (fst kv) k)) m.
Proof.
  unfold JsMap_wf. induction m as [|[k0 v0] m IH]; simpl; intros Hwf.
  - reflexivity.
  - inversion Hwf as [|? ? Hnotin Hrest]; subst.
    destruct (String.eqb k0 k) eqn:E; simpl.
    + apply String.eqb_eq in E. subst k0. symmetry. apply filter_all.
      intros [k1 v1] Hin. simpl.
      destruct (String.eqb k1 k) eqn:E1; [|reflexivity].
      apply String.eqb_eq in E1. subst. exfalso. apply Hnotin.
      apply in_map_iff. exists (k, v1). auto.
    + f_equal. apply IH. exact Hrest.
Qed.

Lemma deleteKeys_filter (keys : list string) :
  forall es : PersistentAnalysisCache.entries,
    JsMap_wf es ->
    PersistentAnalysisCache.deleteKeys keys es
    = filter (fun kv => negb (existsb (String.eqb (fst kv)) keys)) es.
Proof.
  unfold PersistentAnalysisCache.deleteKeys.
  induction keys as [|k keys IH]; intros es Hwf; simpl.
  - symmetry. apply filter_all. reflexivity.
  - rewrite IH by (apply JsMap_wf_delete; exact Hwf).
    rewrite JsMap_delete_filter by exact Hwf.
    rewrite filter_filter_and. apply filter_ext.
    intros [k1 v1]. simpl. rewrite Bool.negb_orb. reflexivity.
Qed.

Lemma insertByTimestamp_Permutation (x : string * PersistentCacheEntry.t)
  (l : PersistentAnalysisCache.entries) :
  Permutation (PersistentAnalysisCache.insertByTimestamp x l) (x :: l).
Proof.
  induction l as [|y l IH]; simpl; [reflexivity|].
  destruct (_ <=? _)%Z; [reflexivity|].
  rewrite IH. apply perm_swap.
Qed.

Lemma sortByTimestamp_Permutation (l : PersistentAnalysisCache.entries) :
  Permutation (PersistentAnalysisCache.sortByTimestamp l) l.
Proof.
  induction l as [|x l IH]; simpl; [reflexivity|].
  rewrite insertByTimestamp_Permutation. constructor. exact IH.
Qed.

Lemma insertByTimestamp_sorted (x : string * PersistentCacheEntry.t)
  (l : PersistentAnalysisCache.entries) :
  StronglySorted
    (fun a b => (PersistentCacheEntry.timestamp (snd a)
                 <= PersistentCacheEntry.timestamp (snd b))%Z) l ->
  StronglySorted
    (fun a b => (PersistentCacheEntry.timestamp (snd a)
                 <= PersistentCacheEntry.timestamp (snd b))%Z)
    (PersistentAnalysisCache.insertByTimestamp x l).
Proof.
  induction 1 as [|y l Hsorted IH Hall]; simpl.
  - constructor; constructor.
  - destruct (_ <=? _)%Z eqn:E.
    + apply Z.leb_le in E. constructor.
      * constructor; assumption.
      * constructor; [exact E|].
        eapply Forall_impl; [|exact Hall]. simpl. intros z Hz. lia.
    + apply Z.leb_gt in E. constructor; [exact IH|].
      rewrite (insertByTimestamp_Permutation x l).
      constructor; [lia|exact Hall].
Qed.

Lemma sortByTimestamp_sorted (l : PersistentAnalysisCache.entries) :
  StronglySorted
    (fun a b => (PersistentCacheEntry.timestamp (snd a)
                 <= PersistentCacheEntry.timestamp (snd b))%Z)
    (PersistentAnalysisCache.sortByTimestamp l).
Proof.
  induction l as [|x l IH]; simpl; [constructor|].
  apply insertByTimestamp_sorted. exact IH.
Qed.

Lemma Permutation_filter_same {A : Type} (p : A -> bool) (l l' : list A) :
  Permutation l l' -> Permutation (filter p l) (filter p l').
Proof.
  induction 1 as [|x l l' _ IH|x y l|l l' l'' _ IH1 _ IH2]; simpl.
  - constructor.
  - destruct (p x); [constructor|]; exact IH.
  - destruct (p x), (p y); try reflexivity. apply perm_swap.
  - etransitivity; eassumption.
Qed.

(** In a list with distinct keys, dropping the entries whose key is among
    those of the first [n] leaves the rest. *)
Lemma filter_keys_firstn {V : Type} (n : nat) :
  forall l : JsMap.t V,
    JsMap_wf l ->
    filter (fun kv => negb (existsb (String.eqb (fst kv))
                                    (map fst (firstn n l)))) l
    = skipn n l.
Proof.
  unfold JsMap_wf.
  induction n as [|n IH]; intros l Hwf.
  - simpl. apply filter_all. reflexivity.
  - destruct l as [|[k v] l]; [reflexivity|].
    inversion Hwf as [|? ? Hnotin Hrest]; subst.
    cbn [firstn map fst skipn filter existsb].
    rewrite String.eqb_refl. cbn [orb negb].
    rewrite <- (IH l Hrest). apply filter_ext_in.
    intros [k1 v1] Hin. cbn [fst].
    destruct (String.eqb k1 k) eqn:E; [|reflexivity].
    apply String.eqb_eq in E. subst. exfalso. apply Hnotin.
    apply in_map_iff. exists (k, v1). auto.
Qed.

Lemma JsMap_wf_Permutation {V : Type} (l l' : JsMap.t V) :
  Permutation l l' -> JsMap_wf l -> JsMap_wf l'.
Proof.
  unfold JsMap_wf. intros Hperm Hwf.
  eapply Permutation_NoDup; [|exact Hwf].
  apply Permutation_map. exact Hperm.
Qed.

(** What [cleanupCache] leaves, when the entries that are not too old are
    more than 1000: those after the oldest ones, in a ranking by age. *)
Lemma cleanupCache_excess (es : PersistentAnalysisCache.entries) (n : nat) :
  JsMap_wf es ->
  Permutation
    (PersistentAnalysisCache.deleteKeys
       (map fst (firstn n (PersistentAnalysisCache.sortByTimestamp es))) es)
    (skipn n (PersistentAnalysisCache.sortByTimestamp es)).
Proof.
  intros Hwf.
  rewrite deleteKeys_filter by exact Hwf.
  rewrite <- filter_keys_firstn.
  - apply Permutation_filter_same. symmetry.
    apply sortByTimestamp_Permutation.
  - eapply JsMap_wf_Permutation; [|exact Hwf].
    symmetry. apply sortByTimestamp_Permutation.
Qed.

(** X12.  [cleanupCache] bounds the durable cache and drops the oldest
    first: afterwards it holds at most 1000 entries, all of them entries it
    held before and none older than 30 days at the time read; and an entry
    that was dropped although it is not that old is no newer than any entry
    kept. *)
Theorem cleanupCache_bounds (w : World)
  (es : PersistentAnalysisCache.entries) (st : State) :
  JsMap_wf es ->
  let es' := fst (PersistentAnalysisCache.cleanupCache w es st) in
  JsMap.size es' <= PersistentAnalysisCache.MAX_CACHE_ENTRIES
  /\ JsMap_wf es'
  /\ (forall key entry,
        In (key, entry) es' ->
        In (key, entry) es
        /\ (clock w (ticks st) - PersistentCacheEntry.timestamp entry
            <= PersistentAnalysisCache.MAX_CACHE_AGE_MS)%Z)
  /\ (forall key entry key' entry',
        In (key, entry) es ->
        (clock w (ticks st) - PersistentCacheEntry.timestamp entry
         <= PersistentAnalysisCache.MAX_CACHE_AGE_MS)%Z ->
        ~ In (key, entry) es' ->
        In (key', entry') es' ->
        (PersistentCacheEntry.timestamp entry
         <= PersistentCacheEntry.timestamp entry')%Z).
Proof.
  intros Hwf es'. unfold es', PersistentAnalysisCache.cleanupCache, Date_now.
  cbn [ticks set_ticks].
  set (live := fun kv : string * PersistentCacheEntry.t =>
                 negb (PersistentAnalysisCache.MAX_CACHE_AGE_MS
                       <? clock w (ticks st)
                          - PersistentCacheEntry.timestamp (snd kv))%Z).
  assert (Hlive : forall key entry,
             In (key, entry) (filter live es) <->
             In (key, entry) es
             /\ (clock w (ticks st) - PersistentCacheEntry.timestamp entry
                 <= PersistentAnalysisCache.MAX_CACHE_AGE_MS)%Z).
  { intros key entry. rewrite filter_In. unfold live. cbn [snd].
    rewrite Bool.negb_true_iff, Z.ltb_ge. tauto. }
  assert (Hwf1 : JsMap_wf (filter live es))
    by (apply JsMap_wf_filter; exact Hwf).
  destruct (_ <? _)%nat eqn:Hover; cbn [fst].
  - apply Nat.ltb_lt in Hover.
    set (sorted := PersistentAnalysisCache.sortByTimestamp (filter live es)).
    set (excess := JsMap.size (filter live es)
                   - PersistentAnalysisCache.MAX_CACHE_ENTRIES).
    pose proof (cleanupCache_excess (filter live es) excess Hwf1) as Hperm.
    fold sorted in Hperm.
    pose proof (sortByTimestamp_Permutation (filter live es)) as Hsort.
    fold sorted in Hsort.
    split; [|split; [|split]].
    + unfold JsMap.size. rewrite (Permutation_length Hperm).
      rewrite length_skipn, (Permutation_length Hsort).
      unfold excess, JsMap.size. lia.
    + rewrite deleteKeys_filter by exact Hwf1.
      apply JsMap_wf_filter. exact Hwf1.
    + intros key entry Hin. apply Hlive.
      eapply deleteKeys_subset. exact Hin.
    + intros key entry key' entry' Hin Hyoung Hdropped Hkept.
      assert (Hfirst : In (key, entry) (firstn excess sorted)).
      { assert (Hs : In (key, entry) sorted).
        { eapply Permutation_in; [symmetry; exact Hsort|].
          apply Hlive. split; assumption. }
        rewrite <- (firstn_skipn excess sorted) in Hs.
        apply in_app_or in Hs. destruct Hs as [Hs|Hs]; [exact Hs|].
        exfalso. apply Hdropped.
        eapply Permutation_in; [symmetry; exact Hperm|exact Hs]. }
      assert (Hrest : In (key', entry') (skipn excess sorted))
        by (eapply Permutation_in; [exact Hperm|exact Hkept]).
      exact (StronglySorted_firstn_skipn _ excess sorted
               (sortByTimestamp_sorted _) _ _ Hfirst Hrest).
  - apply Nat.ltb_ge in Hover.
    split; [exact Hover|]. split; [exact Hwf1|]. split.
    + intros key entry Hin. apply Hlive. exact Hin.
    + intros key entry key' entry' Hin Hyoung Hdropped _.
      exfalso. apply Hdropped. apply Hlive. split; assumption.
Qed.

Lemma cleanupCache_bounds_witness :
  JsMap.size
    (fst (PersistentAnalysisCache.cleanupCache Scenario.leafLate
            [("A#f", PersistentCacheEntry.mk 0 "sha256:class A {}" "GPT-4o" 0
                       "/ws/A.java" "1.0.0")]
            Scenario.analyzed))
  <= PersistentAnalysisCache.MAX_CACHE_ENTRIES.
Proof.
  apply (cleanupCache_bounds Scenario.leafLate
           [("A#f", PersistentCacheEntry.mk 0 "sha256:class A {}" "GPT-4o" 0
                      "/ws/A.java" "1.0.0")]
           Scenario.analyzed).
  vm_compute. repeat constructor; simpl; intuition discriminate.
Defined.

(* ================================================================== *)
(** * More properties: the language detector and the parser *)
(* ================================================================== *)

Lemma includes_dot_cons (a : ascii) (s : string) :
  Js.includes "." (String a s) = Ascii.eqb "."%char a || Js.includes "." s.
Proof.
  cbn [Js.includes Js.startsWith]. rewrite Bool.andb_true_r. reflexivity.
Qed.

Lemma includes_dot_app (base ext : string) :
  Js.includes "." (base ++ "." ++ ext) = true.
Proof.
  induction base as [|a base IH].
  - reflexivity.
  - change (String a base ++ "." ++ ext)
      with (String a (base ++ "." ++ ext)).
    rewrite includes_dot_cons, IH. apply Bool.orb_true_r.
Qed.

Lemma afterLastDot_no_dot (s : string) :
  Js.includes "." s = false -> afterLastDot s = s.
Proof.
  destruct s as [|a s]; [reflexivity|].
  rewrite includes_dot_cons. intros H.
  apply Bool.orb_false_iff in H. destruct H as [Ha Hs].
  cbn [afterLastDot]. rewrite Hs.
  rewrite Ascii.eqb_sym in Ha. rewrite Ha. reflexivity.
Qed.

Lemma afterLastDot_app (base ext : string) :
  Js.includes "." ext = false -> afterLastDot (base ++ "." ++ ext) = ext.
Proof.
  intros Hext. induction base as [|a base IH].
  - change (EmptyString ++ "." ++ ext) with (String "."%char ext).
    cbn [afterLastDot]. rewrite Hext. reflexivity.
  - change (String a base ++ "." ++ ext)
      with (String a (base ++ "." ++ ext)).
    cbn [afterLastDot]. rewrite includes_dot_app. exact IH.
Qed.

Lemma toLowerCase_app (a b : string) :
  Js.toLowerCase (a ++ b) = Js.toLowerCase a ++ Js.toLowerCase b.
Proof.
  induction a as [|c a IH]; simpl; [reflexivity|]. rewrite IH. reflexivity.
Qed.

Lemma lowerChar_dot (a : ascii) :
  Ascii.eqb "."%char (Js.lowerChar a) = Ascii.eqb "."%char a.
Proof.
  destruct a as [[] [] [] [] [] [] [] []]; reflexivity.
Qed.

Lemma lowerChar_idempotent (a : ascii) :
  Js.lowerChar (Js.lowerChar a) = Js.lowerChar a.
Proof.
  destruct a as [[] [] [] [] [] [] [] []]; reflexivity.
Qed.

Lemma includes_dot_toLowerCase (s : string) :
  Js.includes "." (Js.toLowerCase s) = Js.includes "." s.
Proof.
  induction s as [|a s IH]; [reflexivity|].
  cbn [Js.toLowerCase]. rewrite !includes_dot_cons, lowerChar_dot, IH.
  reflexivity.
Qed.

Lemma toLowerCase_idempotent (s : string) :
  Js.toLowerCase (Js.toLowerCase s) = Js.toLowerCase s.
Proof.
  induction s as [|a s IH]; simpl; [reflexivity|].
  rewrite lowerChar_idempotent, IH. reflexivity.
Qed.

(** X13.  The language of a file depends only on the text after its last
    dot, compared without regard to case: the directory and the base name
    play no part, and a path made of a known extension alone counts as that
    language.  The result is always one of the eleven language names; there
    is no "unknown". *)
Theorem detectLanguage_extension (base ext : string) :
  Js.includes "." ext = false ->
  detectLanguage (base ++ "." ++ ext) = detectLanguage ext
  /\ detectLanguage (Js.toLowerCase ext) = detectLanguage ext
  /\ In (detectLanguage (base ++ "." ++ ext)) knownLanguages.
Proof.
  intros Hext.
  assert (Hlower : Js.includes "." (Js.toLowerCase ext) = false)
    by (rewrite includes_dot_toLowerCase; exact Hext).
  assert (H1 : detectLanguage (base ++ "." ++ ext) = detectLanguage ext).
  { unfold detectLanguage.
    rewrite !toLowerCase_app.
    change (Js.toLowerCase ".") with ".".
    rewrite (afterLastDot_app _ _ Hlower), (afterLastDot_no_dot _ Hlower).
    reflexivity. }
  split; [exact H1|]. split.
  - unfold detectLanguage. rewrite toLowerCase_idempotent. reflexivity.
  - rewrite H1. unfold detectLanguage, knownLanguages.
    repeat match goal with
           | |- context [if ?b then _ else _] => destruct b
           end; simpl; tauto.
Qed.

Lemma detectLanguage_extension_witness :
  detectLanguage ("/ws/src/main/Billing.Service" ++ "." ++ "TSX")
  = detectLanguage "TSX"
  /\ detectLanguage "tsx" = "typescript".
Proof.
  split.
  - apply (detectLanguage_extension "/ws/src/main/Billing.Service" "TSX").
    reflexivity.
  - reflexivity.
Defined.

Lemma rmatch_Rep (c : ascii -> bool) (min : nat) (greedy : bool)
  (r : Regex.regex) (s : string) (i : nat) (caps : Regex.captures) :
  Regex.rmatch (Regex.Rep c min greedy :: r) s i caps
  = repFrom c min greedy (fun s i => Regex.rmatch r s i caps) s i 0.
Proof. reflexivity. Qed.

(** A greedy repetition before the end of the input takes all of it. *)
Lemma repFrom_greedy_Eos (c : ascii -> bool) (caps : Regex.captures)
  (s : string) :
  forall i n,
    repFrom c 0 true (fun s i => Regex.rmatch [Regex.Eos] s i caps) s i n
    = if allChars c s then Some (i + String.length s, caps) else None.
Proof.
  induction s as [|a s IH]; intros i n.
  - simpl. rewrite Nat.add_0_r. reflexivity.
  - cbn [repFrom allChars]. destruct (c a); cbn [andb].
    + rewrite IH. destruct (allChars c s).
      * simpl. do 2 f_equal. lia.
      * reflexivity.
    + reflexivity.
Qed.

Lemma search_Bos (r : Regex.regex) (s : string) :
  forall i, i <> 0 -> Regex.search (Regex.Bos :: r) s i = None.
Proof.
  induction s as [|a s IH]; intros i Hi;
    cbn [Regex.search Regex.rmatch];
    destruct i as [|i]; try congruence; cbn [Nat.eqb].
  - reflexivity.
  - apply IH. discriminate.
Qed.

(** The pattern of [isValidIdentifier] matches the identifiers. *)
Lemma test_identifierPattern (identifier : string) :
  Regex.test identifierPattern identifier = isIdentifier identifier.
Proof.
  unfold Regex.test, identifierPattern.
  destruct identifier as [|a s]; [reflexivity|].
  cbn [Regex.search]. cbn [Regex.rmatch Nat.eqb isIdentifier].
  destruct (Regex.idStart a); cbn [andb].
  - change ((fix rep (s0 : string) (i n : nat) {struct s0}
               : option (nat * Regex.captures) := _) s 1 0)
      with (repFrom Regex.idChar 0 true
              (fun s i => Regex.rmatch [Regex.Eos] s i []) s 1 0).
    rewrite repFrom_greedy_Eos.
    destruct (allChars Regex.idChar s); [reflexivity|].
    rewrite search_Bos by discriminate. reflexivity.
  - rewrite search_Bos by discriminate. reflexivity.
Qed.

(** X14.  [isValidIdentifier] accepts exactly the names of fewer than 100
    characters that start with a letter or an underscore and go on with
    letters, digits and underscores. *)
Theorem isValidIdentifier_spec (identifier : string) :
  isValidIdentifier identifier
  = isIdentifier identifier && (String.length identifier <? 100)%nat.
Proof.
  unfold isValidIdentifier. rewrite test_identifierPattern. reflexivity.
Qed.

Lemma collectCalls_numbered (blockText : string) (ms : list Regex.found) :
  forall callIndex,
    map MethodCall.executionOrder (collectCalls blockText ms callIndex)
    = seq callIndex (List.length (collectCalls blockText ms callIndex))
    /\ Forall (fun call => MethodCall.expectedBehavior call = "To be analyzed")
              (collectCalls blockText ms callIndex).
Proof.
  induction ms as [|m ms IH]; intros callIndex; simpl.
  - split; [reflexivity|constructor].
  - destruct (parseMethodCall _) as [[[cls meth] params]|].
    + destruct (IH (S callIndex)) as [Horder Hall]. simpl.
      split; [rewrite Horder; reflexivity|].
      constructor; [reflexivity|exact Hall].
    + apply IH.
Qed.

Lemma collectBlocks_numbered (responseText : string) (ms : list Regex.found) :
  forall blockIndex i block,
    nth_error (collectBlocks responseText ms blockIndex) i = Some block ->
    ExecutionBlock.blockId block
    = "block-" ++ Js.natToString (blockIndex + i)
    /\ ExecutionBlock.nextBlocks block
       = ["block-" ++ Js.natToString (blockIndex + i + 1)]
    /\ exists blockText,
         ExecutionBlock.methodCalls block
         = extractMethodCallsFromBlock blockText (blockIndex + i).
Proof.
  induction ms as [|m ms IH]; intros blockIndex i block; simpl.
  - destruct i; discriminate.
  - destruct i as [|i]; simpl.
    + intros [= <-]. simpl. rewrite Nat.add_0_r.
      split; [reflexivity|]. split; [reflexivity|]. eexists. reflexivity.
    + intros H. apply IH in H.
      replace (blockIndex + S i) with (S blockIndex + i) by lia. exact H.
Qed.

(** X15.  How a parsed reply is numbered: the i-th block, counting from 0,
    has the id [block-i] and names [block-(i+1)] as its only next block,
    also when it is the last one; the calls of a block carry the execution
    orders 0, 1, 2, ... in their order, whatever calls were skipped as
    unparsable, every one with the expected behavior "To be analyzed"; and
    the calls of the reply are those of its blocks, block after block. *)
Theorem parseLLMResponse_numbering
  (responseText className methodName language : string)
  (i : nat) (block : ExecutionBlock.t) :
  let parsed := parseLLMResponse responseText className methodName language in
  nth_error (ParsedMethodAnalysis.executionBlocks parsed) i = Some block ->
  ExecutionBlock.blockId block = "block-" ++ Js.natToString i
  /\ ExecutionBlock.nextBlocks block = ["block-" ++ Js.natToString (i + 1)]
  /\ map MethodCall.executionOrder (ExecutionBlock.methodCalls block)
     = seq 0 (List.length (ExecutionBlock.methodCalls block))
  /\ Forall (fun call => MethodCall.expectedBehavior call = "To be analyzed")
            (ExecutionBlock.methodCalls block)
  /\ ParsedMethodAnalysis.methodCalls parsed
     = flat_map ExecutionBlock.methodCalls
                (ParsedMethodAnalysis.executionBlocks parsed).
Proof.
  intros parsed. unfold parsed, parseLLMResponse.
  destruct (isMethodNotFound responseText); simpl.
  - destruct i; discriminate.
  - intros H. apply collectBlocks_numbered in H.
    destruct H as [Hid [Hnext [blockText Hcalls]]]. simpl in Hid, Hnext.
    split; [exact Hid|]. split; [exact Hnext|].
    rewrite Hcalls. unfold extractMethodCallsFromBlock.
    destruct (collectCalls_numbered blockText
                (Regex.execAll callPattern blockText) 0) as [Horder Hall].
    split; [exact Horder|]. split; [exact Hall|reflexivity].
Qed.

Lemma parseLLMResponse_numbering_witness :
  exists block,
    nth_error
      (ParsedMethodAnalysis.executionBlocks
         (parseLLMResponse (Scenario.found "A" "f" ["B.g()"; "C.h()"])
                           "A" "f" "java")) 0
    = Some block
    /\ ExecutionBlock.blockId block = "block-0"
    /\ ExecutionBlock.nextBlocks block = ["block-1"]
    /\ map MethodCall.executionOrder (ExecutionBlock.methodCalls block)
       = [0; 1].
Proof.
  destruct (nth_error
              (ParsedMethodAnalysis.executionBlocks
                 (parseLLMResponse (Scenario.found "A" "f" ["B.g()"; "C.h()"])
                                   "A" "f" "java")) 0)
    as [block|] eqn:Hnth; [|vm_compute in Hnth; discriminate].
  destruct (parseLLMResponse_numbering
              (Scenario.found "A" "f" ["B.g()"; "C.h()"]) "A" "f" "java"
              0 block Hnth)
    as [Hid [Hnext [Horder _]]].
  exists block. split; [reflexivity|].
  split; [exact Hid|]. split; [exact Hnext|].
  rewrite Horder. vm_compute in Hnth. injection Hnth as <-. reflexivity.
Defined.

(* ================================================================== *)
(** * More properties: integration of an inner analysis *)
(* ================================================================== *)









(* ================================================================== *)
(** * More properties: the model selection *)
(* ================================================================== *)

Lemma getModelDisplayName_not_empty (model : LanguageModelChat.t) :
  getModelDisplayName model <> EmptyString.
Proof.
  unfold getModelDisplayName, Js.orElse.
  destruct (LanguageModelChat.name model); [|discriminate].
  destruct (LanguageModelChat.id model); [|discriminate].
  destruct (LanguageModelChat.family model); discriminate.
Qed.

(** X17.  The model is chosen once: when [selectLanguageModel] returns a
    model, that model is the selected one from then on, and every later
    [selectLanguageModel] returns it without asking for the available
    models or showing the pick list, whatever these would give; the name
    reported for it is never empty. *)
Theorem selectLanguageModel_sticks (w : World) (st : State)
  (model : LanguageModelChat.t) (st' : State) :
  selectLanguageModel w st = Some (Ok model, st') ->
  selectedModel st' = Some model
  /\ (forall w', selectLanguageModel w' st' = Some (Ok model, st'))
  /\ getCurrentModelName st' = getModelDisplayName model
  /\ getCurrentModelName st' <> EmptyString.
Proof.
  intros Hselect.
  assert (Hselected : selectedModel st' = Some model).
  { unfold selectLanguageModel, bind, gets, ofRes, ret, throw, modify
      in Hselect.
    destruct (selectedModel st) as [m|] eqn:Hsel.
    - injection Hselect as <- <-. exact Hsel.
    - destruct (selectChatModels w) as [[|first [|second rest]]|e];
        try discriminate.
      + injection Hselect as <- <-. reflexivity.
      + destruct (showQuickPick w (first :: second :: rest)) as [[m|]|e];
          try discriminate; injection Hselect as <- <-; reflexivity. }
  split; [exact Hselected|]. split; [|split].
  - intros w'. unfold selectLanguageModel, bind, gets, ret.
    rewrite Hselected. reflexivity.
  - unfold getCurrentModelName. rewrite Hselected. reflexivity.
  - unfold getCurrentModelName. rewrite Hselected.
    apply getModelDisplayName_not_empty.
Qed.

Lemma selectLanguageModel_sticks_witness :
  exists st',
    selectLanguageModel Scenario.leaf (Scenario.fresh false)
    = Some (Ok Scenario.gpt, st')
    /\ selectLanguageModel Scenario.noSources st' = Some (Ok Scenario.gpt, st').
Proof.
  destruct (selectLanguageModel Scenario.leaf (Scenario.fresh false))
    as [[[model|e] st']|] eqn:Hselect;
    try (vm_compute in Hselect; discriminate).
  assert (Hmodel : model = Scenario.gpt)
    by (vm_compute in Hselect; injection Hselect as <- _; reflexivity).
  subst model.
  exists st'. split; [reflexivity|].
  apply (selectLanguageModel_sticks Scenario.leaf (Scenario.fresh false)
           Scenario.gpt st' Hselect).
Defined.

(* ================================================================== *)
(** * More properties: the session of a flow analysis *)
(* ================================================================== *)

(** X18.  The call stack of the session is balanced: every request to
    [analyzeMethodRecursively] leaves the stack as it found it, so that
    after [analyzeMethodFlow] the stack is empty, and the "Max Depth
    Reached" of the report, which is computed from the stack after the
    run, is 1 whatever depth the analysis reached. *)
Theorem callStack_balanced :
  (forall (w : World) (fuel sfuel : nat) (className methodName : string)
          (s : AnalysisSession.t) (depth : nat) (st : State)
          (r : ref) (s' : AnalysisSession.t) (st' : State),
      analyzeMethodRecursively w fuel sfuel className methodName s depth st
      = Some (r, s', st') ->
      AnalysisSession.callStack s' = AnalysisSession.callStack s)
  /\ (forall (w : World) (fuel sfuel : nat) (className methodName : string)
             (config : AnalysisConfig.partial) (st : State)
             (r : ref) (s : AnalysisSession.t) (st' : State),
         analyzeMethodFlow w fuel sfuel className methodName config st
         = Some (r, s, st') ->
         AnalysisSession.callStack s = [] /\ maxDepthReached s = 1).
Proof.
  split.
  - intros w fuel sfuel className methodName s depth st r s' st' Hrun.
    apply (step_callStack s s').
    eapply analyzeMethodRecursively_SessionStep. exact Hrun.
  - intros w fuel sfuel className methodName config st r s st' Hrun.
    unfold analyzeMethodFlow in Hrun.
    destruct (Date_now w st) as [now st0].
    destruct (createSession w _ className methodName config st0)
      as [session st1] eqn:Hsession.
    destruct (Date_now w st1) as [startTime st2].
    apply analyzeMethodRecursively_SessionStep in Hrun.
    assert (Hempty : AnalysisSession.callStack s = []).
    { rewrite (step_callStack _ _ Hrun).
      unfold createSession in Hsession.
      destruct (Date_now w st0). injection Hsession as <- _. reflexivity. }
    split; [exact Hempty|].
    unfold maxDepthReached. rewrite Hempty. reflexivity.
Qed.

(** The run on the chain [A.f -> B.g -> C.h -> D.k] analyzes four methods,
    at the depths 0 to 3; the report gives 1 as the depth reached. *)
Lemma callStack_balanced_witness :
  exists r s st',
    analyzeMethodFlow Scenario.chain 5 1 "A" "f" AnalysisConfig.none
                      (Scenario.fresh false) = Some (r, s, st')
    /\ AnalysisSession.totalMethodsAnalyzed s = 4
    /\ AnalysisSession.callStack s = []
    /\ maxDepthReached s = 1.
Proof.
  destruct (analyzeMethodFlow Scenario.chain 5 1 "A" "f" AnalysisConfig.none
                              (Scenario.fresh false))
    as [[[r s] st']|] eqn:Hrun; [|vm_compute in Hrun; discriminate].
  destruct (proj2 callStack_balanced _ _ _ _ _ _ _ _ _ _ Hrun)
    as [Hstack Hdepth].
  exists r, s, st'. split; [reflexivity|].
  split; [|split; assumption].
  vm_compute in Hrun. injection Hrun as _ <- _. reflexivity.
Defined.

(* ================================================================== *)
(** * More properties: the requests to the oracle *)
(* ================================================================== *)




















(* ================================================================== *)
(** * More properties: the size of the linear flow *)
(* ================================================================== *)

Lemma FlowWithin_eq (limit : nat) (s s' : AnalysisSession.t)
  (st st' : State) :
  linearFlow st' = linearFlow st ->
  AnalysisSession.totalMethodsAnalyzed s
    <= AnalysisSession.totalMethodsAnalyzed s' ->
  FlowWithin limit s s' st st'.
Proof.
  intros Hflow Hle f Hf. exists f, [].
  split; [congruence|]. split; [rewrite app_nil_r; reflexivity|].
  split; [constructor|]. simpl. exact Hle.
Qed.

Lemma FlowWithin_trans (limit : nat) (s1 s2 s3 : AnalysisSession.t)
  (st1 st2 st3 : State) :
  FlowWithin limit s1 s2 st1 st2 -> FlowWithin limit s2 s3 st2 st3 ->
  FlowWithin limit s1 s3 st1 st3.
Proof.
  intros H12 H23 f1 Hf1.
  destruct (H12 f1 Hf1) as [f2 [a1 [Hf2 [Hs2 [Hd1 Hn1]]]]].
  destruct (H23 f2 Hf2) as [f3 [a2 [Hf3 [Hs3 [Hd2 Hn2]]]]].
  exists f3, (a1 ++ a2)%list.
  split; [exact Hf3|].
  split; [rewrite Hs3, Hs2, <- app_assoc; reflexivity|].
  split; [apply Forall_app; split; assumption|].
  rewrite filter_app, length_app. lia.
Qed.

(** A segment has one [methodStart] step. *)
Lemma Segment_one_start (d : nat) (key : string)
  (seg : list LinearExecutionStep.t) :
  Segment d key seg -> List.length (filter isMethodStart seg) = 1.
Proof.
  intros [first [mid [last [-> [Hfirst [Hlast [Hmid _]]]]]]].
  simpl. unfold isMethodStart at 1. rewrite Hfirst. simpl. f_equal.
  rewrite filter_app. simpl. unfold isMethodStart at 2. rewrite Hlast.
  rewrite app_nil_r.
  induction Hmid as [|x mid Hx Hmid IH]; [reflexivity|].
  simpl. unfold isBoundary in Hx. unfold isMethodStart at 1.
  destruct (LinearExecutionStep.stepType x); try discriminate; exact IH.
Qed.

Lemma afterAnalysis_FlowWithin (limit : nat) (s s' : AnalysisSession.t)
  (analysis : ref) (d : nat) (st : State) :
  d < limit ->
  S (AnalysisSession.totalMethodsAnalyzed s)
    <= AnalysisSession.totalMethodsAnalyzed s' ->
  FlowWithin limit s s' st (afterAnalysis analysis d st).
Proof.
  intros Hd Hle f Hf.
  assert (Hroot : exists f0,
             linearFlow (updateRootMethod analysis d st) = Some f0
             /\ LinearExecutionFlow.steps f0 = LinearExecutionFlow.steps f).
  { unfold updateRootMethod. rewrite Hf.
    destruct d;
      [destruct (MethodAnalysis.inheritedFrom (deref analysis st))|];
      eexists; (split; [first [exact Hf | reflexivity]|reflexivity]). }
  destruct Hroot as [f0 [Hf0 Hsteps0]].
  unfold afterAnalysis.
  destruct (AnalysisStatus.eqb _ _).
  - set (st0 := updateRootMethod analysis d st) in *. clearbody st0.
    destruct (JsMap.has (flowKey analysis st0)
                        (LinearExecutionFlow.methodReferences f0)) eqn:Hhas.
    + rewrite (addMethodToLinearFlow_known analysis d st0 f0 Hf0 Hhas).
      exists f0, []. split; [exact Hf0|].
      split; [rewrite app_nil_r; exact Hsteps0|].
      split; [constructor|]. simpl. lia.
    + destruct (addMethodToLinearFlow_new analysis d st0 f0 Hf0 Hhas)
        as [seg [Hflow [Hseg _]]].
      eexists. exists seg. split; [exact Hflow|].
      split; [simpl; rewrite Hsteps0; reflexivity|].
      split.
      * apply Forall_forall. intros step Hin.
        destruct (Segment_sources _ _ _ _ Hseg Hin) as [_ ->]. exact Hd.
      * rewrite (Segment_one_start _ _ _ Hseg). lia.
  - exists f0, []. split; [exact Hf0|].
    split; [rewrite app_nil_r; exact Hsteps0|].
    split; [constructor|]. simpl. lia.
Qed.

Lemma addReturnStep_FlowWithin (limit : nat) (s : AnalysisSession.t)
  (analysis : ref) (methodCall : MethodCall.t) (inner : ref) (d : nat)
  (st : State) :
  d < limit ->
  FlowWithin limit s s st (addReturnStep analysis methodCall inner d st).
Proof.
  intros Hd f Hf.
  destruct (addReturnStep_steps analysis methodCall inner d st f Hf)
    as [f' [returned [Hf' [Hsteps [_ [_ Hret]]]]]].
  exists f', returned. split; [exact Hf'|]. split; [exact Hsteps|].
  destruct (isCompleteIn inner st).
  - destruct Hret as [step [-> [Htype [Hdepth _]]]].
    split; [constructor; [lia|constructor]|].
    simpl. unfold isMethodStart. rewrite Htype. simpl. lia.
  - subst returned. split; [constructor|]. simpl. lia.
Qed.

Lemma integrateInnerAnalysis_FlowWithin (limit : nat) (s : AnalysisSession.t)
  (mainAnalysis : ref) (methodCall : MethodCall.t) (inner : ref)
  (st : State) :
  FlowWithin limit s s st
    (integrateInnerAnalysis mainAnalysis methodCall inner st).
Proof.
  intros f Hf. unfold integrateInnerAnalysis. rewrite Hf.
  eexists. exists []. split; [reflexivity|]. simpl.
  split; [rewrite app_nil_r; reflexivity|]. split; [constructor|]. lia.
Qed.

Lemma processMethodCalls_FlowWithin (limit : nat)
  (rec : string -> string -> AnalysisSession.t -> nat -> State -> option outcome)
  (analysis : ref) (depth : nat) (calls : list MethodCall.t) :
  depth < limit ->
  (forall c m s d st r s' st',
      rec c m s d st = Some (r, s', st') ->
      AnalysisConfig.maxCallStackDepth (AnalysisSession.config s) = limit ->
      FlowWithin limit s s' st st'
      /\ AnalysisConfig.maxCallStackDepth (AnalysisSession.config s') = limit) ->
  forall s st s' st',
    AnalysisConfig.maxCallStackDepth (AnalysisSession.config s) = limit ->
    processMethodCalls rec analysis depth calls s st = Some (s', st') ->
    FlowWithin limit s s' st st'.
Proof.
  intros Hdepth Hrec.
  induction calls as [|call calls IH]; intros s st s' st' Hlimit; simpl.
  - intros [= <- <-]. apply FlowWithin_eq; [reflexivity|lia].
  - destruct (rec _ _ s (depth + 1) st) as [[[inner s1] st1]|] eqn:E;
      [|discriminate].
    intros H.
    destruct (Hrec _ _ _ _ _ _ _ _ E Hlimit) as [Hinner Hlimit1].
    eapply FlowWithin_trans; [exact Hinner|].
    eapply FlowWithin_trans;
      [apply (addReturnStep_FlowWithin limit s1 analysis call inner depth);
       exact Hdepth|].
    eapply FlowWithin_trans; [apply integrateInnerAnalysis_FlowWithin|].
    eapply IH; [exact Hlimit1|exact H].
Qed.

(** Every request keeps the flow within the limits of its session. *)
Lemma analyzeMethodRecursively_FlowWithin (w : World) (fuel sfuel : nat) :
  forall className methodName s depth st r s' st',
    analyzeMethodRecursively w fuel sfuel className methodName s depth st
    = Some (r, s', st') ->
    FlowWithin (AnalysisConfig.maxCallStackDepth (AnalysisSession.config s))
               s s' st st'.
Proof.
  induction fuel as [|fuel IH];
    intros className methodName s depth st r s' st' H; [discriminate|].
  apply request_cases in H.
  inversion H as [ Hd | out Hd Hhas Hget | Hd Hhas Hb | Hd Hhas Hb Hv
                 | analysis st1 s1 st3 Hd Hhas Hb Hc Hm Ha Hloop ]; subst.
  - apply FlowWithin_eq; [apply createPlaceholderAnalysis_spec|lia].
  - pose proof (cache_get_frame w className methodName st) as Hframe.
    simpl in Hframe.
    destruct (InMemoryMethodCache.get w className methodName st)
      as [[entry|] st1]; injection Hget as <- <- <-.
    + apply FlowWithin_eq; [apply Hframe|lia].
    + apply FlowWithin_eq; [|lia].
      transitivity (linearFlow st1); [|apply Hframe].
      apply createPlaceholderAnalysis_spec.
  - apply FlowWithin_eq; [apply createPlaceholderAnalysis_spec|lia].
  - apply FlowWithin_eq; [apply createPlaceholderAnalysis_spec|lia].
  - set (limit := AnalysisConfig.maxCallStackDepth (AnalysisSession.config s))
      in *.
    eapply FlowWithin_trans;
      [apply (FlowWithin_eq limit s s st st1);
       [eapply analyzeMethod_linearFlow; exact Ha|lia]|].
    eapply FlowWithin_trans;
      [apply (afterAnalysis_FlowWithin limit s
                (enter className methodName depth s) r depth st1 Hd);
       simpl; lia|].
    destruct (isCompleteIn r (afterAnalysis r depth st1)).
    + unfold processMethodCallsRecursively in Hloop.
      apply (FlowWithin_trans limit _ s1 _ _ st' st');
        [|apply FlowWithin_eq; [reflexivity|simpl; lia]].
      eapply (processMethodCalls_FlowWithin limit); [exact Hd| |reflexivity|exact Hloop].
      intros c m s0 d st0 r0 s0' st0' H0 Hlimit.
      split.
      * rewrite <- Hlimit. eapply IH. exact H0.
      * rewrite <- Hlimit. f_equal.
        apply (step_config s0 s0').
        eapply analyzeMethodRecursively_SessionStep. exact H0.
    + injection Hloop as <- <-. apply FlowWithin_eq; [reflexivity|simpl; lia].
Qed.

(** X20.  The limits of the session bound the linear flow: after
    [analyzeMethodFlow] every step of the flow is at a depth below
    [maxCallStackDepth], and the flow has at most one [methodStart] step
    for each method counted in the session, so at most [maxTotalMethods]
    of them. *)
Theorem linear_flow_within_limits
  (w : World) (fuel sfuel : nat) (className methodName : string)
  (config : AnalysisConfig.partial) (st : State)
  (r : ref) (s : AnalysisSession.t) (st' : State) :
  analyzeMethodFlow w fuel sfuel className methodName config st
  = Some (r, s, st') ->
  exists flow,
    linearFlow st' = Some flow
    /\ Forall (fun step =>
                 LinearExecutionStep.depth step
                 < AnalysisConfig.maxCallStackDepth
                     (AnalysisConfig.spread ANALYSIS_CONFIG config))
              (LinearExecutionFlow.steps flow)
    /\ List.length (filter isMethodStart (LinearExecutionFlow.steps flow))
       <= AnalysisSession.totalMethodsAnalyzed s
    /\ AnalysisSession.totalMethodsAnalyzed s
       <= AnalysisConfig.maxTotalMethods
            (AnalysisConfig.spread ANALYSIS_CONFIG config).
Proof.
  intros Hrun. unfold analyzeMethodFlow, createSession in Hrun.
  unfold Date_now in Hrun. cbv zeta in Hrun.
  match type of Hrun with
  | analyzeMethodRecursively _ _ _ _ _ ?session _ ?st0 = _ =>
      set (session0 := session) in *; set (state0 := st0) in *
  end.
  assert (Hflow0 : linearFlow state0
                   = Some (LinearExecutionFlow.mk [] JsMap.empty 0
                             (className ++ "." ++ methodName)))
    by reflexivity.
  assert (Hconfig : AnalysisSession.config session0
                    = AnalysisConfig.spread ANALYSIS_CONFIG config)
    by reflexivity.
  assert (Htotal : AnalysisSession.totalMethodsAnalyzed session0 = 0)
    by reflexivity.
  clearbody session0 state0.
  destruct (analyzeMethodRecursively_FlowWithin w fuel sfuel
              _ _ _ _ _ _ _ _ Hrun _ Hflow0)
    as [flow [added [Hflow [Hsteps [Hdepth Hstarts]]]]].
  pose proof (analyzeMethodRecursively_SessionStep w fuel sfuel
                _ _ _ _ _ _ _ _ Hrun) as Hstep.
  exists flow. split; [exact Hflow|].
  simpl in Hsteps. rewrite Hsteps, <- Hconfig.
  split; [exact Hdepth|]. split; [lia|].
  apply (step_budget _ _ Hstep). lia.
Qed.

(** The run on the chain [A.f -> B.g -> C.h -> D.k] with the depth limit 2:
    two methods are in the flow, at the depths 0 and 1. *)
Lemma linear_flow_within_limits_witness :
  exists r s st' flow,
    analyzeMethodFlow Scenario.chain 5 1 "A" "f" (Scenario.withMaxDepth 2)
                      (Scenario.fresh false) = Some (r, s, st')
    /\ linearFlow st' = Some flow
    /\ Forall (fun step => LinearExecutionStep.depth step < 2)
              (LinearExecutionFlow.steps flow)
    /\ List.length (filter isMethodStart (LinearExecutionFlow.steps flow))
       <= AnalysisSession.totalMethodsAnalyzed s.
Proof.
  destruct (analyzeMethodFlow Scenario.chain 5 1 "A" "f"
              (Scenario.withMaxDepth 2) (Scenario.fresh false))
    as [[[r s] st']|] eqn:Hrun; [|vm_compute in Hrun; discriminate].
  destruct (linear_flow_within_limits _ _ _ _ _ _ _ _ _ _ Hrun)
    as [flow [Hflow [Hdepth [Hstarts _]]]].
  exists r, s, st', flow. split; [reflexivity|].
  split; [exact Hflow|]. split; [exact Hdepth|exact Hstarts].
Defined.

(* ================================================================== *)
(** * More properties: suggestion following *)
(* ================================================================== *)

Lemma getFileInfo_found (w : World) (className path : string)
  (paths : list string) (content : string) (st : State) :
  findClassOrSymbol w className = Ok (path :: paths) ->
  readFileContent w path = Ok content ->
  getFileInfo w className st
  = Some (Ok (FileInfo.mk className path content (detectLanguage path)
                          (generateContentHash w content)
                          (clock w (ticks st))),
          set_ticks (S (ticks st)) st).
Proof.
  intros Hfind Hread. unfold getFileInfo, bind at 1.
  rewrite Hfind. simpl. unfold bind at 1. rewrite Hread. reflexivity.
Qed.

(** X21.  Suggestion following has no bound.  When the language model
    reports every method as not found and each time names a class whose
    source is in the workspace, [performMethodAnalysis] asks about the
    suggested class, gets the same kind of reply, and so on: it returns
    for no amount of fuel, and neither does [analyzeMethod] for a method
    that no cache holds. *)
Theorem suggestion_following_unbounded
  (w : World) (model : LanguageModelChat.t) :
  alwaysSuggests w ->
  (forall (fuel : nat) (className methodName : string)
          (fileInfo : FileInfo.t) (config : AnalysisConfig.t) (st : State),
      selectedModel st = Some model ->
      performMethodAnalysis w fuel className methodName fileInfo config st
      = None)
  /\ (forall (fuel : nat) (className methodName : string)
             (config : AnalysisConfig.partial) (st : State)
             (path : string) (paths : list string) (content : string),
         selectedModel st = Some model ->
         JsMap.get (InMemoryMethodCache.getCacheKey className methodName)
                   (cache st) = None ->
         durableMiss className methodName st ->
         findClassOrSymbol w className = Ok (path :: paths) ->
         readFileContent w path = Ok content ->
         analyzeMethod w fuel className methodName config st = None).
Proof.
  intros Hw.
  assert (Hperform :
            forall fuel className methodName fileInfo config st,
              selectedModel st = Some model ->
              performMethodAnalysis w fuel className methodName fileInfo
                                    config st = None).
  { induction fuel as [|fuel IH];
      intros className methodName fileInfo config st Hsel; [reflexivity|].
    cbn [performMethodAnalysis].
    unfold bind at 1.
    replace (selectLanguageModel w st) with (Some (Ok model, st))
      by (unfold selectLanguageModel, bind, gets, ret; rewrite Hsel;
          reflexivity).
    unfold bind at 1. rewrite askOracle_reply.
    specialize (Hw (oracleLog st) model
                  (OracleRequest.mk className methodName
                     (FileInfo.content fileInfo) (FileInfo.language fileInfo))
                  (AnalysisConfig.maxAnalysisTimeMs config)).
    destruct (sendRequest w (oracleLog st) model _ _) as [text|e|];
      try contradiction.
    destruct Hw as [Hnf [Hresp Hsug]].
    unfold parseLLMResponse. rewrite Hnf.
    cbn [ParsedMethodAnalysis.analysisStatus AnalysisStatus.eqb andb].
    rewrite Hresp.
    unfold bind at 1. unfold followLLMSuggestions.
    destruct (extractLLMSuggestions text) as [|suggestion rest];
      [contradiction|].
    destruct (findClassOrSymbol w (Suggestion.className suggestion))
      as [[|path paths]|e] eqn:Hfind; try contradiction.
    destruct (readFileContent w path) as [content|e] eqn:Hread;
      [|contradiction].
    cbn [trySuggestions].
    unfold bind at 1. unfold tryCatch. unfold bind at 1.
    rewrite (getFileInfo_found w _ path paths content _ Hfind Hread).
    unfold bind at 1. rewrite IH by exact Hsel. reflexivity. }
  split; [exact Hperform|].
  intros fuel className methodName config st path paths content
         Hsel Hmiss Hdurable Hfind Hread.
  unfold analyzeMethod, InMemoryMethodCache.get.
  unfold Date_now. cbv zeta. rewrite Hmiss. cbv zeta.
  unfold analyzeMethodTry. unfold bind at 1.
  rewrite (getFileInfo_found w _ path paths content _ Hfind Hread).
  unfold bind at 1.
  set (st2 := set_ticks _ (set_ticks _ _)).
  assert (Hsel2 : selectedModel st2 = Some model) by exact Hsel.
  assert (Hpc : persistentCache st2 = persistentCache st) by reflexivity.
  unfold durableMiss in Hdurable. rewrite <- Hpc in Hdurable.
  clearbody st2. rewrite Hsel2.
  destruct (persistentCache st2) as [es|].
  - unfold PersistentAnalysisCache.get. rewrite Hdurable.
    unfold bind at 1. rewrite Hperform by exact Hsel2. reflexivity.
  - unfold bind at 1. rewrite Hperform by exact Hsel2. reflexivity.
Qed.

Lemma lookInBase_alwaysSuggests : alwaysSuggests lookInBase.
Proof.
  intros log model request timeoutMs. vm_compute. repeat split.
Qed.

(** In the world [lookInBase] the analysis of [Child.run] does not return
    with the fuel 100, nor with any other. *)
Lemma suggestion_following_unbounded_witness :
  alwaysSuggests lookInBase
  /\ (forall fuel,
         analyzeMethod lookInBase fuel "Child" "run" AnalysisConfig.none
                       (Scenario.ready false) = None)
  /\ performMethodAnalysis lookInBase 100 "Child" "run"
       (FileInfo.mk "Child" (Scenario.pathOf "Child")
                    (Scenario.sourceV1 (Scenario.pathOf "Child")) "java"
                    EmptyString 0%Z)
       ANALYSIS_CONFIG (Scenario.ready false)
     = None.
Proof.
  split; [exact lookInBase_alwaysSuggests|]. split.
  - intros fuel.
    apply (proj2 (suggestion_following_unbounded lookInBase Scenario.gpt
                    lookInBase_alwaysSuggests)
             fuel "Child" "run" AnalysisConfig.none (Scenario.ready false)
             (Scenario.pathOf "Child") []
             (Scenario.sourceV1 (Scenario.pathOf "Child")));
      reflexivity.
  - apply (proj1 (suggestion_following_unbounded lookInBase Scenario.gpt
                    lookInBase_alwaysSuggests)).
    reflexivity.
Defined.

(* ================================================================== *)
(** * More properties: the durable cache in [analyzeMethod] *)
(* ================================================================== *)

(** The last step of the [try] of [analyzeMethod], the write to the durable
    cache, leaves the log of the oracle and the selected model alone. *)
Lemma durable_step_frame (w : World) (className methodName : string)
  (analysis : ref) (fileInfo : FileInfo.t) (st : State) :
  let st' :=
    match persistentCache st, selectedModel st with
    | Some es, Some model =>
        if AnalysisStatus.eqb
             (MethodAnalysis.analysisStatus (deref analysis st))
             AnalysisStatus.complete
        then
          let modelName := getModelDisplayName model in
          let (es, st) :=
            PersistentAnalysisCache.set w className methodName
              analysis (FileInfo.content fileInfo)
              (FileInfo.filePath fileInfo) modelName es st in
          set_persistentCache (Some es) st
        else st
    | _, _ => st
    end in
  oracleLog st' = oracleLog st /\ selectedModel st' = selectedModel st.
Proof.
  cbv zeta.
  destruct (persistentCache st) as [es|]; [|split; reflexivity].
  destruct (selectedModel st) as [model|] eqn:Hsel;
    [|split; [reflexivity|exact Hsel]].
  destruct (AnalysisStatus.eqb _ _); [|split; [reflexivity|exact Hsel]].
  pose proof (durable_set_frame w className methodName analysis
                (FileInfo.content fileInfo) (FileInfo.filePath fileInfo)
                (getModelDisplayName model) es st) as H.
  simpl in H.
  destruct (PersistentAnalysisCache.set w className methodName analysis
              (FileInfo.content fileInfo) (FileInfo.filePath fileInfo)
              (getModelDisplayName model) es st) as [es' st1].
  simpl in *. split; [tauto|].
  transitivity (selectedModel st); [tauto|exact Hsel].
Qed.

Lemma selectLanguageModel_only (w : World) (model : LanguageModelChat.t)
  (st : State) :
  selectedModel st = None ->
  selectChatModels w = Ok [model] ->
  selectLanguageModel w st
  = Some (Ok model, set_selectedModel (Some model) st).
Proof.
  intros Hsel Hmodels.
  unfold selectLanguageModel, bind at 1, gets. rewrite Hsel.
  unfold bind at 1. rewrite Hmodels. reflexivity.
Qed.

(** When the oracle finds every method, [performMethodAnalysis] selects the
    model and asks the oracle once. *)
Lemma performMethodAnalysis_once (w : World) (fuel : nat)
  (className methodName : string) (fileInfo : FileInfo.t)
  (config : AnalysisConfig.t) (model : LanguageModelChat.t)
  (st st1 : State) :
  oracleFindsAll w ->
  selectLanguageModel w st = Some (Ok model, st1) ->
  exists out st',
    performMethodAnalysis w (S fuel) className methodName fileInfo config st
    = Some (out, st')
    /\ oracleLog st'
       = (oracleLog st1
          ++ [OracleRequest.mk className methodName
                (FileInfo.content fileInfo) (FileInfo.language fileInfo)])%list
    /\ selectedModel st' = selectedModel st1.
Proof.
  intros Hfinds Hselect. cbn [performMethodAnalysis].
  unfold bind at 1. rewrite Hselect.
  unfold bind at 1. rewrite askOracle_reply.
  specialize (Hfinds (oracleLog st1) model
                (OracleRequest.mk className methodName
                   (FileInfo.content fileInfo) (FileInfo.language fileInfo))
                (AnalysisConfig.maxAnalysisTimeMs config)).
  destruct (sendRequest w (oracleLog st1) model _ _) as [text|e|].
  - unfold parseLLMResponse. rewrite Hfinds. simpl.
    unfold bind, ret, lift, Date_now, alloc. simpl.
    eexists. eexists. split; [reflexivity|]. split; reflexivity.
  - eexists. eexists. split; [reflexivity|]. split; reflexivity.
  - eexists. eexists. split; [reflexivity|]. split; reflexivity.
Qed.

(** X22.  The durable cache serves a method only once a model is selected.
    With a model selected, a method that the session cache misses and for
    which the durable cache holds an entry of the same source text and the
    same model, not older than 30 days, is answered from that entry: the
    language model is not asked, and the analysis is put into the session
    cache.  With no model selected yet, as in a new session, the same entry
    is not looked at: the language model is asked about the method. *)
Theorem durable_tier_needs_model
  (w : World) (className methodName : string)
  (config : AnalysisConfig.partial) (st : State)
  (path : string) (paths : list string) (content : string)
  (es : PersistentAnalysisCache.entries) (entry : PersistentCacheEntry.t) :
  JsMap.get (InMemoryMethodCache.getCacheKey className methodName) (cache st)
  = None ->
  findClassOrSymbol w className = Ok (path :: paths) ->
  readFileContent w path = Ok content ->
  persistentCache st = Some es ->
  JsMap.get (PersistentAnalysisCache.getCacheKey className methodName) es
  = Some entry ->
  PersistentCacheEntry.contentHash entry
  = PersistentAnalysisCache.calculateContentHash w content ->
  (clock w (S (S (ticks st))) - PersistentCacheEntry.timestamp entry
   <= PersistentAnalysisCache.MAX_CACHE_AGE_MS)%Z ->
  (forall (fuel : nat) (model : LanguageModelChat.t),
      selectedModel st = Some model ->
      PersistentCacheEntry.modelName entry = getModelDisplayName model ->
      exists st',
        analyzeMethod w fuel className methodName config st
        = Some (PersistentCacheEntry.analysis entry, st')
        /\ oracleLog st' = oracleLog st
        /\ persistentCache st' = Some es
        /\ exists cached,
             JsMap.get (InMemoryMethodCache.getCacheKey className methodName)
                       (cache st') = Some cached
             /\ CacheEntry.analysis cached
                = PersistentCacheEntry.analysis entry)
  /\ (forall (fuel : nat) (model : LanguageModelChat.t),
         selectedModel st = None ->
         selectChatModels w = Ok [model] ->
         oracleFindsAll w ->
         exists r st',
           analyzeMethod w (S fuel) className methodName config st
           = Some (r, st')
           /\ oracleLog st'
              = (oracleLog st
                 ++ [OracleRequest.mk className methodName content
                                      (detectLanguage path)])%list
           /\ selectedModel st' = Some model).
Proof.
  intros Hmiss Hfind Hread Hdurable Hentry Hhash Hage.
  split.
  - intros fuel model Hsel Hmodel.
    unfold analyzeMethod, InMemoryMethodCache.get.
    rewrite Hmiss. unfold Date_now. cbv zeta.
    unfold analyzeMethodTry. unfold bind at 1.
    rewrite (getFileInfo_found w _ path paths content _ Hfind Hread).
    unfold bind at 1.
    cbn [persistentCache selectedModel set_ticks InMemoryMethodCache.countMiss
         set_stats FileInfo.content].
    rewrite Hdurable, Hsel.
    unfold PersistentAnalysisCache.get. rewrite Hentry.
    rewrite Hhash, String.eqb_refl. cbn [negb].
    rewrite Hmodel, String.eqb_refl. cbn [negb].
    unfold Date_now. cbn [ticks].
    replace (_ <? _)%Z with false
      by (symmetry; apply Z.ltb_ge; exact Hage).
    unfold bind at 1, modify, ret.
    eexists. split; [reflexivity|].
    split; [etransitivity; [apply cache_set_frame|reflexivity]|].
    split.
    + etransitivity; [apply cache_set_frame|reflexivity].
    + apply (cache_set_entry w className methodName).
  - intros fuel model Hsel Hmodels Hfinds.
    unfold analyzeMethod, InMemoryMethodCache.get.
    rewrite Hmiss. unfold Date_now. cbv zeta.
    unfold analyzeMethodTry. unfold bind at 1.
    rewrite (getFileInfo_found w _ path paths content _ Hfind Hread).
    unfold bind at 1.
    cbn [persistentCache selectedModel set_ticks InMemoryMethodCache.countMiss
         set_stats FileInfo.content].
    rewrite Hdurable, Hsel.
    set (st2 := set_ticks _ (set_ticks _ _)).
    assert (Hsel2 : selectedModel st2 = None) by exact Hsel.
    assert (Hlog2 : oracleLog st2 = oracleLog st) by reflexivity.
    clearbody st2.
    match goal with
    | |- context [performMethodAnalysis w (S fuel) className methodName
                    ?info _] => set (fileInfo := info)
    end.
    destruct (performMethodAnalysis_once w fuel className methodName
                fileInfo
                (AnalysisConfig.spread ANALYSIS_CONFIG config) model st2
                (set_selectedModel (Some model) st2) Hfinds
                (selectLanguageModel_only w model st2 Hsel2 Hmodels))
      as [out [st3 [Hperform [Hlog3 Hsel3]]]].
    unfold bind at 1. rewrite Hperform.
    unfold fileInfo in Hlog3. simpl in Hlog3, Hsel3. rewrite Hlog2 in Hlog3.
    destruct out as [analysis|e].
    + unfold bind, modify, ret. cbv beta.
      eexists. eexists. split; [reflexivity|].
      match goal with
      | |- oracleLog ?final = _ /\ _ =>
          match final with
          | context [InMemoryMethodCache.set w className methodName analysis
                       ?stamped] =>
              pose proof (durable_step_frame w className methodName analysis
                            fileInfo
                            (InMemoryMethodCache.set w className methodName
                               analysis stamped)) as [Hlog Hmodel];
              pose proof (cache_set_frame w className methodName analysis
                            stamped) as [_ [_ [Hlog' [_ Hmodel']]]]
          end
      end.
      cbv zeta in Hlog, Hmodel, Hlog', Hmodel'.
      split.
      * etransitivity; [exact Hlog|]. etransitivity; [exact Hlog'|].
        exact Hlog3.
      * etransitivity; [exact Hmodel|]. etransitivity; [exact Hmodel'|].
        exact Hsel3.
    + unfold alloc.
      eexists. eexists. split; [reflexivity|].
      split.
      * etransitivity; [apply cache_set_frame|]. exact Hlog3.
      * etransitivity; [apply cache_set_frame|]. exact Hsel3.
Qed.

Lemma leaf_finds_all : oracleFindsAll Scenario.leaf.
Proof.
  apply worldOf_finds_all. intros c m. vm_compute. reflexivity.
Qed.

(** The durable cache holds [A.f].  Once the session cache is cleared, a
    request for [A.f] is answered from the durable cache and the oracle is
    not asked; once the model selection is reset as well, the oracle is
    asked again. *)
Lemma durable_tier_needs_model_witness :
  exists entry st1 r st2,
    durableEntry "A" "f" leafAnalyzed = Some entry
    /\ analyzeMethod Scenario.leaf 1 "A" "f" AnalysisConfig.none
         (InMemoryMethodCache_clear leafAnalyzed)
       = Some (PersistentCacheEntry.analysis entry, st1)
    /\ oracleLog st1 = oracleLog leafAnalyzed
    /\ analyzeMethod Scenario.leaf 1 "A" "f" AnalysisConfig.none
         (resetModelSelection (InMemoryMethodCache_clear leafAnalyzed))
       = Some (r, st2)
    /\ List.length (oracleLog st2) = S (List.length (oracleLog leafAnalyzed)).
Proof.
  destruct (durableEntry "A" "f" leafAnalyzed) as [entry|] eqn:Hentry;
    [|vm_compute in Hentry; discriminate].
  assert (Hhash : PersistentCacheEntry.contentHash entry
                  = PersistentAnalysisCache.calculateContentHash Scenario.leaf
                      (Scenario.sourceV1 (Scenario.pathOf "A"))).
  { vm_compute in Hentry. injection Hentry as <-. reflexivity. }
  assert (Hage : (clock Scenario.leaf
                    (S (S (ticks (InMemoryMethodCache_clear leafAnalyzed))))
                  - PersistentCacheEntry.timestamp entry
                  <= PersistentAnalysisCache.MAX_CACHE_AGE_MS)%Z).
  { vm_compute in Hentry. injection Hentry as <-.
    vm_compute. discriminate. }
  assert (Hmodel : PersistentCacheEntry.modelName entry
                   = getModelDisplayName Scenario.gpt).
  { vm_compute in Hentry. injection Hentry as <-. reflexivity. }
  destruct (proj1 (durable_tier_needs_model Scenario.leaf "A" "f"
                     AnalysisConfig.none
                     (InMemoryMethodCache_clear leafAnalyzed)
                     (Scenario.pathOf "A") []
                     (Scenario.sourceV1 (Scenario.pathOf "A"))
                     (durableEntries leafAnalyzed) entry
                     eq_refl eq_refl eq_refl eq_refl Hentry Hhash Hage)
              1 Scenario.gpt eq_refl Hmodel)
    as [st1 [Hrun1 [Hlog1 _]]].
  destruct (proj2 (durable_tier_needs_model Scenario.leaf "A" "f"
                     AnalysisConfig.none
                     (resetModelSelection
                        (InMemoryMethodCache_clear leafAnalyzed))
                     (Scenario.pathOf "A") []
                     (Scenario.sourceV1 (Scenario.pathOf "A"))
                     (durableEntries leafAnalyzed) entry
                     eq_refl eq_refl eq_refl eq_refl Hentry Hhash Hage)
              0 Scenario.gpt eq_refl eq_refl
              leaf_finds_all)
    as [r [st2 [Hrun2 [Hlog2 _]]]].
  exists entry, st1, r, st2.
  split; [reflexivity|]. split; [exact Hrun1|]. split; [exact Hlog1|].
  split; [exact Hrun2|].
  rewrite Hlog2, length_app. simpl. lia.
Defined.

(* ================================================================== *)
(** * More properties: the calls [parseMethodCall] accepts *)
(* ================================================================== *)

Lemma append_assoc (x y z : string) : (x ++ y) ++ z = x ++ (y ++ z).
Proof. induction x as [|a x IH]; simpl; [reflexivity|]. rewrite IH. reflexivity. Qed.

Lemma append_nil_r (x : string) : x ++ EmptyString = x.
Proof. induction x as [|a x IH]; simpl; [reflexivity|]. rewrite IH. reflexivity. Qed.

Lemma length_append (x y : string) :
  String.length (x ++ y) = String.length x + String.length y.
Proof. induction x as [|a x IH]; simpl; [reflexivity|]. rewrite IH. reflexivity. Qed.

Lemma take_append (x y : string) : Js.take (String.length x) (x ++ y) = x.
Proof. induction x as [|a x IH]; simpl; [destruct y; reflexivity|]. rewrite IH. reflexivity. Qed.

Lemma drop_append (x y : string) : Js.drop (String.length x) (x ++ y) = y.
Proof. induction x as [|a x IH]; simpl; [reflexivity|exact IH]. Qed.

(** The text between two offsets. *)
Lemma substring_middle (x y z : string) (b e : nat) :
  b = String.length x -> e = b + String.length y ->
  Js.substring b e (x ++ y ++ z) = y.
Proof.
  intros -> ->. unfold Js.substring.
  rewrite drop_append.
  replace (String.length x + String.length y - String.length x)
    with (String.length y) by lia.
  apply take_append.
Qed.

Lemma startsWith_append (l s : string) : Js.startsWith l (l ++ s) = true.
Proof.
  induction l as [|a l IH]; simpl; [destruct s; reflexivity|].
  rewrite Ascii.eqb_refl. exact IH.
Qed.

Lemma startsWith_inv (l : string) :
  forall s, Js.startsWith l s = true -> s = l ++ Js.drop (String.length l) s.
Proof.
  induction l as [|a l IH]; intros s H; [reflexivity|].
  destruct s as [|b s]; [discriminate|]. simpl in H.
  apply andb_true_iff in H. destruct H as [Hab H].
  apply Ascii.eqb_eq in Hab. subst b. simpl. f_equal. apply IH. exact H.
Qed.


(** ** How a match goes through a pattern, node by node *)

Lemma rmatch_Lit_inv (l : string) (r : Regex.regex) (s : string) (i : nat)
  (caps : Regex.captures) (m : nat * Regex.captures) :
  Regex.rmatch (Regex.Lit l :: r) s i caps = Some m ->
  exists s',
    s = l ++ s' /\ Regex.rmatch r s' (i + String.length l) caps = Some m.
Proof.
  cbn [Regex.rmatch]. destruct (Js.startsWith l s) eqn:E; [|discriminate].
  intros H. exists (Js.drop (String.length l) s).
  split; [apply startsWith_inv; exact E|exact H].
Qed.

Lemma rmatch_One_inv (c : ascii -> bool) (r : Regex.regex) (s : string)
  (i : nat) (caps : Regex.captures) (m : nat * Regex.captures) :
  Regex.rmatch (Regex.One c :: r) s i caps = Some m ->
  exists a s',
    s = String a s' /\ c a = true /\ Regex.rmatch r s' (S i) caps = Some m.
Proof.
  cbn [Regex.rmatch]. destruct s as [|a s']; [discriminate|].
  destruct (c a) eqn:E; [|discriminate].
  intros H. exists a, s'. repeat split; assumption.
Qed.

Lemma repFrom_inv {A : Type} (c : ascii -> bool) (min : nat) (greedy : bool)
  (k : string -> nat -> option A) (s : string) :
  forall i n m,
    repFrom c min greedy k s i n = Some m ->
    exists pre suf,
      s = pre ++ suf /\ allChars c pre = true
      /\ k suf (i + String.length pre) = Some m.
Proof.
  assert (Hstop : forall s i n m,
             (if (min <=? n)%nat then k s i else None) = Some m ->
             exists pre suf,
               s = pre ++ suf /\ allChars c pre = true
               /\ k suf (i + String.length pre) = Some m).
  { intros s0 i n m H. destruct (min <=? n)%nat; [|discriminate].
    exists EmptyString, s0. simpl. rewrite Nat.add_0_r. auto. }
  assert (Hstep : forall a s' i m,
             c a = true ->
             (exists pre suf,
                 s' = pre ++ suf /\ allChars c pre = true
                 /\ k suf (S i + String.length pre) = Some m) ->
             exists pre suf,
               String a s' = pre ++ suf /\ allChars c pre = true
               /\ k suf (i + String.length pre) = Some m).
  { intros a s' i m Ha [pre [suf [-> [Hpre Hk]]]].
    exists (String a pre), suf. simpl. rewrite Ha, Hpre.
    replace (i + S (String.length pre)) with (S i + String.length pre) by lia.
    auto. }
  induction s as [|a s IH]; intros i n m; cbn [repFrom].
  - apply Hstop.
  - destruct (c a) eqn:Ha; [|apply Hstop].
    destruct greedy.
    + destruct (repFrom c min true k s (S i) (S n)) as [m'|] eqn:E.
      * intros [= <-]. apply Hstep; [exact Ha|]. eapply IH. exact E.
      * apply Hstop.
    + destruct (if (min <=? n)%nat then k (String a s) i else None)
        as [m'|] eqn:E.
      * intros [= <-]. eapply Hstop. exact E.
      * intros H. apply Hstep; [exact Ha|]. eapply IH. exact H.
Qed.

Lemma rmatch_Rep_inv (c : ascii -> bool) (min : nat) (greedy : bool)
  (r : Regex.regex) (s : string) (i : nat) (caps : Regex.captures)
  (m : nat * Regex.captures) :
  Regex.rmatch (Regex.Rep c min greedy :: r) s i caps = Some m ->
  exists pre suf,
    s = pre ++ suf /\ allChars c pre = true
    /\ Regex.rmatch r suf (i + String.length pre) caps = Some m.
Proof.
  rewrite rmatch_Rep. apply repFrom_inv.
Qed.

Lemma rmatch_Eos_inv (r : Regex.regex) (s : string) (i : nat)
  (caps : Regex.captures) (m : nat * Regex.captures) :
  Regex.rmatch (Regex.Eos :: r) s i caps = Some m ->
  s = EmptyString /\ Regex.rmatch r EmptyString i caps = Some m.
Proof.
  cbn [Regex.rmatch]. destruct s; [auto|discriminate].
Qed.

Lemma rmatch_GOpen (g : nat) (r : Regex.regex) (s : string) (i : nat)
  (caps : Regex.captures) :
  Regex.rmatch (Regex.GOpen g :: r) s i caps
  = Regex.rmatch r s i (Regex.openGroup g i caps).
Proof. reflexivity. Qed.

Lemma rmatch_GClose (g : nat) (r : Regex.regex) (s : string) (i : nat)
  (caps : Regex.captures) :
  Regex.rmatch (Regex.GClose g :: r) s i caps
  = Regex.rmatch r s i (Regex.closeGroup g i caps).
Proof. reflexivity. Qed.

(** A pattern anchored at the start matches at offset 0 or not at all. *)
Lemma matchFirst_Bos (r : Regex.regex) (s : string) :
  Regex.matchFirst (Regex.Bos :: r) s
  = match Regex.rmatch r s 0 [] with
    | Some (e, cs) => Some (Regex.mkFound 0 e cs)
    | None => None
    end.
Proof.
  unfold Regex.matchFirst.
  destruct s as [|a s]; cbn [Regex.search];
    change (Regex.rmatch (Regex.Bos :: r) ?s 0 [])
      with (Regex.rmatch r s 0 []).
  - change (Regex.rmatch (Regex.Bos :: r) EmptyString 0 [])
      with (Regex.rmatch r EmptyString 0 []).
    destruct (Regex.rmatch r EmptyString 0 []) as [[e cs]|]; reflexivity.
  - change (Regex.rmatch (Regex.Bos :: r) (String a s) 0 [])
      with (Regex.rmatch r (String a s) 0 []).
    destruct (Regex.rmatch r (String a s) 0 []) as [[e cs]|];
      [reflexivity|].
    apply search_Bos. discriminate.
Qed.

(** ** Trimming *)

Lemma idChar_not_space (a : ascii) :
  Regex.idChar a = true -> Js.isSpace a = false.
Proof.
  destruct a as [[] [] [] [] [] [] [] []]; vm_compute;
    intros H; solve [reflexivity | discriminate].
Qed.

Lemma trimEnd_no_space (s : string) :
  allChars (fun a => negb (Js.isSpace a)) s = true -> Js.trimEnd s = s.
Proof.
  induction s as [|a s IH]; simpl; [reflexivity|].
  intros H. apply andb_true_iff in H. destruct H as [Ha Hs].
  rewrite (IH Hs). apply Bool.negb_true_iff in Ha. rewrite Ha.
  destruct s; reflexivity.
Qed.

Lemma allChars_impl (c d : ascii -> bool) (s : string) :
  (forall a, c a = true -> d a = true) ->
  allChars c s = true -> allChars d s = true.
Proof.
  intros Hcd. induction s as [|a s IH]; simpl; [reflexivity|].
  intros H. apply andb_true_iff in H. destruct H as [Ha Hs].
  rewrite (Hcd a Ha), (IH Hs). reflexivity.
Qed.

(** An identifier has no white space to trim. *)
Lemma trim_identifier (s : string) : isIdentifier s = true -> Js.trim s = s.
Proof.
  destruct s as [|a s]; [discriminate|]. simpl.
  intros H. apply andb_true_iff in H. destruct H as [Ha Hs].
  assert (Hspace : Js.isSpace a = false).
  { apply idChar_not_space. unfold Regex.idChar. rewrite Ha. reflexivity. }
  unfold Js.trim. cbn [Js.trimStart]. rewrite Hspace.
  apply trimEnd_no_space. simpl. rewrite Hspace. simpl.
  apply (allChars_impl Regex.idChar); [|exact Hs].
  intros b Hb. rewrite (idChar_not_space b Hb). reflexivity.
Qed.



Ltac norm_append :=
  repeat first [ rewrite append_assoc
               | rewrite append_nil_r
               | progress (cbn [String.append]) ].

(** What a match of [classMethodPattern] says about the input. *)
Lemma classMethodPattern_inv (s : string) (m : Regex.found) :
  Regex.matchFirst classMethodPattern s = Some m ->
  exists cls sp1 sp2 meth sp3 raw sp4,
    s = qualifiedCall cls sp1 sp2 meth sp3 raw sp4
    /\ isIdentifier cls = true /\ isIdentifier meth = true
    /\ allChars Js.isSpace sp1 = true /\ allChars Js.isSpace sp2 = true
    /\ allChars Js.isSpace sp3 = true /\ allChars Js.isSpace sp4 = true
    /\ allChars (Regex.notChar ")") raw = true
    /\ Regex.group s m 1 = cls
    /\ Regex.group s m 2 = meth
    /\ Regex.group s m 3 = raw.
Proof.
  unfold classMethodPattern. rewrite matchFirst_Bos.
  destruct (Regex.rmatch _ s 0 []) as [[e cs]|] eqn:H; [|discriminate].
  intros [= <-].
  rewrite rmatch_GOpen in H.
  apply rmatch_One_inv in H. destruct H as [a [s1 [-> [Ha H]]]].
  apply rmatch_Rep_inv in H. destruct H as [pre1 [suf1 [-> [Hpre1 H]]]].
  rewrite rmatch_GClose in H.
  apply rmatch_Rep_inv in H. destruct H as [sp1 [suf2 [-> [Hsp1 H]]]].
  apply rmatch_Lit_inv in H. destruct H as [suf3 [-> H]].
  apply rmatch_Rep_inv in H. destruct H as [sp2 [suf4 [-> [Hsp2 H]]]].
  rewrite rmatch_GOpen in H.
  apply rmatch_One_inv in H. destruct H as [b [s5 [-> [Hb H]]]].
  apply rmatch_Rep_inv in H. destruct H as [pre2 [suf5 [-> [Hpre2 H]]]].
  rewrite rmatch_GClose in H.
  apply rmatch_Rep_inv in H. destruct H as [sp3 [suf6 [-> [Hsp3 H]]]].
  apply rmatch_Lit_inv in H. destruct H as [suf7 [-> H]].
  rewrite rmatch_GOpen in H.
  apply rmatch_Rep_inv in H. destruct H as [raw [suf8 [-> [Hraw H]]]].
  rewrite rmatch_GClose in H.
  apply rmatch_Lit_inv in H. destruct H as [suf9 [-> H]].
  apply rmatch_Rep_inv in H. destruct H as [sp4 [suf10 [-> [Hsp4 H]]]].
  apply rmatch_Eos_inv in H. destruct H as [-> H].
  cbn [Regex.rmatch] in H. injection H as _ <-.
  exists (String a pre1), sp1, sp2, (String b pre2), sp3, raw, sp4.
  split; [unfold qualifiedCall; norm_append; reflexivity|].
  split; [simpl; rewrite Ha, Hpre1; reflexivity|].
  split; [simpl; rewrite Hb, Hpre2; reflexivity|].
  repeat (split; [assumption|]).
  unfold Regex.group. cbn [Regex.groupSpan Regex.caps Nat.eqb].
  split; [|split].
  - unfold Js.substring. cbn [Js.drop Nat.sub Js.take].
    rewrite take_append. reflexivity.
  - transitivity
      (Js.substring
         (S (String.length pre1 + String.length sp1 + 1 + String.length sp2))
         (S (S (String.length pre1 + String.length sp1 + 1
                + String.length sp2 + String.length pre2)))
         (String a (pre1 ++ sp1 ++ "." ++ sp2) ++ String b pre2
          ++ sp3 ++ "(" ++ raw ++ ")" ++ sp4));
      [f_equal; norm_append; reflexivity|].
    apply substring_middle; cbn [String.length];
      rewrite ?length_append; cbn [String.length]; lia.
  - transitivity
      (Js.substring
         (S (S (String.length pre1 + String.length sp1 + 1
                + String.length sp2 + String.length pre2
                + String.length sp3 + 1)))
         (S (S (String.length pre1 + String.length sp1 + 1
                + String.length sp2 + String.length pre2
                + String.length sp3 + 1 + String.length raw)))
         (String a (pre1 ++ sp1 ++ "." ++ sp2 ++ String b pre2
                    ++ sp3 ++ "(")
          ++ raw ++ ")" ++ sp4));
      [f_equal; norm_append; reflexivity|].
    apply substring_middle; cbn [String.length];
      rewrite ?length_append; cbn [String.length];
      rewrite ?length_append; cbn [String.length];
      rewrite ?length_append; cbn [String.length]; lia.
Qed.

(** What a match of [standalonePattern] says about the input. *)
Lemma standalonePattern_inv (s : string) (m : Regex.found) :
  Regex.matchFirst standalonePattern s = Some m ->
  exists meth sp3 raw sp4,
    s = standaloneCall meth sp3 raw sp4
    /\ isIdentifier meth = true
    /\ allChars Js.isSpace sp3 = true /\ allChars Js.isSpace sp4 = true
    /\ allChars (Regex.notChar ")") raw = true
    /\ Regex.group s m 1 = meth
    /\ Regex.group s m 2 = raw.
Proof.
  unfold standalonePattern. rewrite matchFirst_Bos.
  destruct (Regex.rmatch _ s 0 []) as [[e cs]|] eqn:H; [|discriminate].
  intros [= <-].
  rewrite rmatch_GOpen in H.
  apply rmatch_One_inv in H. destruct H as [b [s1 [-> [Hb H]]]].
  apply rmatch_Rep_inv in H. destruct H as [pre2 [suf1 [-> [Hpre2 H]]]].
  rewrite rmatch_GClose in H.
  apply rmatch_Rep_inv in H. destruct H as [sp3 [suf2 [-> [Hsp3 H]]]].
  apply rmatch_Lit_inv in H. destruct H as [suf3 [-> H]].
  rewrite rmatch_GOpen in H.
  apply rmatch_Rep_inv in H. destruct H as [raw [suf4 [-> [Hraw H]]]].
  rewrite rmatch_GClose in H.
  apply rmatch_Lit_inv in H. destruct H as [suf5 [-> H]].
  apply rmatch_Rep_inv in H. destruct H as [sp4 [suf6 [-> [Hsp4 H]]]].
  apply rmatch_Eos_inv in H. destruct H as [-> H].
  cbn [Regex.rmatch] in H. injection H as _ <-.
  exists (String b pre2), sp3, raw, sp4.
  split; [unfold standaloneCall; norm_append; reflexivity|].
  split; [simpl; rewrite Hb, Hpre2; reflexivity|].
  repeat (split; [assumption|]).
  unfold Regex.group. cbn [Regex.groupSpan Regex.caps Nat.eqb].
  split.
  - unfold Js.substring. cbn [Js.drop Nat.sub Js.take].
    rewrite take_append. reflexivity.
  - transitivity
      (Js.substring
         (S (String.length pre2 + String.length sp3 + 1))
         (S (String.length pre2 + String.length sp3 + 1 + String.length raw))
         (String b (pre2 ++ sp3 ++ "(") ++ raw ++ ")" ++ sp4));
      [f_equal; norm_append; reflexivity|].
    apply substring_middle; cbn [String.length];
      rewrite ?length_append; cbn [String.length];
      rewrite ?length_append; cbn [String.length]; lia.
Qed.



(** ** How a match goes on, node by node *)


















(** ** Texts that cleaning leaves as they are *)









(* ================================================================== *)
(** * More properties: the names of the parsed calls *)
(* ================================================================== *)

Lemma parseMethodCall_names (fullCall cls meth params : string) :
  parseMethodCall fullCall = Some (cls, meth, params) ->
  isIdentifier cls = true /\ isIdentifier meth = true.
Proof.
  unfold parseMethodCall. cbv zeta.
  set (cleanCall := Js.trim (Js.removeChar "`" fullCall)).
  destruct (Regex.matchFirst classMethodPattern cleanCall) as [m|] eqn:E.
  - destruct (classMethodPattern_inv cleanCall m E)
      as (c & sp1 & sp2 & f & sp3 & raw & sp4 & Hshape & Hc & Hf & H1 & H2
          & H3 & H4 & Hraw & G1 & G2 & G3).
    rewrite G1, G2, (trim_identifier c Hc), (trim_identifier f Hf).
    intros [= <- <- _]. split; assumption.
  - destruct (Regex.matchFirst standalonePattern cleanCall) as [m|] eqn:E';
      [|discriminate].
    destruct (standalonePattern_inv cleanCall m E')
      as (f & sp3 & raw & sp4 & Hshape & Hf & H3 & H4 & Hraw & G1 & G2).
    rewrite G1, (trim_identifier f Hf).
    intros [= <- <- _]. split; [reflexivity|exact Hf].
Qed.

Lemma collectCalls_names (blockText : string) (ms : list Regex.found) :
  forall callIndex,
    Forall (fun call =>
              isIdentifier (MethodCall.className call) = true
              /\ isIdentifier (MethodCall.methodName call) = true)
           (collectCalls blockText ms callIndex).
Proof.
  induction ms as [|m ms IH]; intros callIndex; simpl; [constructor|].
  destruct (parseMethodCall _) as [[[cls meth] params]|] eqn:E.
  - constructor; [|apply IH]. simpl.
    eapply parseMethodCall_names. exact E.
  - apply IH.
Qed.

Lemma collectBlocks_names (responseText : string) (ms : list Regex.found) :
  forall blockIndex,
    Forall (fun call =>
              isIdentifier (MethodCall.className call) = true
              /\ isIdentifier (MethodCall.methodName call) = true)
           (flat_map ExecutionBlock.methodCalls
                     (collectBlocks responseText ms blockIndex)).
Proof.
  induction ms as [|m ms IH]; intros blockIndex; simpl; [constructor|].
  apply Forall_app. split; [|apply IH].
  apply collectCalls_names.
Qed.

(** X25.  The names of the calls of a parsed reply are identifiers,
    whatever the reply says: a call whose target is not written as an
    identifier, or as two identifiers around a dot, is not among them.  So
    [isValidIdentifier], the check of the controller before it steps into
    a call, can only fail on a parsed call for a name of 100 characters or
    more. *)
Theorem parsed_calls_are_identifiers
  (responseText className methodName language : string)
  (call : MethodCall.t) :
  In call (ParsedMethodAnalysis.methodCalls
             (parseLLMResponse responseText className methodName language)) ->
  isIdentifier (MethodCall.className call) = true
  /\ isIdentifier (MethodCall.methodName call) = true
  /\ isValidIdentifier (MethodCall.className call)
     = (String.length (MethodCall.className call) <? 100)%nat
  /\ isValidIdentifier (MethodCall.methodName call)
     = (String.length (MethodCall.methodName call) <? 100)%nat.
Proof.
  intros Hin.
  assert (Hnames : isIdentifier (MethodCall.className call) = true
                   /\ isIdentifier (MethodCall.methodName call) = true).
  { unfold parseLLMResponse in Hin.
    destruct (isMethodNotFound responseText); [destruct Hin|].
    cbn [ParsedMethodAnalysis.methodCalls] in Hin.
    pose proof (collectBlocks_names responseText
                  (Regex.execAll blockPattern responseText) 0) as Hall.
    rewrite Forall_forall in Hall. apply Hall. exact Hin. }
  destruct Hnames as [Hc Hm].
  split; [exact Hc|]. split; [exact Hm|].
  unfold isValidIdentifier. rewrite !test_identifierPattern, Hc, Hm.
  split; reflexivity.
Qed.

(** The reply of the oracle for [A.f] in the world [chain] has the call
    [B.g]. *)
Lemma parsed_calls_are_identifiers_witness :
  exists call,
    In call (ParsedMethodAnalysis.methodCalls
               (parseLLMResponse (Scenario.chainOracle "A" "f")
                                 "A" "f" "java"))
    /\ MethodCall.className call = "B"
    /\ MethodCall.methodName call = "g"
    /\ isValidIdentifier (MethodCall.className call)
       = (String.length (MethodCall.className call) <? 100)%nat.
Proof.
  destruct (ParsedMethodAnalysis.methodCalls
              (parseLLMResponse (Scenario.chainOracle "A" "f")
                                "A" "f" "java"))
    as [|call rest] eqn:E; [vm_compute in E; discriminate|].
  assert (Hin : In call
                  (ParsedMethodAnalysis.methodCalls
                     (parseLLMResponse (Scenario.chainOracle "A" "f")
                                       "A" "f" "java")))
    by (rewrite E; left; reflexivity).
  exists call. split; [left; reflexivity|].
  destruct (parsed_calls_are_identifiers _ _ _ _ call Hin)
    as [_ [_ [Hvalid _]]].
  vm_compute in E. injection E as <- _.
  split; [reflexivity|]. split; [reflexivity|]. exact Hvalid.
Defined.

(* ================================================================== *)
(** * More properties: the suggestions of a reply *)
(* ================================================================== *)

(** Without the check for duplicates every match is a suggestion. *)
Lemma pushSuggestions_all (label text : string) (ms : list Regex.found) :
  forall suggestions,
    pushSuggestions false label text ms suggestions
    = (suggestions ++ map (suggestionOf label text) ms)%list.
Proof.
  induction ms as [|m ms IH]; intros suggestions; simpl.
  - rewrite app_nil_r. reflexivity.
  - rewrite IH, <- app_assoc. reflexivity.
Qed.

Lemma some_className (className : string) (suggestions : list Suggestion.t) :
  Js.some (fun s => String.eqb (Suggestion.className s) className) suggestions
  = true
  <-> In className (map Suggestion.className suggestions).
Proof.
  unfold Js.some. rewrite existsb_exists, in_map_iff.
  split; intros [s [H1 H2]]; exists s.
  - apply String.eqb_eq in H2. auto.
  - split; [exact H2|]. apply String.eqb_eq. exact H1.
Qed.

(** With the check, the suggestions added are matches of the pattern, all
    of classes that were not suggested before, each class once. *)
Lemma pushSuggestions_new (label text : string) (ms : list Regex.found) :
  forall suggestions,
    exists kept,
      pushSuggestions true label text ms suggestions
      = (suggestions ++ map (suggestionOf label text) kept)%list
      /\ incl kept ms
      /\ NoDup (map Suggestion.className
                    (map (suggestionOf label text) kept))
      /\ (forall s, In s (map (suggestionOf label text) kept) ->
            ~ In (Suggestion.className s)
                 (map Suggestion.className suggestions))
      /\ (forall m, In m ms ->
            In (Suggestion.className (suggestionOf label text m))
               (map Suggestion.className
                    (suggestions ++ map (suggestionOf label text) kept))).
Proof.
  induction ms as [|m ms IH]; intros suggestions.
  - exists []. simpl. rewrite app_nil_r.
    split; [reflexivity|]. split; [apply incl_refl|].
    split; [constructor|]. split; intros ? [].
  - cbn [pushSuggestions andb].
    destruct (Js.some _ suggestions) eqn:Hknown.
    + destruct (IH suggestions) as (kept & Hpush & Hincl & Hnodup & Hnew & Hall).
      exists kept. split; [exact Hpush|].
      split; [apply incl_tl; exact Hincl|].
      split; [exact Hnodup|]. split; [exact Hnew|].
      intros m' [<-|Hin]; [|apply Hall; exact Hin].
      apply some_className in Hknown.
      rewrite map_app. apply in_or_app. left. exact Hknown.
    + destruct (IH (suggestions ++ [suggestionOf label text m])%list)
        as (kept & Hpush & Hincl & Hnodup & Hnew & Hall).
      assert (Hfresh : ~ In (Suggestion.className (suggestionOf label text m))
                            (map Suggestion.className suggestions)).
      { intros Hin. apply some_className in Hin.
        unfold suggestionOf in Hin. simpl in Hin. congruence. }
      exists (m :: kept).
      split; [fold (suggestionOf label text m); rewrite Hpush, <- app_assoc;
              reflexivity|].
      split; [intros x [<-|Hx]; [left; reflexivity|right; apply Hincl; exact Hx]|].
      split; [|split].
      * simpl. constructor; [|exact Hnodup].
        intros Hin. apply in_map_iff in Hin. destruct Hin as [s [Hs Hin]].
        apply (Hnew s Hin). rewrite map_app. apply in_or_app. right.
        simpl. left. symmetry. exact Hs.
      * intros s [<-|Hin]; [exact Hfresh|].
        intros Hc. apply (Hnew s Hin).
        rewrite map_app. apply in_or_app. left. exact Hc.
      * intros m' Hm'. simpl map.
        replace (suggestions ++ suggestionOf label text m
                 :: map (suggestionOf label text) kept)%list
          with ((suggestions ++ [suggestionOf label text m])
                ++ map (suggestionOf label text) kept)%list
          by (rewrite <- app_assoc; reflexivity).
        destruct Hm' as [<-|Hin]; [|apply Hall; exact Hin].
        rewrite !map_app. apply in_or_app. left. apply in_or_app. right.
        left. reflexivity.
Qed.

Lemma suggestionOf_secondary (label text : string) (ms : list Regex.found) :
  label = "Alternative class: " \/ label = "Interface: " ->
  Forall (fun s => isSecondary s = true) (map (suggestionOf label text) ms).
Proof.
  intros Hlabel. apply Forall_forall. intros s Hin.
  apply in_map_iff in Hin. destruct Hin as [m [<- _]].
  unfold isSecondary, suggestionOf. cbn [Suggestion.reason].
  destruct Hlabel as [-> | ->].
  - rewrite startsWith_append. reflexivity.
  - rewrite (startsWith_append "Interface: "). apply Bool.orb_true_r.
Qed.

(** X26.  The suggestions of a reply: first the classes named as
    [**Extends**], every match in the order of the reply, also when a
    class is named twice; then the alternative classes and the interfaces,
    and of these none is a class suggested before: each of their classes
    is suggested once. *)
Theorem extractLLMSuggestions_dedup (llmResponse : string) :
  exists parents others,
    extractLLMSuggestions llmResponse = (parents ++ others)%list
    /\ parents
       = map (suggestionOf "Parent class: " llmResponse)
             (Regex.execAll parentClassPattern llmResponse)
    /\ Forall (fun s => isSecondary s = true) others
    /\ NoDup (map Suggestion.className others)
    /\ forall s, In s others ->
         ~ In (Suggestion.className s) (map Suggestion.className parents).
Proof.
  unfold extractLLMSuggestions. cbv zeta.
  rewrite pushSuggestions_all. cbn [app].
  set (parents := map (suggestionOf "Parent class: " llmResponse)
                      (Regex.execAll parentClassPattern llmResponse)).
  exists parents.
  assert (Hinterfaces :
    forall alternatives,
      Forall (fun s => isSecondary s = true) alternatives ->
      NoDup (map Suggestion.className alternatives) ->
      (forall s, In s alternatives ->
         ~ In (Suggestion.className s) (map Suggestion.className parents)) ->
      exists others,
        pushSuggestions true "Interface: " llmResponse
          (Regex.execAll implementsPattern llmResponse)
          (parents ++ alternatives)
        = (parents ++ others)%list
        /\ Forall (fun s => isSecondary s = true) others
        /\ NoDup (map Suggestion.className others)
        /\ forall s, In s others ->
             ~ In (Suggestion.className s) (map Suggestion.className parents)).
  { intros alternatives Hsecondary Hnodup Hnew.
    destruct (pushSuggestions_new "Interface: " llmResponse
                (Regex.execAll implementsPattern llmResponse)
                (parents ++ alternatives)%list)
      as (kept & Hpush & _ & Hnodup2 & Hnew2 & _).
    exists (alternatives
            ++ map (suggestionOf "Interface: " llmResponse) kept)%list.
    split; [rewrite Hpush, <- app_assoc; reflexivity|].
    split; [apply Forall_app; split;
            [exact Hsecondary|apply suggestionOf_secondary; right; reflexivity]|].
    split.
    - rewrite map_app. apply NoDup_app; [exact Hnodup|exact Hnodup2|].
      intros c Hc1 Hc2. apply in_map_iff in Hc2.
      destruct Hc2 as [s [<- Hs]].
      apply (Hnew2 s Hs). rewrite map_app. apply in_or_app. right. exact Hc1.
    - intros s Hs. apply in_app_or in Hs. destruct Hs as [Hs|Hs].
      + apply Hnew. exact Hs.
      + intros Hc. apply (Hnew2 s Hs).
        rewrite map_app. apply in_or_app. left. exact Hc. }
  destruct (Regex.matchFirst alternativeSectionPattern llmResponse)
    as [alternativeSection|].
  - destruct (pushSuggestions_new "Alternative class: "
                (Regex.group llmResponse alternativeSection 1)
                (Regex.execAll alternativePattern
                   (Regex.group llmResponse alternativeSection 1))
                parents)
      as (kept & Hpush & _ & Hnodup & Hnew & _).
    rewrite Hpush.
    destruct (Hinterfaces
                (map (suggestionOf "Alternative class: "
                        (Regex.group llmResponse alternativeSection 1)) kept))
      as (others & Hothers & Hrest);
      [apply suggestionOf_secondary; left; reflexivity|exact Hnodup
      |exact Hnew|].
    exists others. split; [exact Hothers|]. split; [reflexivity|exact Hrest].
  - destruct (Hinterfaces []) as (others & Hothers & Hrest);
      [constructor|constructor|intros ? []|].
    rewrite app_nil_r in Hothers.
    exists others. split; [exact Hothers|]. split; [reflexivity|exact Hrest].
Qed.
